(** * sdRDM linking engine: a shallow embedding of [sdRDM/linking/link.py]
      and [sdRDM/linking/utils.py]

    The Python code is embedded function by function.  Python exceptions are
    the [Raise] side of [result]; the recursion limit of the interpreter is a
    [fuel] argument whose exhaustion is [RecursionError]; dictionaries keep
    insertion order and are association lists; target trees are mutated in
    place by the source and threaded explicitly here. *)

From Stdlib Require Import String Ascii List Arith Bool Lia DecimalString.
Import ListNotations.
Local Open Scope string_scope.
Local Open Scope list_scope.

Set Implicit Arguments.
Set Warnings "-register-all".

(** ** Python exceptions *)

Inductive pyerr : Type :=
| TypeError
| KeyError (key : string)
| AttributeError
| IndexError
| ValueError_unpack
    (* "not enough values to unpack" of [_, root, *path = ...] *)
| ValueError_matches (cls path : string) (count : nat)
    (* "Object '<cls>' at '<path>' matches for <count> targets. There can
       only be one match though. ..." of [_check_matching_target] *)
| FileNotFoundError (path : string)
| ImportError_ (lib root : string)
| RecursionError.

Inductive result (A : Type) : Type :=
| Ok (a : A)
| Raise (e : pyerr).
Arguments Ok {A} a.
Arguments Raise {A} e.

Definition rbind {A B} (m : result A) (k : A -> result B) : result B :=
  match m with
  | Ok a => k a
  | Raise e => Raise e
  end.

Declare Scope py_scope.
Delimit Scope py_scope with py.
Notation "x <~ m ;; k" := (rbind m (fun x => k))
  (at level 61, m at next level, right associativity) : py_scope.
Local Open Scope py_scope.

(** ** Strings as Python uses them *)

Module PyStr.

Definition dot : ascii := "."%char.

(** [s.split(".")] *)
Fixpoint split_acc (acc : string) (s : string) : list string :=
  match s with
  | EmptyString => [acc]
  | String c rest =>
      if Ascii.eqb c dot then acc :: split_acc EmptyString rest
      else split_acc (acc ++ String c EmptyString) rest
  end.

Definition split (s : string) : list string := split_acc EmptyString s.

(** [s.lstrip(".")], [s.rstrip(".")] and [s.strip(".")] *)
Fixpoint lstrip (s : string) : string :=
  match s with
  | String c rest => if Ascii.eqb c dot then lstrip rest else s
  | EmptyString => EmptyString
  end.

Fixpoint rstrip (s : string) : string :=
  match s with
  | EmptyString => EmptyString
  | String c rest =>
      match rstrip rest with
      | EmptyString => if Ascii.eqb c dot then EmptyString else String c EmptyString
      | r => String c r
      end
  end.

Definition strip (s : string) : string := rstrip (lstrip s).

(** [needle in hay] for two strings *)
Fixpoint contains (needle hay : string) : bool :=
  String.prefix needle hay ||
  match hay with
  | EmptyString => false
  | String _ rest => contains needle rest
  end.

(** [str(n)] for a non-negative integer *)
Definition of_nat (n : nat) : string := NilZero.string_of_uint (Nat.to_uint n).

(** [name[0].islower()]; names are identifiers, hence not empty (on an
    empty name Python raises IndexError) *)
Definition initial_islower (name : string) : bool :=
  match name with
  | String c _ => let k := nat_of_ascii c in ((97 <=? k)%nat && (k <=? 122)%nat)%bool
  | EmptyString => false
  end.

End PyStr.

(** ** Insertion-ordered dictionaries *)

Section Dict.
Variables (K V : Type) (keqb : K -> K -> bool).

Definition dict := list (K * V).

Fixpoint dict_get (k : K) (d : dict) : option V :=
  match d with
  | [] => None
  | (k', v) :: d' => if keqb k k' then Some v else dict_get k d'
  end.

Definition dict_mem (k : K) (d : dict) : bool :=
  match dict_get k d with Some _ => true | None => false end.

(** [d[k] = v]: an existing key keeps its position *)
Fixpoint dict_set (k : K) (v : V) (d : dict) : dict :=
  match d with
  | [] => [(k, v)]
  | (k', v') :: d' =>
      if keqb k k' then (k', v) :: d' else (k', v') :: dict_set k v d'
  end.

(** [d.update(e)], also [{**d, **e}] on a copy of [d] *)
Definition dict_update (d e : dict) : dict :=
  fold_left (fun acc kv => dict_set (fst kv) (snd kv) acc) e d.

Definition dict_keys (d : dict) : list K := map fst d.
Definition dict_values (d : dict) : list V := map snd d.
End Dict.

(** ** Parsed template documents *)

(** What [yaml.safe_load] returns, restricted to strings, mappings with string
    keys and sequences. *)
Inductive yaml : Type :=
| YStr (s : string)
| YMap (kvs : list (string * yaml))
| YList (items : list yaml).

Module Yaml.

Definition empty : yaml := YMap [].

(** [not y] *)
Definition falsy (y : yaml) : bool :=
  match y with
  | YStr EmptyString | YMap [] | YList [] => true
  | _ => false
  end.

Definition is_str (s : string) (y : yaml) : bool :=
  match y with YStr s' => String.eqb s s' | _ => false end.

(** [key in y] for a string [key] *)
Definition contains (key : string) (y : yaml) : bool :=
  match y with
  | YStr s => PyStr.contains key s
  | YMap kvs => dict_mem String.eqb key kvs
  | YList items => existsb (is_str key) items
  end.

(** [y[key]] for a string [key] *)
Definition getitem (y : yaml) (key : string) : result yaml :=
  match y with
  | YMap kvs =>
      match dict_get String.eqb key kvs with
      | Some v => Ok v
      | None => Raise (KeyError key)
      end
  | YStr _ | YList _ => Raise TypeError
  end.

(** [y.get(key)] *)
Definition get (y : yaml) (key : string) : result (option yaml) :=
  match y with
  | YMap kvs => Ok (dict_get String.eqb key kvs)
  | YStr _ | YList _ => Raise AttributeError
  end.

(** [y.values()] *)
Definition values (y : yaml) : result (list yaml) :=
  match y with
  | YMap kvs => Ok (dict_values kvs)
  | YStr _ | YList _ => Raise AttributeError
  end.

Fixpoint chars (s : string) : list yaml :=
  match s with
  | EmptyString => []
  | String c rest => YStr (String c EmptyString) :: chars rest
  end.

(** [for x in y]: a mapping yields its keys, a string its characters *)
Definition iter (y : yaml) : list yaml :=
  match y with
  | YStr s => chars s
  | YMap kvs => map (fun kv => YStr (fst kv)) kvs
  | YList items => items
  end.

(** [y.split(".")] *)
Definition split (y : yaml) : result (list string) :=
  match y with
  | YStr s => Ok (PyStr.split s)
  | YMap _ | YList _ => Raise AttributeError
  end.

End Yaml.

(** [_, root, *path = parts] *)
Definition unpack_target (parts : list string) : result (string * list string) :=
  match parts with
  | _ :: root :: path => Ok (root, path)
  | _ => Raise ValueError_unpack
  end.

(** [lib, root, *_ = parts] *)
Definition unpack_root (parts : list string) : result (string * string) :=
  match parts with
  | lib :: root :: _ => Ok (lib, root)
  | _ => Raise ValueError_unpack
  end.

(** ** Schema metadata (what pydantic reflection exposes) *)

(** A class object; two references are the same class when they are equal. *)
Definition cid := nat.

(** One alternative of a declared type: [hasattr(dtype, "__fields__")] holds
    exactly for [AModel]. *)
Inductive alt : Type :=
| APrim
| AModel (c : cid).

(** [field.type_]: a single type or [Union[...]] with its [__args__]. *)
Inductive inner_ty : Type :=
| TSingle (a : alt)
| TUnion (alts : list alt).

(** The [__origin__] of [field.outer_type_], a type object such as [list]. *)
Record pytype : Type := PyType { t_module : string; t_name : string }.

Record field : Type := Field {
  f_name : string;                     (* key in [__fields__] *)
  f_type : inner_ty;                   (* [field.type_] *)
  f_origin : option pytype;            (* [outer_type_.__dict__.get("__origin__")] *)
  f_extra : list (string * string)     (* [field.field_info.extra] *)
}.

Record class_decl : Type := ClassDecl {
  c_name : string;                     (* [__name__] *)
  c_module : string;                   (* [__module__] *)
  c_fields : list field                (* [__fields__], declaration order *)
}.

(** [hasattr(field.type_, "__fields__")] *)
Definition type_has_fields (t : inner_ty) : bool :=
  match t with
  | TSingle (AModel _) => true
  | _ => false
  end.

(** ** Source instances *)

Inductive prim : Type :=
| PNone
| PBool (b : bool)
| PInt (n : nat)
| PStr (s : string).

Inductive value : Type :=
| VPrim (p : prim)
| VObj (c : cid) (attrs : list (string * value))
| VList (items : list value).

Definition is_list (v : value) : bool :=
  match v with VList _ => true | _ => false end.

(** [hasattr(v, "__fields__")] *)
Definition has_fields (v : value) : bool :=
  match v with VObj _ _ => true | _ => false end.

(** [_only_classes(value)] *)
Definition _only_classes (items : list value) : bool := forallb has_fields items.

(** [getattr(obj, name)]; only model instances carry attributes *)
Definition getattr (obj : value) (name : string) : result value :=
  match obj with
  | VObj _ attrs =>
      match dict_get String.eqb name attrs with
      | Some v => Ok v
      | None => Raise AttributeError
      end
  | _ => Raise AttributeError
  end.

(** ** Guide trees *)

(** Keys of an AttributeNode's value mapping: the integer [obj_index] or the
    string [f"{attr_path}.{obj_index}"]. *)
Inductive idx : Type :=
| IInt (n : nat)
| IStr (s : string).

Definition idx_eqb (a b : idx) : bool :=
  match a, b with
  | IInt m, IInt n => Nat.eqb m n
  | IStr s, IStr t => String.eqb s t
  | _, _ => false
  end.

(** Modelled from the spec: [sdRDM/linking/nodes.py] (the declarations of
    ClassNode and AttributeNode) is not part of the sources.  A ClassNode has
    a name, a module tag, a container kind and children; an AttributeNode has a
    name, a container kind, children and [value], a mapping from index to leaf
    value that starts empty. *)
Inductive node : Type :=
| ClassNode (name module_ : string) (outer_type : option pytype) (children : list node)
| AttributeNode (name : string) (outer_type : option pytype)
    (value_ : list (idx * value)) (children : list node).

Definition node_name (n : node) : string :=
  match n with
  | ClassNode name _ _ _ => name
  | AttributeNode name _ _ _ => name
  end.

Definition node_children (n : node) : list node :=
  match n with
  | ClassNode _ _ _ cs => cs
  | AttributeNode _ _ _ cs => cs
  end.

Definition is_attribute (n : node) : bool :=
  match n with AttributeNode _ _ _ _ => true | ClassNode _ _ _ _ => false end.

(** number of nodes of each kind in a tree *)
Fixpoint count_class (n : node) : nat :=
  (match n with ClassNode _ _ _ _ => 1 | AttributeNode _ _ _ _ => 0 end) +
  (fix go (cs : list node) : nat :=
     match cs with [] => 0 | c :: cs' => count_class c + go cs' end)
    (node_children n).

Fixpoint count_attribute (n : node) : nat :=
  (match n with ClassNode _ _ _ _ => 0 | AttributeNode _ _ _ _ => 1 end) +
  (fix go (cs : list node) : nat :=
     match cs with [] => 0 | c :: cs' => count_attribute c + go cs' end)
    (node_children n).

Fixpoint count_nodes (n : node) : nat :=
  1 + (fix go (cs : list node) : nat :=
         match cs with [] => 0 | c :: cs' => count_nodes c + go cs' end)
        (node_children n).

(** ** [utils.py]: the guide tree of a schema type *)

Section GuideTree.

(** the class objects of the running program *)
Variable env : cid -> class_decl.

Inductive seed : Type := SeedNone | SeedList | SeedDict.

(** [DEFAULT_MAPPINGS[name]()] *)
Definition DEFAULT_MAPPINGS (name : string) : result seed :=
  if name =? "list" then Ok SeedList
  else if name =? "dict" then Ok SeedDict
  else Raise (KeyError name).

(** the [value] handed to a new AttributeNode *)
Definition seed_value (outer_type : option pytype) : result seed :=
  match outer_type with
  | Some t =>
      if t_module t =? "builtins" then DEFAULT_MAPPINGS (t_name t)
      else Ok SeedNone
  | None => Ok SeedNone
  end.

(** [list(inner_type.__args__)] for a Union, else [[inner_type]] *)
Definition alternatives (t : inner_ty) : list alt :=
  match t with
  | TSingle a => [a]
  | TUnion alts => alts
  end.

Section Loops.
(** the recursive call [build_guide_tree(dtype, current_parent, outer=...)] *)
Variable rec : cid -> option pytype -> result node.
(** [obj_tree.name] *)
Variable tree_name : string.

(** [for dtype in inner_type] *)
Fixpoint build_alternatives (outer_type : option pytype) (alts : list alt)
  : result (list node) :=
  match alts with
  | [] => Ok []
  | APrim :: rest => build_alternatives outer_type rest
  | AModel d :: rest =>
      if negb (c_name (env d) =? tree_name) then
        sub <~ rec d outer_type ;;
        subs <~ build_alternatives outer_type rest ;;
        Ok (sub :: subs)
      else build_alternatives outer_type rest
  end.

(** [for name, field in obj.__fields__.items()] *)
Fixpoint build_fields (fields : list field) : result (list node) :=
  match fields with
  | [] => Ok []
  | fld :: rest =>
      let outer_type := f_origin fld in
      _ <~ seed_value outer_type ;;
      subs <~ build_alternatives outer_type (alternatives (f_type fld)) ;;
      nodes <~ build_fields rest ;;
      Ok (AttributeNode (f_name fld) outer_type [] subs :: nodes)
  end.
End Loops.

Fixpoint build_guide_tree (fuel : nat) (obj : cid) (outer : option pytype)
  : result node :=
  match fuel with
  | 0 => Raise RecursionError
  | S fuel' =>
      let name := c_name (env obj) in
      attrs <~ build_fields (build_guide_tree fuel') name (c_fields (env obj)) ;;
      Ok (ClassNode name (c_module (env obj)) outer attrs)
  end.

End GuideTree.

(** ** [anytree.findall] and the write into a node *)

Fixpoint names_eqb (a b : list string) : bool :=
  match a, b with
  | [], [] => true
  | x :: a', y :: b' => (x =? y) && names_eqb a' b'
  | _, _ => false
  end.

(** [[n.name for n in node.path if n.name[0].islower()]] given the same list
    for the parent *)
Definition extend_chain (chain : list string) (n : node) : list string :=
  if PyStr.initial_islower (node_name n) then chain ++ [node_name n] else chain.

(** [_search_by_path(path)] applied to a node with that list of names *)
Definition _search_by_path (path chain : list string) : bool := names_eqb chain path.

(** Nodes are referred to by position: the child indices from the root. *)
Definition position := list nat.

(** pre-order iteration, filtered *)
Fixpoint findall_from (chain path : list string) (n : node) : list position :=
  let chain' := extend_chain chain n in
  (if _search_by_path path chain' then [[]] else []) ++
  (fix children_from (i : nat) (cs : list node) : list position :=
     match cs with
     | [] => []
     | c :: cs' => map (cons i) (findall_from chain' path c) ++ children_from (S i) cs'
     end) 0 (node_children n).

Definition findall (root : node) (path : list string) : list position :=
  findall_from [] path root.

Fixpoint node_at (n : node) (pos : position) : option node :=
  match pos with
  | [] => Some n
  | i :: pos' =>
      match nth_error (node_children n) i with
      | Some c => node_at c pos'
      | None => None
      end
  end.

Definition with_children (n : node) (cs : list node) : node :=
  match n with
  | ClassNode name m o _ => ClassNode name m o cs
  | AttributeNode name o v _ => AttributeNode name o v cs
  end.

Fixpoint list_set {A} (i : nat) (x : A) (l : list A) : list A :=
  match l, i with
  | [], _ => []
  | _ :: l', 0 => x :: l'
  | y :: l', S i' => y :: list_set i' x l'
  end.

(** [node.value[index] = value]; a ClassNode has no [value] *)
Definition set_value (index : idx) (v : value) (n : node) : result node :=
  match n with
  | AttributeNode name o vals cs =>
      Ok (AttributeNode name o (dict_set idx_eqb index v vals) cs)
  | ClassNode _ _ _ _ => Raise AttributeError
  end.

(** the mutation of the node at a position, seen from the root *)
Fixpoint update_at (f : node -> result node) (n : node) (pos : position)
  : result node :=
  match pos with
  | [] => f n
  | i :: pos' =>
      match nth_error (node_children n) i with
      | Some c =>
          c' <~ update_at f c pos' ;;
          Ok (with_children n (list_set i c' (node_children n)))
      | None => Raise IndexError
      end
  end.

(** [_assign_primitive_data_to_node(path, node, value, index)] *)
Definition _assign_primitive_data_to_node
  (path : list string) (root : node) (v : value) (index : idx) : result node :=
  match findall root path with
  | [] => Raise IndexError                     (* [findall(...)[0]] *)
  | pos :: _ => update_at (set_value index v) root pos
  end.

(** ** Target roots as mutable state *)

(** [roots]: root name to guide tree.  The trees are written in place by the
    source; here every operation returns the dictionary it leaves behind,
    also when it raises. *)
Definition roots_t := list (string * node).

Definition st (A : Type) : Type := roots_t -> roots_t * result A.

Definition sret {A} (a : A) : st A := fun roots => (roots, Ok a).

Definition lift {A} (m : result A) : st A := fun roots => (roots, m).

Definition sbind {A B} (m : st A) (k : A -> st B) : st B :=
  fun roots =>
    match m roots with
    | (roots', Ok a) => k a roots'
    | (roots', Raise e) => (roots', Raise e)
    end.

Notation "x <- m ;; k" := (sbind m (fun x => k))
  (at level 61, m at next level, right associativity) : py_scope.

(** [_, root, *path = parts; node = roots[root];
     _assign_primitive_data_to_node(path, node, value, index=index)] *)
Definition write_value (parts : list string) (v : value) (index : idx) : st unit :=
  fun roots =>
    match unpack_target parts with
    | Raise e => (roots, Raise e)
    | Ok (root, path) =>
        match dict_get String.eqb root roots with
        | None => (roots, Raise (KeyError root))
        | Some tree =>
            match _assign_primitive_data_to_node path tree v index with
            | Ok tree' => (dict_set String.eqb root tree' roots, Ok tt)
            | Raise e => (roots, Raise e)
            end
        end
    end.

(** ** [link.py]: resolution of the active targets and the tree walk *)

Section Linking.

Variable env : cid -> class_decl.
(** [bool(re.match(pattern, text))]; raises on a malformed pattern *)
Variable re_match : string -> string -> result bool.
(** [str(value)] *)
Variable py_str : value -> string.
(** [getattr(importlib.import_module(lib), root)] *)
Variable resolve : string -> string -> result cid.

(** [obj.__class__.__name__] *)
Definition class_name_of (v : value) : string :=
  match v with
  | VObj c _ => c_name (env c)
  | VList _ => "list"
  | VPrim PNone => "NoneType"
  | VPrim (PBool _) => "bool"
  | VPrim (PInt _) => "int"
  | VPrim (PStr _) => "str"
  end.

(** one iteration of [for target in targets]: does the rule apply? *)
Definition rule_matches (obj : value) (target : yaml) : result bool :=
  name <~ Yaml.getitem target "attribute" ;;
  match_attr <~ match name with
                | YStr a => getattr obj a
                | _ => Raise TypeError
                end ;;
  pattern <~ Yaml.getitem target "pattern" ;;
  match pattern with
  | YStr p => re_match p (py_str match_attr)
  | _ => Raise TypeError
  end.

Fixpoint collect_matches (obj : value) (targets : list yaml) : result (list yaml) :=
  match targets with
  | [] => Ok []
  | target :: rest =>
      b <~ rule_matches obj target ;;
      matches <~ collect_matches obj rest ;;
      Ok (if b then target :: matches else matches)
  end.

Definition _check_matching_target (obj : value) (path : string) (template : yaml)
  : result yaml :=
  found <~ Yaml.get template path ;;
  match found with
  | None => Ok Yaml.empty
  | Some targets =>
      if Yaml.falsy targets then Ok Yaml.empty
      else
        matches <~ collect_matches obj (Yaml.iter targets) ;;
        if Nat.ltb 1 (length matches) then
          Raise (ValueError_matches (class_name_of obj) path (length matches))
        else if Nat.eqb (length matches) 0 then Ok Yaml.empty
        else
          match matches with
          | m :: _ => Yaml.getitem m "targets"
          | [] => Raise IndexError
          end
  end.

(** [f"{attr_path}.{attribute}".strip(".")] *)
Definition child_path (attr_path attribute : string) : string :=
  PyStr.strip (attr_path ++ "." ++ attribute).

(** [_get_wrapping_type(field)] *)
Definition _get_wrapping_type (fld : field) : option string :=
  option_map t_name (f_origin fld).

Definition items_of (v : value) : list value :=
  match v with VList items => items | _ => [] end.

Definition name_is (s : string) (o : option string) : bool :=
  match o with Some t => t =? s | None => false end.

Section Walk.
Variables (option : string) (template : yaml).
(** the recursive call [_convert_tree(obj=..., obj_index=..., attr_path=...,
    target=...)] *)
Variable rec : value -> nat -> string -> yaml -> st unit.

(** the [else] branch of the loop body (lines 187-202); [false] is the
    [return None] *)
Definition assign_leaf (fld : field) (v : value) (obj_index : nat)
  (attr_path : string) (target : yaml) : st bool :=
  let attribute := f_name fld in
  if Yaml.contains attribute target then
    tp <- lift (Yaml.getitem target attribute) ;;
    parts <- lift (Yaml.split tp) ;;
    _ <- write_value parts v (IInt obj_index) ;;
    sret true
  else
    match dict_get String.eqb option (f_extra fld) with
    | Some tp =>
        let nu_index := (attr_path ++ "." ++ PyStr.of_nat obj_index)%string in
        _ <- write_value (PyStr.split tp) v (IStr nu_index) ;;
        sret true
    | None => sret false
    end.

(** [for i, sub_obj in enumerate(value)] from position [i] on; yields
    the last binding of the local [target] *)
Fixpoint convert_items (path : string) (obj_index i : nat)
  (items : list value) (target : yaml) : st yaml :=
  match items with
  | [] => sret target
  | sub_obj :: rest =>
      target' <- lift (_check_matching_target sub_obj path template) ;;
      _ <- rec sub_obj (obj_index + i) path target' ;;
      convert_items path obj_index (S i) rest target'
  end.

(** [for attribute, field in obj.__fields__.items()]; [target] is the
    local variable, re-bound by the first two branches *)
Fixpoint convert_fields (obj : value) (obj_index : nat) (attr_path : string)
  (fields : list field) (target : yaml) : st unit :=
  match fields with
  | [] => sret tt
  | fld :: rest =>
      let attribute := f_name fld in
      v <- lift (getattr obj attribute) ;;
      if negb (is_list v) && type_has_fields (f_type fld) then
        target' <- lift (_check_matching_target v
                           (child_path attr_path attribute) template) ;;
        _ <- rec v obj_index (child_path attr_path attribute) target' ;;
        convert_fields obj obj_index attr_path rest target'
      else if is_list v && _only_classes (items_of v) then
        if name_is "list" (_get_wrapping_type fld) then
          target' <- convert_items (child_path attr_path attribute)
                       obj_index 0 (items_of v) target ;;
          convert_fields obj obj_index attr_path rest target'
        else convert_fields obj obj_index attr_path rest target
      else
        continue <- assign_leaf fld v obj_index attr_path target ;;
        if continue then convert_fields obj obj_index attr_path rest target
        else sret tt
  end.
End Walk.

Fixpoint _convert_tree (fuel : nat) (option : string) (template : yaml)
  (obj : value) (obj_index : nat) (attr_path : string) (target : yaml)
  : st unit :=
  match fuel with
  | 0 => lift (Raise RecursionError)
  | S fuel' =>
      match obj with
      | VObj c _ =>
          convert_fields option template (_convert_tree fuel' option template)
            obj obj_index attr_path (c_fields (env c)) target
      | _ => lift (Raise AttributeError)      (* [obj.__fields__] *)
      end
  end.

(** ** Root discovery *)

(** [lib, root, *_ = s.split("."); lib = importlib.import_module(lib);
     build_guide_tree(getattr(lib, root))] *)
Definition build_root (fuel : nat) (parts : list string) : result (string * node) :=
  p <~ unpack_root parts ;;
  cls <~ resolve (fst p) (snd p) ;;
  tree <~ build_guide_tree env fuel cls None ;;
  Ok (snd p, tree).

Section Annotations.
Variables (fuel : nat) (option : string).
Variable rec : cid -> st unit.

(** the loop of [_extract_roots]; a pydantic field descriptor has no
    [__fields__] of its own, so only the [elif] can recurse *)
Fixpoint extract_fields (fields : list field) : st unit :=
  match fields with
  | [] => sret tt
  | fld :: rest =>
      _ <- match dict_get String.eqb option (f_extra fld) with
           | Some tp =>
               r <- lift (build_root fuel (PyStr.split tp)) ;;
               fun roots => (dict_set String.eqb (fst r) (snd r) roots, Ok tt)
           | None => sret tt
           end ;;
      _ <- match f_type fld with
           | TSingle (AModel d) => rec d
           | _ => sret tt
           end ;;
      extract_fields rest
  end.
End Annotations.

(** [_extract_roots(obj, option, roots)]; the state is the dictionary bound
    to [roots] *)
Fixpoint _extract_roots (fuel : nat) (option : string) (obj : cid) : st unit :=
  match fuel with
  | 0 => lift (Raise RecursionError)
  | S fuel' =>
      extract_fields fuel' option (_extract_roots fuel' option) (c_fields (env obj))
  end.

(** [_get_target_roots(targets)] *)
Fixpoint target_roots_loop (fuel : nat) (targets : list yaml) (root_classes : roots_t)
  : result roots_t :=
  match targets with
  | [] => Ok root_classes
  | target :: rest =>
      parts <~ Yaml.split target ;;
      r <~ build_root fuel parts ;;
      target_roots_loop fuel rest (dict_set String.eqb (fst r) (snd r) root_classes)
  end.

Definition _get_target_roots (fuel : nat) (targets : yaml) : result roots_t :=
  match fuel with
  | 0 => Raise RecursionError
  | S fuel' =>
      vs <~ Yaml.values targets ;;
      target_roots_loop fuel' vs []
  end.

(** [if not "targets" in o: continue; roots.update(_get_target_roots(o["targets"]))] *)
Definition add_targets (fuel : nat) (o : yaml) (roots : roots_t) : result roots_t :=
  if negb (Yaml.contains "targets" o) then Ok roots
  else
    targets <~ Yaml.getitem o "targets" ;;
    found <~ _get_target_roots fuel targets ;;
    Ok (dict_update String.eqb roots found).

Fixpoint sub_options_loop (fuel : nat) (subs : list yaml) (roots : roots_t)
  : result roots_t :=
  match subs with
  | [] => Ok roots
  | sub_option :: rest =>
      roots' <~ add_targets fuel sub_option roots ;;
      sub_options_loop fuel rest roots'
  end.

Fixpoint options_loop (fuel : nat) (options : list yaml) (roots : roots_t)
  : result roots_t :=
  match options with
  | [] => Ok roots
  | YList subs :: rest =>
      roots' <~ sub_options_loop fuel subs roots ;;
      options_loop fuel rest roots'
  | o :: rest =>
      roots' <~ add_targets fuel o roots ;;
      options_loop fuel rest roots'
  end.

Definition _extract_roots_from_template (fuel : nat) (template : yaml)
  : result roots_t :=
  match fuel with
  | 0 => Raise RecursionError
  | S fuel' =>
      options <~ Yaml.values template ;;
      options_loop fuel' options []
  end.

End Linking.

(** ** [convert_data_model] *)

Section Entry.

Variable env : cid -> class_decl.
Variable re_match : string -> string -> result bool.
Variable py_str : value -> string.
Variable resolve : string -> string -> result cid.
(** the parsed content of every file that exists *)
Variable fs : string -> option yaml.
(** [root.build()], of the absent [nodes.py] *)
Variable built : Type.
Variable build : node -> built.

(** lines 33-36; [path] is falsy when it is [None] or empty *)
Definition load_template (path : option string) : result yaml :=
  match path with
  | None => Ok Yaml.empty
  | Some p =>
      if p =? "" then Ok Yaml.empty
      else
        match fs p with
        | Some y => Ok y
        | None => Raise (FileNotFoundError p)
        end
  end.

(** The trees held by the shared dictionary are the very objects held by the
    merged one, so the writes of the walk show through it. *)
Definition write_back (shared roots : roots_t) : roots_t :=
  map (fun kv =>
         (fst kv,
          match dict_get String.eqb (fst kv) roots with
          | Some tree => tree
          | None => snd kv
          end)) shared.

(** [{**_extract_roots_from_template(template=template),
      **_extract_roots(obj=obj, option=option)}] *)
Definition merge_roots (from_template from_annotations : roots_t) : roots_t :=
  dict_update String.eqb from_template from_annotations.

(** lines 39-42.  [shared] is the dictionary created once as the default of
    [roots] in [_extract_roots]; the call omits [roots], so that dictionary
    is the one filled and returned.  Yields the dictionary bound to the
    local [roots]. *)
Definition discover_roots (fuel : nat) (template : yaml) (obj : value)
  (option : string) : st roots_t :=
  fun shared =>
    match _extract_roots_from_template env resolve fuel template with
    | Raise e => (shared, Raise e)
    | Ok from_template =>
        let extract :=
          match obj with
          | VObj c _ => _extract_roots env resolve fuel option c
          | _ => lift (Raise AttributeError)       (* [obj.__fields__] *)
          end in
        match extract shared with
        | (shared', Raise e) => (shared', Raise e)
        | (shared', Ok _) => (shared', Ok (merge_roots from_template shared'))
        end
    end.

(** lines 38-47 for a loaded template *)
Definition convert_loaded (fuel : nat) (template : yaml) (obj : value)
  (option : string) (shared : roots_t) : roots_t * result (list built) :=
  match discover_roots fuel template obj option shared with
  | (shared', Raise e) => (shared', Raise e)
  | (shared', Ok roots) =>
      match _convert_tree env re_match py_str fuel option template
              obj 0 "" Yaml.empty roots with
      | (roots', Raise e) => (write_back shared' roots', Raise e)
      | (roots', Ok _) =>
          (write_back shared' roots', Ok (map build (dict_values roots')))
      end
  end.

Definition convert_data_model (fuel : nat) (obj : value) (option : string)
  (path : Datatypes.option string) (shared : roots_t)
  : roots_t * result (list built) :=
  match load_template path with
  | Raise e => (shared, Raise e)
  | Ok template => convert_loaded fuel template obj option shared
  end.

End Entry.

(** ** Auxiliary definitions for the statements *)

(** the children part of [findall_from], as a function of its own *)
Fixpoint findall_children (chain path : list string) (i : nat) (cs : list node)
  : list position :=
  match cs with
  | [] => []
  | c :: cs' =>
      map (cons i) (findall_from chain path c) ++ findall_children chain path (S i) cs'
  end.

Definition sum_over {A} (f : A -> nat) (l : list A) : nat :=
  fold_right (fun a acc => f a + acc) 0 l.



Section FieldCounts.
Variable env : cid -> class_decl.

(** the alternative is entered by the builder working on the class [name] *)
Definition entered (name : string) (a : alt) : Datatypes.option cid :=
  match a with
  | AModel d => if negb (c_name (env d) =? name) then Some d else None
  | APrim => None
  end.

(** the schema types that the builder enters when it builds the tree of
    [c]: [c] itself and, from a type entered, the alternatives of its fields
    that are entered *)
Inductive builds_into (c : cid) : cid -> Prop :=
| builds_root : builds_into c c
| builds_nested (d e : cid) (fld : field) (a : alt) :
    builds_into c d ->
    In fld (c_fields (env d)) -> In a (alternatives (f_type fld)) ->
    entered (c_name (env d)) a = Some e ->
    builds_into c e.

(** Following the spec's words: the number of declared fields plus
    transitively reachable nested-schema fields, a nested schema being
    entered where the builder enters it. *)
Fixpoint reachable_fields (depth : nat) (c : cid) : nat :=
  match depth with
  | 0 => 0
  | S depth' =>
      sum_over
        (fun fld =>
           1 + sum_over
                 (fun a =>
                    match entered (c_name (env c)) a with
                    | Some d => reachable_fields depth' d
                    | None => 0
                    end)
                 (alternatives (f_type fld)))
        (c_fields (env c))
  end.

(** the number of schema types entered on the way, the root included *)
Fixpoint reachable_classes (depth : nat) (c : cid) : nat :=
  match depth with
  | 0 => 0
  | S depth' =>
      1 + sum_over
            (fun fld =>
               sum_over
                 (fun a =>
                    match entered (c_name (env c)) a with
                    | Some d => reachable_classes depth' d
                    | None => 0
                    end)
                 (alternatives (f_type fld)))
            (c_fields (env c))
  end.
End FieldCounts.

(** the value mapping of a leaf after the values [xs] were stored at the
    integer keys [base], [base + 1], ... in that order *)
Fixpoint store_all (base : nat) (xs : list value) (vals : list (idx * value))
  : list (idx * value) :=
  match xs with
  | [] => vals
  | x :: xs' => store_all (S base) xs' (dict_set idx_eqb (IInt base) x vals)
  end.

(** the value mapping of a leaf after the element at position [i] of a
    sequence stored its values at the integer keys [base + i],
    [base + i + 1], ..., one element after the other *)
Fixpoint store_rows (base : nat) (rows : list (list value))
  (vals : list (idx * value)) : list (idx * value) :=
  match rows with
  | [] => vals
  | xs :: rest => store_rows (S base) rest (store_all base xs vals)
  end.

(** the node that the node path [npath] denotes in the tree of [root] (the
    first match of the search) is an AttributeNode that holds [vals] *)
Definition leaf_holds (root : string) (npath : list string) (roots : roots_t)
  (vals : list (idx * value)) : Prop :=
  exists tree pos more name o cs,
    dict_get String.eqb root roots = Some tree /\
    findall tree npath = pos :: more /\
    node_at tree pos = Some (AttributeNode name o vals cs).

(** the element [item] of a sequence at [path] stores the values [xs] in
    that leaf: it is a schema instance, targets are resolved for it at
    [path], and its walk with these targets, at whatever index [k] it is
    given, returns with the entries [k], [k + 1], ... of the leaf set to
    [xs] *)
Definition stores (env : cid -> class_decl)
  (re_match : string -> string -> result bool) (py_str : value -> string)
  (template : yaml) (walk : value -> nat -> string -> yaml -> st unit)
  (root : string) (npath : list string)
  (path : string) (item : value) (xs : list value) : Prop :=
  has_fields item = true /\
  exists t,
    _check_matching_target env re_match py_str item path template = Ok t /\
    forall k roots vals,
      leaf_holds root npath roots vals ->
      exists tree',
        walk item k path t roots = (dict_set String.eqb root tree' roots, Ok tt) /\
        leaf_holds root npath (dict_set String.eqb root tree' roots)
          (store_all k xs vals).

(** a value handled by the last branch of the walk whatever its field *)
Definition is_leaf_value (v : value) : bool :=
  negb (is_list v && _only_classes (items_of v)).

(** the target-path strings of a template that the code reads: those held
    under the key [targets] by a non-list entry or by a member of a list
    entry *)
Definition holder_paths (holder : yaml) : list yaml :=
  if Yaml.contains "targets" holder then
    match Yaml.getitem holder "targets" with
    | Ok (YMap kvs) => dict_values kvs
    | _ => []
    end
  else [].

Definition entry_paths (entry : yaml) : list yaml :=
  match entry with
  | YList subs => flat_map holder_paths subs
  | _ => holder_paths entry
  end.

Definition template_paths (template : yaml) : list yaml :=
  match template with
  | YMap kvs => flat_map entry_paths (dict_values kvs)
  | _ => []
  end.

(** an entry that is a plain attribute-to-target-path map: a mapping
    without the key [targets] *)
Definition is_flat_map (entry : yaml) : bool :=
  match entry with
  | YMap kvs => negb (dict_mem String.eqb "targets" kvs)
  | _ => false
  end.

(** [tree] is the guide tree of a class found under the name [root] *)
Definition guide_tree_of (env : cid -> class_decl)
  (resolve : string -> string -> result cid) (root : string) (tree : node) : Prop :=
  exists lib cls fuel,
    resolve lib root = Ok cls /\ build_guide_tree env fuel cls None = Ok tree.

(** the root named by the target path has an entry in [roots] *)
Definition root_present (tp : string) (roots : roots_t) : Prop :=
  exists lib root tree,
    unpack_root (PyStr.split tp) = Ok (lib, root) /\
    dict_get String.eqb root roots = Some tree.

(** ** A small concrete world *)

Module Demo.

Definition list_type : Datatypes.option pytype := Some (PyType "builtins" "list").

Definition plain (name : string) : field := Field name (TSingle APrim) None [].

Definition Measurement : cid := 0.
Definition Sample : cid := 1.
Definition MeasurementSwapped : cid := 2.
Definition Series : cid := 3.
Definition Point : cid := 4.
Definition Grid : cid := 5.
Definition Row : cid := 6.
Definition Holder : cid := 7.
Definition Alpha : cid := 8.
Definition Beta : cid := 9.
Definition Empty : cid := 10.
Definition Wrapper : cid := 11.

Definition temperature : field :=
  Field "temperature" (TSingle APrim) None [("A", "libA.Sample.temp")].

Definition env (c : cid) : class_decl :=
  match c with
  | 0 => ClassDecl "Measurement" "demo" [plain "note"; temperature]
  | 1 => ClassDecl "Sample" "libA" [plain "temp"; plain "kind"]
  | 2 => ClassDecl "MeasurementSwapped" "demo" [temperature; plain "note"]
  | 3 => ClassDecl "Series" "demo"
           [Field "samples" (TSingle (AModel Point)) list_type []]
  | 4 => ClassDecl "Point" "demo" [plain "a"]
  | 5 => ClassDecl "Grid" "demo" [Field "rows" (TSingle (AModel Row)) list_type []]
  | 6 => ClassDecl "Row" "demo" [Field "cells" (TSingle (AModel Point)) list_type []]
  | 7 => ClassDecl "Holder" "libA"
           [Field "x" (TUnion [AModel Alpha; AModel Beta]) None []]
  | 8 => ClassDecl "Alpha" "libA" [plain "name"]
  | 9 => ClassDecl "Beta" "libA" [plain "name"]
  | 11 => ClassDecl "Wrapper" "demo" [Field "sample" (TSingle (AModel Sample)) None []]
  | _ => ClassDecl "Empty" "demo" []
  end.

(** the modules that can be imported: [libA] with [Sample] and [Holder] *)
Definition resolve (lib root : string) : result cid :=
  if lib =? "libA" then
    if root =? "Sample" then Ok Sample
    else if root =? "Holder" then Ok Holder
    else Raise AttributeError
  else Raise (ImportError_ lib root).

(** [re.match] on patterns without metacharacters: a match at the start *)
Definition re_match (pattern text : string) : result bool :=
  Ok (String.prefix pattern text).

Definition py_str (v : value) : string :=
  match v with
  | VPrim (PStr s) => s
  | VPrim (PInt n) => PyStr.of_nat n
  | VPrim (PBool true) => "True"
  | VPrim (PBool false) => "False"
  | VPrim PNone => "None"
  | _ => "<object>"
  end.

Definition no_files (path : string) : Datatypes.option yaml := None.

Definition rank (c : cid) : nat :=
  match c with
  | 5 => 2
  | 3 | 6 | 7 | 11 => 1
  | _ => 0
  end.

(** the same classes beside [Ping] and [Pong], which nest each other *)
Definition env_ping_pong (c : cid) : class_decl :=
  match c with
  | 12 => ClassDecl "Ping" "demo" [Field "pong" (TSingle (AModel 13)) None []]
  | 13 => ClassDecl "Pong" "demo" [Field "ping" (TSingle (AModel 12)) None []]
  | _ => env c
  end.

Definition sample_tree : node :=
  ClassNode "Sample" "libA" None
    [AttributeNode "temp" None [] []; AttributeNode "kind" None [] []].

Definition holder_tree : node :=
  ClassNode "Holder" "libA" None
    [AttributeNode "x" None []
       [ClassNode "Alpha" "libA" None [AttributeNode "name" None [] []];
        ClassNode "Beta" "libA" None [AttributeNode "name" None [] []]]].

Definition int (n : nat) : value := VPrim (PInt n).
Definition str (s : string) : value := VPrim (PStr s).

Definition measurement : value :=
  VObj Measurement [("note", str "calibrated"); ("temperature", int 25)].

Definition measurement_swapped : value :=
  VObj MeasurementSwapped [("temperature", int 25); ("note", str "calibrated")].

Definition point (n : nat) : value := VObj Point [("a", int n)].

Definition series : value :=
  VObj Series [("samples", VList [point 10; point 11; point 12])].

Definition grid : value :=
  VObj Grid
    [("rows", VList [VObj Row [("cells", VList [point 0; point 1])];
                     VObj Row [("cells", VList [point 10; point 11])]])].

Definition rule (attribute pattern : string) (targets : list (string * yaml)) : yaml :=
  YMap [("attribute", YStr attribute); ("pattern", YStr pattern);
        ("targets", YMap targets)].

(** every point goes to [Sample.temp] *)
Definition to_temp : yaml := rule "a" "" [("a", YStr "libA.Sample.temp")].

Definition series_template : yaml := YMap [("samples", YList [to_temp])].
Definition grid_template : yaml := YMap [("rows.cells", YList [to_temp])].

(** a flat attribute-to-target-path map at the path [sample] *)
Definition flat_template : yaml :=
  YMap [("sample", YMap [("temp", YStr "libA.Sample.temp")])].

(** two rules on [kind] *)
Definition glass_rule : yaml := rule "kind" "glass" [("temp", YStr "libA.Sample.temp")].
Definition metal_rule : yaml := rule "kind" "metal" [("temp", YStr "libA.Sample.kind")].
Definition kind_template : yaml := YMap [("sample", YList [glass_rule; metal_rule])].

Definition glass_sample : value := VObj Sample [("temp", int 20); ("kind", str "glass")].

Definition empty_obj : value := VObj Empty [].

Definition wrapper : value := VObj Wrapper [("sample", glass_sample)].

End Demo.

(** ** Further definitions: tree shapes, symbolic paths, template skeletons *)

(** a tree with every value mapping emptied: what the walk cannot change *)
Fixpoint skeleton (n : node) : node :=
  match n with
  | ClassNode name m o cs => ClassNode name m o (map skeleton cs)
  | AttributeNode name o _ cs => AttributeNode name o [] (map skeleton cs)
  end.

(** the root names with the skeleton of each tree *)
Definition frame_of (roots : roots_t) : list (string * node) :=
  map (fun kv => (fst kv, skeleton (snd kv))) roots.

Definition node_outer (n : node) : Datatypes.option pytype :=
  match n with
  | ClassNode _ _ o _ => o
  | AttributeNode _ o _ _ => o
  end.

Definition node_values (n : node) : list (idx * value) :=
  match n with
  | ClassNode _ _ _ _ => []
  | AttributeNode _ _ vals _ => vals
  end.

(** the shape of a freshly built guide tree: ClassNodes and AttributeNodes
    alternate, an AttributeNode holds no value yet, and a ClassNode under an
    AttributeNode carries the container of that attribute *)
Inductive guide_shape : node -> Prop :=
| shape_class (name m : string) (o : Datatypes.option pytype) (cs : list node) :
    Forall (fun c => is_attribute c = true) cs ->
    Forall guide_shape cs ->
    guide_shape (ClassNode name m o cs)
| shape_attribute (name : string) (o : Datatypes.option pytype) (cs : list node) :
    Forall (fun c => is_attribute c = false /\ node_outer c = o) cs ->
    Forall guide_shape cs ->
    guide_shape (AttributeNode name o [] cs).

(** [q] is an initial segment of [pos] *)
Definition is_prefix (q pos : position) : Prop := exists r, pos = q ++ r.

(** a schema type nested in another through fields of a single model type,
    the way [_extract_roots] descends *)
Inductive nests (env : cid -> class_decl) : cid -> cid -> Prop :=
| nests_here (c : cid) : nests env c c
| nests_field (c d e : cid) (fld : field) :
    In fld (c_fields (env c)) ->
    f_type fld = TSingle (AModel d) ->
    nests env d e ->
    nests env c e.

(** [".".join(parts)] *)
Fixpoint join_dots (parts : list string) : string :=
  match parts with
  | [] => ""
  | p :: rest =>
      match rest with
      | [] => p
      | _ :: _ => p ++ "." ++ join_dots rest
      end
  end.

(** [_get_path(path)], the path given by the names of its nodes, root first *)
Definition _get_path (names : list string) : string :=
  join_dots (filter PyStr.initial_islower names).

Fixpoint has_dot (s : string) : bool :=
  match s with
  | EmptyString => false
  | String c rest => Ascii.eqb c PyStr.dot || has_dot rest
  end.

(** a name as identifiers are: not empty and without a dot *)
Definition plain_name (s : string) : bool :=
  negb (has_dot s) && negb (s =? "").

(** the attribute path that the walk holds after descending through the
    attributes [names], starting from [attr_path] *)
Definition descend (attr_path : string) (names : list string) : string :=
  fold_left child_path names attr_path.

(** the names on the tree path of a ClassNode, root first: the root class
    and, for every step down, the attribute followed and the class entered *)
Definition class_path (root : string) (steps : list (string * string))
  : list string :=
  root :: flat_map (fun s => [fst s; snd s]) steps.

(** the nodes at depth [k] below [n], left to right, each with the names of
    the nodes on its path *)
Fixpoint level (k : nat) (names : list string) (n : node)
  : list (list string * node) :=
  match k with
  | 0 => [(names ++ [node_name n], n)]
  | S k' => flat_map (level k' (names ++ [node_name n])) (node_children n)
  end.

Fixpoint height (n : node) : nat :=
  1 + (fix tallest (cs : list node) : nat :=
         match cs with [] => 0 | c :: cs' => Nat.max (height c) (tallest cs') end)
        (node_children n).

(** [LevelOrderIter(tree)], each node with the names on its path *)
Definition LevelOrderIter (tree : node) : list (list string * node) :=
  flat_map (fun k => level k [] tree) (seq 0 (height tree)).

Definition placeholder : yaml := YStr "Enter target".

(** [{n.name: "Enter target" for n in children}] *)
Definition attr_template (children : list node) : list (string * yaml) :=
  fold_left (fun d n => dict_set String.eqb (node_name n) placeholder d) children [].

(** [isinstance(n, AttributeNode) and not n.__dict__.get("outer_type")] *)
Definition unwrapped_attribute (n : node) : bool :=
  match n with
  | AttributeNode _ None _ _ => true
  | _ => false
  end.

(** the entry written for a ClassNode *)
Definition template_entry (simple : bool) (children : list node) : yaml :=
  if simple then YMap (attr_template children)
  else YList [YMap [("attribute", YStr "Name of the target to check for");
                    ("pattern", YStr ".*");
                    ("targets", YMap (attr_template children))]].

(** one turn of [for node in LevelOrderIter(...)] *)
Definition template_step (simple : bool) (template : list (string * yaml))
  (item : list string * node) : list (string * yaml) :=
  let path := _get_path (fst item) in
  if negb (is_attribute (snd item)) && negb (path =? "") then
    dict_set String.eqb path (template_entry simple (node_children (snd item))) template
  else template.

(** [generate_template(obj, out, simple)] up to the dictionary handed to
    [toml.dumps].  [obj.create_tree] is not in the sources: the tree it
    returns first is the parameter [tree], [obj_name] is [obj.__name__]. *)
Definition generate_template (tree : node) (obj_name : string) (simple : bool)
  : list (string * yaml) :=
  let header :=
    [("__model__", YStr obj_name);
     ("__sources__", YMap [("LibName", YStr "URL to the library")])] in
  let with_root :=
    dict_set String.eqb obj_name
      (YMap (attr_template (filter unwrapped_attribute (node_children tree))))
      header in
  fold_left (template_step simple) (LevelOrderIter tree) with_root.

(** the names of the nodes on the way from [n] to the position [pos], [n]
    first: [[x.name for x in node.path]] *)
Fixpoint path_names (n : node) (pos : position) : list string :=
  node_name n ::
  match pos with
  | [] => []
  | i :: pos' =>
      match nth_error (node_children n) i with
      | Some c => path_names c pos'
      | None => []
      end
  end.

(** [isinstance(y, list)] *)
Definition is_rule_list (y : yaml) : bool :=
  match y with YList _ => true | _ => false end.

(** * Properties *)

(** ** Dictionaries *)

Section DictFacts.
Variables (K V : Type) (keqb : K -> K -> bool).
Hypothesis keqb_spec : forall a b, keqb a b = true <-> a = b.

Lemma keqb_refl (k : K) : keqb k k = true.
Proof. now apply keqb_spec. Qed.

Lemma keqb_neq (a b : K) : a <> b -> keqb a b = false.
Proof.
  intros Hne. destruct (keqb a b) eqn:E; [|reflexivity].
  apply keqb_spec in E. contradiction.
Qed.

Lemma dict_get_set_same (k : K) (v : V) (d : dict K V) :
  dict_get keqb k (dict_set keqb k v d) = Some v.
Proof.
  induction d as [|[k' v'] d IH]; simpl.
  - now rewrite keqb_refl.
  - destruct (keqb k k') eqn:E; simpl; rewrite E; [reflexivity|exact IH].
Qed.

Lemma dict_get_set_other (k k' : K) (v : V) (d : dict K V) :
  k <> k' -> dict_get keqb k (dict_set keqb k' v d) = dict_get keqb k d.
Proof.
  intros Hne. induction d as [|[k0 v0] d IH]; simpl.
  - now rewrite keqb_neq.
  - destruct (keqb k' k0) eqn:E; simpl.
    + apply keqb_spec in E. subst k0. now rewrite keqb_neq.
    + destruct (keqb k k0); [reflexivity|exact IH].
Qed.

Lemma dict_set_set (k : K) (v w : V) (d : dict K V) :
  dict_set keqb k w (dict_set keqb k v d) = dict_set keqb k w d.
Proof.
  induction d as [|[k' v'] d IH]; simpl.
  - now rewrite keqb_refl.
  - destruct (keqb k k') eqn:E; simpl; rewrite E; [reflexivity|now rewrite IH].
Qed.

Lemma dict_mem_set (k k' : K) (v : V) (d : dict K V) :
  dict_mem keqb k d = true -> dict_mem keqb k (dict_set keqb k' v d) = true.
Proof.
  unfold dict_mem. intros H.
  destruct (keqb k k') eqn:E.
  - apply keqb_spec in E. subst k'. now rewrite dict_get_set_same.
  - rewrite dict_get_set_other; [exact H|].
    intros ->. now rewrite keqb_refl in E.
Qed.

Lemma dict_set_absent (k : K) (v : V) (d : dict K V) :
  dict_get keqb k d = None -> dict_set keqb k v d = d ++ [(k, v)].
Proof.
  induction d as [|[k' v'] d IH]; simpl; [reflexivity|].
  destruct (keqb k k'); [discriminate|].
  intros H. now rewrite IH.
Qed.

Lemma dict_get_app_absent (k : K) (d e : dict K V) :
  dict_get keqb k d = None -> dict_get keqb k (d ++ e) = dict_get keqb k e.
Proof.
  induction d as [|[k' v'] d IH]; simpl; [reflexivity|].
  destruct (keqb k k'); [discriminate|exact IH].
Qed.

(** [{**d, **e}]: the entries of [e] win *)
Lemma dict_update_get (d e : dict K V) (k : K) :
  dict_get keqb k (dict_update keqb d e) =
  match dict_get keqb k (rev e) with
  | Some v => Some v
  | None => dict_get keqb k d
  end.
Proof.
  unfold dict_update. revert d.
  induction e as [|[k' v'] e IH]; intros d; simpl; [reflexivity|].
  rewrite IH.
  destruct (dict_get keqb k (rev e)) eqn:E.
  - assert (Hget : forall l, dict_get keqb k (rev e ++ l) = Some v).
    { clear - E. induction (rev e) as [|[k0 v0] l0 IHl]; simpl in *; [discriminate|].
      intros l. destruct (keqb k k0); [exact E|now apply IHl]. }
    now rewrite Hget.
  - rewrite dict_get_app_absent by exact E. simpl.
    destruct (keqb k k') eqn:Ek.
    + apply keqb_spec in Ek. subst k'. apply dict_get_set_same.
    + apply dict_get_set_other. intros ->. now rewrite keqb_refl in Ek.
Qed.

Lemma dict_get_rev_none (k : K) (e : dict K V) :
  dict_get keqb k e = None <-> dict_get keqb k (rev e) = None.
Proof.
  assert (Hin : forall l : dict K V, dict_get keqb k l = None <->
                                     forall v : V, ~ In (k, v) l).
  { induction l as [|[k0 v0] l IHl]; simpl.
    - split; [intros _ v []|reflexivity].
    - destruct (keqb k k0) eqn:E.
      + apply keqb_spec in E. subst k0.
        split; [discriminate|]. intros H. exfalso. apply (H v0). now left.
      + rewrite IHl. split.
        * intros H v [Heq|Hv]; [|now apply (H v)].
          inversion Heq; subst. now rewrite keqb_refl in E.
        * intros H v Hv. apply (H v). now right. }
  rewrite !Hin. split; intros H v Hv; apply (H v).
  - now apply in_rev.
  - now apply in_rev in Hv.
Qed.

(** the keys of [e] all end up in [{**d, **e}] with a value from [e] *)
Lemma dict_update_mem (d e : dict K V) (k : K) :
  dict_mem keqb k e = true -> dict_mem keqb k (dict_update keqb d e) = true.
Proof.
  unfold dict_mem. rewrite dict_update_get. intros H.
  destruct (dict_get keqb k (rev e)) eqn:E; [reflexivity|].
  apply dict_get_rev_none in E. now rewrite E in H.
Qed.
End DictFacts.

Lemma idx_eqb_spec (a b : idx) : idx_eqb a b = true <-> a = b.
Proof.
  destruct a as [m|s], b as [n|t]; simpl.
  - rewrite Nat.eqb_eq. split; [now intros ->|now inversion 1].
  - split; discriminate.
  - split; discriminate.
  - rewrite String.eqb_eq. split; [now intros ->|now inversion 1].
Qed.

Lemma str_eqb_spec (a b : string) : String.eqb a b = true <-> a = b.
Proof. apply String.eqb_eq. Qed.

(** ** Guide trees: positions, search and update *)

Lemma node_children_ind (P : node -> Prop) :
  (forall n, Forall P (node_children n) -> P n) -> forall n, P n.
Proof.
  intros H. fix IH 1. intros n. apply H.
  destruct n as [name m o cs|name o vals cs]; simpl;
    induction cs as [|c cs IHcs]; constructor; solve [apply IH | exact IHcs].
Qed.

Lemma findall_from_unfold (chain path : list string) (n : node) :
  findall_from chain path n =
  (if _search_by_path path (extend_chain chain n) then [[]] else []) ++
  findall_children (extend_chain chain n) path 0 (node_children n).
Proof.
  assert (Hcs : forall cs i,
             (fix children_from (i : nat) (cs : list node) : list position :=
                match cs with
                | [] => []
                | c :: cs' =>
                    map (cons i) (findall_from (extend_chain chain n) path c) ++
                    children_from (S i) cs'
                end) i cs
             = findall_children (extend_chain chain n) path i cs).
  { induction cs as [|c cs IH]; intros i; simpl; [reflexivity|]. now rewrite IH. }
  destruct n; simpl; now rewrite Hcs.
Qed.

Lemma findall_children_in (chain path : list string) (cs : list node) :
  forall j pos,
    In pos (findall_children chain path j cs) ->
    exists i c pos',
      pos = (j + i) :: pos' /\ nth_error cs i = Some c /\
      In pos' (findall_from chain path c).
Proof.
  induction cs as [|c cs IH]; intros j pos Hin; simpl in Hin; [contradiction|].
  apply in_app_or in Hin. destruct Hin as [Hin|Hin].
  - apply in_map_iff in Hin. destruct Hin as [pos' [<- Hpos']].
    exists 0, c, pos'. rewrite Nat.add_0_r. repeat split; assumption.
  - apply IH in Hin. destruct Hin as [i [c' [pos' [-> [Hnth Hpos']]]]].
    exists (S i), c', pos'. repeat split; try assumption.
    f_equal. lia.
Qed.

(** every position that [findall] returns is a node of the tree *)
Lemma findall_from_valid (path : list string) (n : node) :
  forall chain pos, In pos (findall_from chain path n) ->
                    exists m, node_at n pos = Some m.
Proof.
  induction n as [n IH] using node_children_ind. intros chain pos Hin.
  rewrite findall_from_unfold in Hin. apply in_app_or in Hin.
  destruct Hin as [Hin|Hin].
  - destruct (_search_by_path path (extend_chain chain n)); [|contradiction].
    destruct Hin as [<-|[]]. now exists n.
  - apply findall_children_in in Hin.
    destruct Hin as [i [c [pos' [-> [Hnth Hpos']]]]]. simpl. rewrite Hnth.
    rewrite Forall_forall in IH.
    apply (IH c (nth_error_In _ _ Hnth) _ _ Hpos').
Qed.

Lemma node_children_with_children (n : node) (cs : list node) :
  node_children (with_children n cs) = cs.
Proof. now destruct n. Qed.

Lemma node_name_with_children (n : node) (cs : list node) :
  node_name (with_children n cs) = node_name n.
Proof. now destruct n. Qed.

Lemma nth_error_list_set_same {A} (l : list A) :
  forall i x y, nth_error l i = Some y -> nth_error (list_set i x l) i = Some x.
Proof.
  induction l as [|a l IH]; intros [|i] x y H; simpl in *; try discriminate.
  - reflexivity.
  - now apply IH with y.
Qed.

(** the update reaches the node at the position and leaves it there *)
Lemma update_at_node_at (f : node -> result node) (pos : position) :
  forall n m m',
    node_at n pos = Some m -> f m = Ok m' ->
    exists n', update_at f n pos = Ok n' /\ node_at n' pos = Some m'.
Proof.
  induction pos as [|i pos IH]; intros n m m' Hat Hf; simpl in *.
  - inversion Hat; subst. now exists m'.
  - destruct (nth_error (node_children n) i) as [c|] eqn:Hnth; [|discriminate].
    destruct (IH c m m' Hat Hf) as [c' [Hup Hat']].
    rewrite Hup. simpl. eexists. split; [reflexivity|].
    simpl. rewrite node_children_with_children.
    now rewrite (nth_error_list_set_same _ _ _ Hnth).
Qed.

Lemma update_at_raise (f : node -> result node) (pos : position) :
  forall n m e,
    node_at n pos = Some m -> f m = Raise e -> update_at f n pos = Raise e.
Proof.
  induction pos as [|i pos IH]; intros n m e Hat Hf; simpl in *.
  - now inversion Hat; subst.
  - destruct (nth_error (node_children n) i) as [c|]; [|discriminate].
    now rewrite (IH c m e Hat Hf).
Qed.

Lemma findall_children_list_set (path : list string) (c' : node) (cs : list node) :
  forall i c chain j,
    nth_error cs i = Some c ->
    (forall ch, findall_from ch path c' = findall_from ch path c) ->
    findall_children chain path j (list_set i c' cs) =
    findall_children chain path j cs.
Proof.
  induction cs as [|a cs IH]; intros [|i] c chain j Hnth Hsame; simpl in *;
    try discriminate.
  - inversion Hnth; subst. now rewrite Hsame.
  - now rewrite (IH i c chain (S j) Hnth Hsame).
Qed.

(** an update that keeps names and children keeps every search result *)
Lemma update_at_findall (f : node -> result node) (path : list string) :
  (forall m m', f m = Ok m' ->
                node_name m' = node_name m /\ node_children m' = node_children m) ->
  forall pos n n',
    update_at f n pos = Ok n' ->
    forall chain, findall_from chain path n' = findall_from chain path n.
Proof.
  intros Hf. induction pos as [|i pos IH]; intros n n' Hup chain; simpl in Hup.
  - destruct (Hf _ _ Hup) as [Hname Hcs].
    rewrite !findall_from_unfold. unfold extend_chain. now rewrite Hname, Hcs.
  - destruct (nth_error (node_children n) i) as [c|] eqn:Hnth; [|discriminate].
    destruct (update_at f c pos) as [c'|e] eqn:Hc; simpl in Hup; [|discriminate].
    inversion Hup; subst n'. clear Hup.
    rewrite !findall_from_unfold. unfold extend_chain.
    rewrite node_name_with_children, node_children_with_children.
    f_equal. apply findall_children_list_set with c; [exact Hnth|].
    intros ch. now apply IH.
Qed.

Lemma set_value_shape (index : idx) (v : value) (m m' : node) :
  set_value index v m = Ok m' ->
  node_name m' = node_name m /\ node_children m' = node_children m.
Proof. destruct m; simpl; [discriminate|]. intros H. inversion H. now split. Qed.

(** the write into the first match, when that match is an AttributeNode *)
Lemma assign_first_match (path : list string) (root : node) (v : value) (index : idx)
  (pos : position) (rest : list position)
  (name : string) (o : Datatypes.option pytype) (vals : list (idx * value))
  (cs : list node) :
  findall root path = pos :: rest ->
  node_at root pos = Some (AttributeNode name o vals cs) ->
  exists root',
    _assign_primitive_data_to_node path root v index = Ok root' /\
    node_at root' pos = Some (AttributeNode name o (dict_set idx_eqb index v vals) cs) /\
    findall root' path = findall root path.
Proof.
  intros Hfind Hat. unfold _assign_primitive_data_to_node. rewrite Hfind.
  destruct (update_at_node_at (set_value index v) pos root Hat eq_refl)
    as [root' [Hup Hat']].
  exists root'. repeat split; try assumption.
  rewrite <- Hfind. unfold findall. eapply update_at_findall; [|exact Hup].
  intros m m'. apply set_value_shape.
Qed.

(** ** The write into a target node (claim C2) *)

(** C2, as stated, fails: two AttributeNodes of the guide tree of [Holder]
    carry the chain [x.name] (one under each alternative of the union), and
    the write is accepted and goes to the first of them. *)
Lemma C2_counterexample :
  findall Demo.holder_tree ["x"; "name"] = [[0; 0; 0]; [0; 1; 0]] /\
  _assign_primitive_data_to_node ["x"; "name"] Demo.holder_tree (Demo.int 1) (IInt 0)
  = Ok (ClassNode "Holder" "libA" None
          [AttributeNode "x" None []
             [ClassNode "Alpha" "libA" None
                [AttributeNode "name" None [(IInt 0, Demo.int 1)] []];
              ClassNode "Beta" "libA" None [AttributeNode "name" None [] []]]]).
Proof. split; reflexivity. Qed.

(** C2 (amended): [_assign_primitive_data_to_node] raises IndexError exactly
    when no node carries the decomposed path; when at least one node does,
    the first one in pre-order is taken without any check on the number of
    matches, and if it is an AttributeNode the value is stored at the write
    key, overwriting any prior entry at that key. *)
Theorem C2_assign_first_match_or_index_error
  (path : list string) (root : node) (v : value) (index : idx) :
  (_assign_primitive_data_to_node path root v index = Raise IndexError <->
   findall root path = []) /\
  (forall pos rest name o vals cs,
      findall root path = pos :: rest ->
      node_at root pos = Some (AttributeNode name o vals cs) ->
      exists root',
        _assign_primitive_data_to_node path root v index = Ok root' /\
        node_at root' pos =
          Some (AttributeNode name o (dict_set idx_eqb index v vals) cs) /\
        dict_get idx_eqb index (dict_set idx_eqb index v vals) = Some v).
Proof.
  split.
  - split.
    + intros Hraise. destruct (findall root path) as [|pos rest] eqn:Hfind;
        [reflexivity|exfalso].
      assert (Hin : In pos (findall_from [] path root))
        by (unfold findall in Hfind; rewrite Hfind; now left).
      destruct (findall_from_valid _ _ _ _ Hin) as [m Hat].
      unfold _assign_primitive_data_to_node in Hraise. rewrite Hfind in Hraise.
      destruct (set_value index v m) as [m'|e] eqn:Hset.
      * destruct (update_at_node_at _ _ _ Hat Hset) as [root' [Hup _]].
        rewrite Hup in Hraise. discriminate.
      * rewrite (update_at_raise _ _ _ Hat Hset) in Hraise.
        destruct m; simpl in Hset; inversion Hset; subst. discriminate.
    + intros Hfind. unfold _assign_primitive_data_to_node. now rewrite Hfind.
  - intros pos rest name o vals cs Hfind Hat.
    destruct (@assign_first_match path root v index _ _ _ _ _ _ Hfind Hat)
      as [root' [Hok [Hat' _]]].
    exists root'. repeat split; try assumption.
    apply dict_get_set_same, idx_eqb_spec.
Qed.

Lemma C2_witness :
  exists root',
    _assign_primitive_data_to_node ["temp"] Demo.sample_tree (Demo.int 7) (IInt 0)
    = Ok root' /\
    node_at root' [0] = Some (AttributeNode "temp" None [(IInt 0, Demo.int 7)] []) /\
    dict_get idx_eqb (IInt 0) [(IInt 0, Demo.int 7)] = Some (Demo.int 7).
Proof.
  exact (proj2 (C2_assign_first_match_or_index_error
                  ["temp"] Demo.sample_tree (Demo.int 7) (IInt 0))
           [0] [] "temp" None [] [] eq_refl eq_refl).
Defined.

(** ** Resolution of the active targets (claims C3 and C6) *)

Section Targets.
Variable env : cid -> class_decl.
Variable re_match : string -> string -> result bool.
Variable py_str : value -> string.

(** C3: a template entry that is a non-empty flat attribute-to-target-path
    map is not used as the active targets: the loop over the entry yields
    its keys, and subscripting a key with ["attribute"] raises TypeError. *)
Theorem C3_flat_map_raises_TypeError
  (obj : value) (path : string) (template : yaml) (k : string) (v : yaml)
  (more : list (string * yaml)) :
  Yaml.get template path = Ok (Some (YMap ((k, v) :: more))) ->
  _check_matching_target env re_match py_str obj path template = Raise TypeError.
Proof.
  intros Hget. unfold _check_matching_target. now rewrite Hget.
Qed.


End Targets.

Lemma C3_witness :
  _check_matching_target Demo.env Demo.re_match Demo.py_str Demo.glass_sample "sample"
    Demo.flat_template
  = Raise TypeError /\
  fst (_convert_tree Demo.env Demo.re_match Demo.py_str 5 "A" Demo.flat_template
         Demo.wrapper 0 "" Yaml.empty [("Sample", Demo.sample_tree)])
  = [("Sample", Demo.sample_tree)].
Proof.
  split; [|reflexivity].
  exact (@C3_flat_map_raises_TypeError Demo.env Demo.re_match Demo.py_str
           Demo.glass_sample "sample" Demo.flat_template
           "temp" (YStr "libA.Sample.temp") [] eq_refl).
Defined.


(** ** The walk over the attributes (claims C1 and C7) *)

Section WalkFacts.
Variable env : cid -> class_decl.
Variable re_match : string -> string -> result bool.
Variable py_str : value -> string.
Variables (option : string) (template : yaml).
Variable rec : value -> nat -> string -> yaml -> st unit.

Let fields_loop := convert_fields env re_match py_str option template rec.

(** the last branch of the loop body, for a value that reaches it *)
Lemma convert_fields_leaf (obj : value) (obj_index : nat) (attr_path : string)
  (fld : field) (rest : list field) (target : yaml) (v : value) (roots : roots_t) :
  getattr obj (f_name fld) = Ok v ->
  negb (is_list v) && type_has_fields (f_type fld) = false ->
  is_leaf_value v = true ->
  fields_loop obj obj_index attr_path (fld :: rest) target roots =
  (continue <- assign_leaf option fld v obj_index attr_path target ;;
   if continue then fields_loop obj obj_index attr_path rest target
   else sret tt) roots.
Proof.
  intros Hget HA HB. unfold fields_loop. simpl. unfold sbind at 1, lift at 1.
  rewrite Hget, HA. unfold is_leaf_value in HB.
  apply negb_true_iff in HB. now rewrite HB.
Qed.

(** an attribute without template target and without annotation ends the
    walk of its instance: nothing after it is visited *)
Lemma unmapped_leaf_returns (obj : value) (obj_index : nat) (attr_path : string)
  (fld : field) (rest : list field) (target : yaml) (v : value) (roots : roots_t) :
  getattr obj (f_name fld) = Ok v ->
  negb (is_list v) && type_has_fields (f_type fld) = false ->
  is_leaf_value v = true ->
  Yaml.contains (f_name fld) target = false ->
  dict_get String.eqb option (f_extra fld) = None ->
  fields_loop obj obj_index attr_path (fld :: rest) target roots = (roots, Ok tt).
Proof.
  intros Hget HA HB Hc Hann. rewrite (@convert_fields_leaf obj obj_index attr_path fld rest target v roots
             Hget HA HB).
  unfold sbind, assign_leaf. now rewrite Hc, Hann.
Qed.

End WalkFacts.

(** C1: [note] has neither a template target nor an annotation and is
    declared before the annotated [temperature]: the walk ends at [note] and
    [temperature] is never written.  With the two declared in the other
    order the value of [temperature] reaches [Sample.temp]. *)
Theorem C1_unmapped_attribute_ends_walk :
  _convert_tree Demo.env Demo.re_match Demo.py_str 5 "A" Yaml.empty
    Demo.measurement 0 "" Yaml.empty [("Sample", Demo.sample_tree)]
  = ([("Sample", Demo.sample_tree)], Ok tt) /\
  _convert_tree Demo.env Demo.re_match Demo.py_str 5 "A" Yaml.empty
    Demo.measurement_swapped 0 "" Yaml.empty [("Sample", Demo.sample_tree)]
  = ([("Sample",
       ClassNode "Sample" "libA" None
         [AttributeNode "temp" None [(IStr ".0", Demo.int 25)] [];
          AttributeNode "kind" None [] []])],
     Ok tt).
Proof. split; reflexivity. Qed.


(** ** Loading the template (claim C5) *)

(** C5, as stated, fails: a template path whose file does not exist makes
    [convert_data_model] raise. *)
Lemma C5_counterexample :
  convert_data_model Demo.env Demo.re_match Demo.py_str Demo.resolve Demo.no_files
    (fun tree : node => tree) 5 Demo.measurement "A" (Some "links.yaml") []
  = ([], Raise (FileNotFoundError "links.yaml")).
Proof. reflexivity. Qed.

Section Loading.
Variable env : cid -> class_decl.
Variable re_match : string -> string -> result bool.
Variable py_str : value -> string.
Variable resolve : string -> string -> result cid.
Variable fs : string -> Datatypes.option yaml.
Variable built : Type.
Variable build : node -> built.

(** C5 (amended): without a template path, that is with [None] or with the
    empty string, [convert_data_model] runs with the empty template, which
    yields no root of its own, so that only the annotations are used; with
    the path of a missing file it raises FileNotFoundError before anything
    is discovered or converted. *)
Theorem C5_template_loading
  (fuel : nat) (obj : value) (option : string) (shared : roots_t) :
  (forall path,
      path = None \/ path = Some ""%string ->
      convert_data_model env re_match py_str resolve fs build fuel obj option path shared
      = convert_loaded env re_match py_str resolve build fuel Yaml.empty obj option
          shared)
  /\
  _extract_roots_from_template env resolve (S fuel) Yaml.empty = Ok []
  /\
  (forall p,
      p <> ""%string -> fs p = None ->
      convert_data_model env re_match py_str resolve fs build fuel obj option
        (Some p) shared
      = (shared, Raise (FileNotFoundError p))).
Proof.
  repeat split.
  - intros path [->| ->]; reflexivity.
  - intros p Hp Hfs. unfold convert_data_model, load_template.
    apply String.eqb_neq in Hp. now rewrite Hp, Hfs.
Qed.
End Loading.

Lemma C5_witness :
  convert_data_model Demo.env Demo.re_match Demo.py_str Demo.resolve Demo.no_files
    (fun tree : node => tree) 5 Demo.measurement "A" (Some "") []
  = convert_loaded Demo.env Demo.re_match Demo.py_str Demo.resolve
      (fun tree : node => tree) 5 Yaml.empty Demo.measurement "A" []
  /\
  convert_data_model Demo.env Demo.re_match Demo.py_str Demo.resolve Demo.no_files
    (fun tree : node => tree) 5 Demo.measurement "A" (Some "links.yaml") []
  = ([], Raise (FileNotFoundError "links.yaml")).
Proof.
  split.
  - exact (proj1 (@C5_template_loading Demo.env Demo.re_match Demo.py_str
                    Demo.resolve Demo.no_files node (fun tree => tree)
                    5 Demo.measurement "A" [])
             (Some ""%string) (or_intror eq_refl)).
  - refine (proj2 (proj2 (@C5_template_loading Demo.env Demo.re_match Demo.py_str
                            Demo.resolve Demo.no_files node (fun tree => tree)
                            5 Demo.measurement "A" []))
              "links.yaml" _ eq_refl).
    discriminate.
Defined.

(** ** The guide tree builder (claim C9) *)

Lemma count_attribute_unfold (n : node) :
  count_attribute n =
  (if is_attribute n then 1 else 0) + sum_over count_attribute (node_children n).
Proof.
  assert (Hcs : forall cs,
             (fix go (cs : list node) : nat :=
                match cs with [] => 0 | c :: cs' => count_attribute c + go cs' end) cs
             = sum_over count_attribute cs).
  { induction cs as [|c cs IH]; simpl; [reflexivity|now rewrite IH]. }
  destruct n; simpl; now rewrite Hcs.
Qed.

Lemma count_class_unfold (n : node) :
  count_class n =
  (if is_attribute n then 0 else 1) + sum_over count_class (node_children n).
Proof.
  assert (Hcs : forall cs,
             (fix go (cs : list node) : nat :=
                match cs with [] => 0 | c :: cs' => count_class c + go cs' end) cs
             = sum_over count_class cs).
  { induction cs as [|c cs IH]; simpl; [reflexivity|now rewrite IH]. }
  destruct n; simpl; now rewrite Hcs.
Qed.

Lemma count_nodes_unfold (n : node) :
  count_nodes n = 1 + sum_over count_nodes (node_children n).
Proof.
  assert (Hcs : forall cs,
             (fix go (cs : list node) : nat :=
                match cs with [] => 0 | c :: cs' => count_nodes c + go cs' end) cs
             = sum_over count_nodes cs).
  { induction cs as [|c cs IH]; simpl; [reflexivity|now rewrite IH]. }
  destruct n; simpl; now rewrite Hcs.
Qed.

Lemma sum_over_cons {A} (f : A -> nat) (a : A) (l : list A) :
  sum_over f (a :: l) = f a + sum_over f l.
Proof. reflexivity. Qed.

(** every node is a ClassNode or an AttributeNode *)
Lemma count_nodes_split (n : node) :
  count_nodes n = count_attribute n + count_class n.
Proof.
  induction n as [n IH] using node_children_ind.
  rewrite count_nodes_unfold, count_attribute_unfold, count_class_unfold.
  assert (Hsum : sum_over count_nodes (node_children n) =
                 sum_over count_attribute (node_children n) +
                 sum_over count_class (node_children n)).
  { induction IH as [|c cs Hc _ IHcs]; simpl; [reflexivity|]. rewrite Hc, IHcs. lia. }
  rewrite Hsum. destruct (is_attribute n); lia.
Qed.

(** C9, as stated, fails: the guide tree of [Point], a schema type with one
    primitive field and nothing nested, has two nodes (the ClassNode and the
    AttributeNode), one more than the number of its fields. *)
Lemma C9_counterexample :
  exists tree,
    build_guide_tree Demo.env 2 Demo.Point None = Ok tree /\
    count_nodes tree = 2 /\
    reachable_fields Demo.env 2 Demo.Point = 1.
Proof. eexists. repeat split. Qed.

Section Builder.
Variable env : cid -> class_decl.

(** the recursive call is made for entered alternatives only *)
Lemma build_alternatives_ext (rec rec' : cid -> Datatypes.option pytype -> result node)
  (name : string) (o : Datatypes.option pytype) (alts : list alt) :
  (forall a d, In a alts -> entered env name a = Some d -> rec d o = rec' d o) ->
  build_alternatives env rec name o alts = build_alternatives env rec' name o alts.
Proof.
  induction alts as [|[|d] alts IH]; intros Hsame; simpl; [reflexivity| |].
  - apply IH. intros a d Hin. apply Hsame. now right.
  - assert (Hrest : build_alternatives env rec name o alts =
                    build_alternatives env rec' name o alts).
    { apply IH. intros a d' Hin. apply Hsame. now right. }
    destruct (negb (c_name (env d) =? name)) eqn:E; [|exact Hrest].
    rewrite (Hsame (AModel d) d); [now rewrite Hrest|now left|].
    simpl. now rewrite E.
Qed.

Section Counting.
Variables (rec : cid -> Datatypes.option pytype -> result node) (name : string).
(** what a tree built by [rec] for a class holds *)
Variables attrs_of classes_of : cid -> nat.

Let counted (d : cid) : Prop :=
  forall o, exists t, rec d o = Ok t /\
                      count_attribute t = attrs_of d /\ count_class t = classes_of d.

Lemma build_alternatives_counts (o : Datatypes.option pytype) (alts : list alt) :
  (forall a d, In a alts -> entered env name a = Some d -> counted d) ->
  exists subs,
    build_alternatives env rec name o alts = Ok subs /\
    sum_over count_attribute subs =
      sum_over (fun a => match entered env name a with
                         | Some d => attrs_of d | None => 0 end) alts /\
    sum_over count_class subs =
      sum_over (fun a => match entered env name a with
                         | Some d => classes_of d | None => 0 end) alts.
Proof.
  induction alts as [|a alts IH]; intros Hrec; simpl.
  - exists []. repeat split.
  - destruct IH as [subs [Hsubs [Hattr Hcls]]].
    { intros a' d Hin. apply Hrec. now right. }
    destruct a as [|d]; simpl.
    + exists subs. repeat split; assumption.
    + destruct (negb (c_name (env d) =? name)) eqn:E.
      * destruct (Hrec (AModel d) d (or_introl eq_refl)) with (o := o)
          as [t [Ht [Hta Htc]]]; [simpl; now rewrite E|].
        rewrite Ht, Hsubs. simpl. exists (t :: subs). simpl.
        repeat split; congruence.
      * exists subs. repeat split; assumption.
Qed.

Lemma build_fields_counts (fields : list field) :
  (forall fld, In fld fields -> exists s, seed_value (f_origin fld) = Ok s) ->
  (forall fld a d, In fld fields -> In a (alternatives (f_type fld)) ->
                   entered env name a = Some d -> counted d) ->
  exists nodes,
    build_fields env rec name fields = Ok nodes /\
    sum_over count_attribute nodes =
      sum_over (fun fld =>
                  1 + sum_over (fun a => match entered env name a with
                                         | Some d => attrs_of d | None => 0 end)
                        (alternatives (f_type fld))) fields /\
    sum_over count_class nodes =
      sum_over (fun fld =>
                  sum_over (fun a => match entered env name a with
                                     | Some d => classes_of d | None => 0 end)
                    (alternatives (f_type fld))) fields.
Proof.
  induction fields as [|fld fields IH]; intros Hseed Hrec; simpl.
  - exists []. repeat split.
  - destruct IH as [nodes [Hnodes [Hattr Hcls]]].
    { intros f Hin. apply Hseed. now right. }
    { intros f a d Hin. apply Hrec. now right. }
    destruct (Hseed fld (or_introl eq_refl)) as [s Hs]. rewrite Hs. simpl.
    destruct (@build_alternatives_counts (f_origin fld) (alternatives (f_type fld)))
      as [subs [Hsubs [Hsa Hsc]]].
    { intros a d Ha. apply (Hrec fld a d); [now left|exact Ha]. }
    rewrite Hsubs, Hnodes. simpl rbind. eexists. split; [reflexivity|].
    rewrite !sum_over_cons, count_attribute_unfold, count_class_unfold.
    cbn [is_attribute node_children].
    rewrite Hsa, Hsc, Hattr, Hcls. split; reflexivity.
Qed.
End Counting.

(** a schema type without deep self-reference: among the types that the
    builder enters on the way from [root], every type entered is ranked
    below the type that declares it *)
Variable root : cid.
Variable rank : cid -> nat.
Hypothesis rank_decreases :
  forall d fld a e,
    builds_into env root d ->
    In fld (c_fields (env d)) -> In a (alternatives (f_type fld)) ->
    entered env (c_name (env d)) a = Some e -> rank e < rank d.

(** the builder within the recursion limit: the tree and what it holds, when
    the containers of the fields met are among [DEFAULT_MAPPINGS] *)
Lemma build_guide_tree_counts :
  (forall d fld, builds_into env root d -> In fld (c_fields (env d)) ->
                 exists s, seed_value (f_origin fld) = Ok s) ->
  forall (fuel : nat) (d : cid) (outer : Datatypes.option pytype),
    builds_into env root d -> rank d < fuel ->
    exists tree,
      build_guide_tree env fuel d outer = Ok tree /\
      count_attribute tree = reachable_fields env fuel d /\
      count_class tree = reachable_classes env fuel d /\
      count_nodes tree = reachable_fields env fuel d + reachable_classes env fuel d.
Proof.
  intros containers_known.
  induction fuel as [|fuel IH]; intros d outer Hd Hrank; [lia|].
  simpl build_guide_tree.
  destruct (@build_fields_counts (build_guide_tree env fuel) (c_name (env d))
              (reachable_fields env fuel) (reachable_classes env fuel)
              (c_fields (env d)))
    as [nodes [Hnodes [Hattr Hcls]]].
  - intros fld Hfld. exact (containers_known d fld Hd Hfld).
  - intros fld a e Hfld Ha Hent o.
    assert (He : rank e < fuel)
      by (pose proof (@rank_decreases d fld a e Hd Hfld Ha Hent); lia).
    destruct (IH e o (@builds_nested env root d e fld a Hd Hfld Ha Hent) He) as [t [Ht [Hta [Htc _]]]].
    now exists t.
  - rewrite Hnodes. simpl rbind. eexists. split; [reflexivity|].
    assert (Ha : count_attribute
                   (ClassNode (c_name (env d)) (c_module (env d)) outer nodes)
                 = reachable_fields env (S fuel) d).
    { rewrite count_attribute_unfold. cbn [is_attribute node_children].
      now rewrite Hattr. }
    assert (Hc : count_class
                   (ClassNode (c_name (env d)) (c_module (env d)) outer nodes)
                 = reachable_classes env (S fuel) d).
    { rewrite count_class_unfold. cbn [is_attribute node_children].
      now rewrite Hcls. }
    rewrite count_nodes_split, Ha, Hc. repeat split.
Qed.

Lemma raise_within_limit {A B} (e : pyerr) :
  @Raise A e <> Raise RecursionError -> @Raise B e <> Raise RecursionError.
Proof. intros H Heq. apply H. now inversion Heq. Qed.

Lemma build_alternatives_within_limit
  (rec : cid -> Datatypes.option pytype -> result node) (name : string)
  (o : Datatypes.option pytype) (alts : list alt) :
  (forall a d, In a alts -> entered env name a = Some d ->
               rec d o <> Raise RecursionError) ->
  build_alternatives env rec name o alts <> Raise RecursionError.
Proof.
  induction alts as [|[|d] alts IH]; intros Hrec; simpl; [discriminate| |].
  - apply IH. intros a d Hin. apply Hrec. now right.
  - assert (Hrest : build_alternatives env rec name o alts <> Raise RecursionError).
    { apply IH. intros a d' Hin. apply Hrec. now right. }
    destruct (negb (c_name (env d) =? name)) eqn:E; [|exact Hrest].
    assert (Hd : rec d o <> Raise RecursionError).
    { apply (Hrec (AModel d) d); [now left|]. simpl. now rewrite E. }
    destruct (rec d o) as [t|e]; simpl; [|exact (raise_within_limit Hd)].
    destruct (build_alternatives env rec name o alts) as [subs|e]; simpl;
      [discriminate|exact Hrest].
Qed.

Lemma build_fields_within_limit
  (rec : cid -> Datatypes.option pytype -> result node) (name : string)
  (fields : list field) :
  (forall fld a d o, In fld fields -> In a (alternatives (f_type fld)) ->
                     entered env name a = Some d ->
                     rec d o <> Raise RecursionError) ->
  build_fields env rec name fields <> Raise RecursionError.
Proof.
  induction fields as [|fld fields IH]; intros Hrec; simpl; [discriminate|].
  assert (Hseed : seed_value (f_origin fld) <> Raise RecursionError).
  { unfold seed_value, DEFAULT_MAPPINGS. destruct (f_origin fld) as [t|];
      [|discriminate].
    destruct (t_module t =? "builtins"); [|discriminate].
    destruct (t_name t =? "list"); [discriminate|].
    destruct (t_name t =? "dict"); discriminate. }
  destruct (seed_value (f_origin fld)) as [s|e]; simpl;
    [|exact (raise_within_limit Hseed)].
  assert (Halts : build_alternatives env rec name (f_origin fld)
                    (alternatives (f_type fld)) <> Raise RecursionError).
  { apply build_alternatives_within_limit. intros a d Ha.
    apply (Hrec fld a d); [now left|exact Ha]. }
  destruct (build_alternatives env rec name (f_origin fld)
              (alternatives (f_type fld))) as [subs|e]; simpl; [|exact Halts].
  assert (Hrest : build_fields env rec name fields <> Raise RecursionError).
  { apply IH. intros f a d o Hin. apply Hrec. now right. }
  destruct (build_fields env rec name fields) as [nodes|e]; simpl;
    [discriminate|exact Hrest].
Qed.

(** the recursion of the builder ends within the limit, whatever the
    containers are *)
Lemma build_guide_tree_within_limit (fuel : nat) :
  forall (d : cid) (outer : Datatypes.option pytype),
    builds_into env root d -> rank d < fuel ->
    build_guide_tree env fuel d outer <> Raise RecursionError.
Proof.
  induction fuel as [|fuel IH]; intros d outer Hd Hrank; [lia|].
  simpl build_guide_tree.
  assert (Hfields : build_fields env (build_guide_tree env fuel) (c_name (env d))
                      (c_fields (env d)) <> Raise RecursionError).
  { apply build_fields_within_limit. intros fld a e o Hfld Ha Hent.
    apply IH; [exact (@builds_nested env root d e fld a Hd Hfld Ha Hent)|].
    pose proof (@rank_decreases d fld a e Hd Hfld Ha Hent). lia. }
  destruct (build_fields env (build_guide_tree env fuel) (c_name (env d))
              (c_fields (env d))) as [nodes|e]; simpl;
    [discriminate|exact (raise_within_limit Hfields)].
Qed.

(** C9 (amended): for a schema type without deep self-reference, that is one
    whose nesting, followed the way the builder follows it, is ranked (no
    condition is put on schema types that the builder does not enter from
    it), the recursion of [build_guide_tree] ends as soon as the recursion
    limit exceeds the rank of the type: a recursive call is made only for an
    alternative that is a schema type whose name differs from the name of the
    current ClassNode.  It returns the tree whenever the containers of the
    fields it meets are among [DEFAULT_MAPPINGS]; the tree has one
    AttributeNode per declared field plus per field of every nested schema
    entered, and one ClassNode per schema type entered (the root included),
    so that its node count is the sum of the two and exceeds the number of
    fields. *)
Theorem C9_build_guide_tree_terminates
  (fuel : nat) (outer : Datatypes.option pytype) :
  rank root < fuel ->
  build_guide_tree env fuel root outer <> Raise RecursionError /\
  ((forall d fld, builds_into env root d -> In fld (c_fields (env d)) ->
                  exists s, seed_value (f_origin fld) = Ok s) ->
   exists tree,
     build_guide_tree env fuel root outer = Ok tree /\
     count_attribute tree = reachable_fields env fuel root /\
     count_class tree = reachable_classes env fuel root /\
     count_nodes tree
     = reachable_fields env fuel root + reachable_classes env fuel root) /\
  (forall rec rec' o alts,
      (forall a d, In a alts -> entered env (c_name (env root)) a = Some d ->
                   rec d o = rec' d o) ->
      build_alternatives env rec (c_name (env root)) o alts =
      build_alternatives env rec' (c_name (env root)) o alts).
Proof.
  intros Hrank. split; [|split].
  - apply build_guide_tree_within_limit; [constructor|exact Hrank].
  - intros Hknown. apply build_guide_tree_counts; [exact Hknown|constructor|exact Hrank].
  - intros rec rec' o alts. apply build_alternatives_ext.
Qed.
End Builder.

(** from [Grid] the builder enters [Row] and [Point] and nothing else, also
    beside a pair of types that nest each other *)
Lemma grid_builds_into (d : cid) :
  builds_into Demo.env_ping_pong Demo.Grid d ->
  d = Demo.Grid \/ d = Demo.Row \/ d = Demo.Point.
Proof.
  induction 1 as [|d e fld a Hd IH Hfld Ha Hent]; [now left|].
  destruct IH as [->|[->| ->]]; simpl in Hfld;
    destruct Hfld as [<-|[]]; simpl in Ha; destruct Ha as [<-|[]];
    vm_compute in Hent; inversion Hent; auto.
Defined.

Lemma grid_rank_decreases :
  forall d fld a e,
    builds_into Demo.env_ping_pong Demo.Grid d ->
    In fld (c_fields (Demo.env_ping_pong d)) -> In a (alternatives (f_type fld)) ->
    entered Demo.env_ping_pong (c_name (Demo.env_ping_pong d)) a = Some e ->
    Demo.rank e < Demo.rank d.
Proof.
  intros d fld a e Hd Hfld Ha Hent.
  destruct (grid_builds_into Hd) as [->|[->| ->]]; simpl in Hfld;
    destruct Hfld as [<-|[]]; simpl in Ha; destruct Ha as [<-|[]];
    vm_compute in Hent; inversion Hent; subst; simpl; lia.
Defined.

Lemma grid_containers_known :
  forall d fld,
    builds_into Demo.env_ping_pong Demo.Grid d ->
    In fld (c_fields (Demo.env_ping_pong d)) ->
    exists s, seed_value (f_origin fld) = Ok s.
Proof.
  intros d fld Hd Hfld.
  destruct (grid_builds_into Hd) as [->|[->| ->]]; simpl in Hfld;
    destruct Hfld as [<-|[]]; eexists; reflexivity.
Defined.

(** the tree of [Grid] is built although [Ping] and [Pong], which it does
    not enter, nest each other *)
Lemma C9_witness :
  build_guide_tree Demo.env_ping_pong 3 Demo.Grid None <> Raise RecursionError /\
  exists tree,
    build_guide_tree Demo.env_ping_pong 3 Demo.Grid None = Ok tree /\
    count_attribute tree = reachable_fields Demo.env_ping_pong 3 Demo.Grid /\
    count_class tree = reachable_classes Demo.env_ping_pong 3 Demo.Grid /\
    count_nodes tree =
      reachable_fields Demo.env_ping_pong 3 Demo.Grid
      + reachable_classes Demo.env_ping_pong 3 Demo.Grid.
Proof.
  assert (Hrank : Demo.rank Demo.Grid < 3) by (simpl; lia).
  pose proof (@C9_build_guide_tree_terminates Demo.env_ping_pong Demo.Grid Demo.rank
                grid_rank_decreases 3 None Hrank) as [Hlimit [Htree _]].
  split; [exact Hlimit|exact (Htree grid_containers_known)].
Defined.

(** ** Roots named by the template (claim C4) *)

Section DictMembers.
Variables (K V : Type) (keqb : K -> K -> bool).
Hypothesis keqb_spec : forall a b, keqb a b = true <-> a = b.

Lemma dict_get_in (k : K) (v : V) (d : dict K V) :
  dict_get keqb k d = Some v -> In (k, v) d.
Proof.
  induction d as [|[k' v'] d IH]; simpl; [discriminate|].
  destruct (keqb k k') eqn:E.
  - apply keqb_spec in E. subst k'. intros H. inversion H. now left.
  - intros H. right. now apply IH.
Qed.

Lemma dict_set_in (k k' : K) (v v' : V) (d : dict K V) :
  In (k, v) (dict_set keqb k' v' d) -> (k, v) = (k', v') \/ In (k, v) d.
Proof.
  induction d as [|[k0 v0] d IH]; simpl.
  - intros [H|[]]. now left.
  - destruct (keqb k' k0) eqn:E; simpl.
    + apply keqb_spec in E. subst k0. intros [H|H]; [now left|right; now right].
    + intros [H|H]; [right; now left|].
      destruct (IH H) as [Heq|Hin]; [now left|right; now right].
Qed.

Lemma dict_update_in (x : K * V) (e : dict K V) :
  forall d, In x (dict_update keqb d e) -> In x d \/ In x e.
Proof.
  unfold dict_update. induction e as [|[k v] e IH]; intros d; simpl; [now left|].
  intros H. destruct (IH _ H) as [Hd|He]; [|right; now right].
  destruct x as [kx vx]. destruct (dict_set_in _ _ _ _ _ Hd) as [Heq|Hin].
  - right. left. now symmetry.
  - now left.
Qed.

Lemma dict_update_mem_left (k : K) (e : dict K V) :
  forall d, dict_mem keqb k d = true -> dict_mem keqb k (dict_update keqb d e) = true.
Proof.
  unfold dict_update. induction e as [|[k' v'] e IH]; intros d H; simpl; [exact H|].
  apply IH. now apply dict_mem_set.
Qed.

Lemma dict_mem_get (k : K) (d : dict K V) :
  dict_mem keqb k d = true <-> exists v, dict_get keqb k d = Some v.
Proof.
  unfold dict_mem. destruct (dict_get keqb k d) as [v|].
  - split; [now exists v|reflexivity].
  - split; [discriminate|]. intros [v H]. discriminate.
Qed.
End DictMembers.

Section TemplateRoots.
Variable env : cid -> class_decl.
Variable resolve : string -> string -> result cid.

Let all_built (roots : roots_t) : Prop :=
  forall root tree, In (root, tree) roots -> guide_tree_of env resolve root tree.

Let keeps (roots roots' : roots_t) : Prop :=
  forall k, dict_mem String.eqb k roots = true -> dict_mem String.eqb k roots' = true.

Let covers (paths : list yaml) (roots : roots_t) : Prop :=
  forall t, In t paths -> exists tp, t = YStr tp /\ root_present tp roots.

Lemma root_present_keeps (tp : string) (roots roots' : roots_t) :
  keeps roots roots' -> root_present tp roots -> root_present tp roots'.
Proof.
  intros Hk [lib [root [tree [Hun Hget]]]].
  assert (Hmem : dict_mem String.eqb root roots' = true).
  { apply Hk. apply dict_mem_get. now exists tree. }
  apply dict_mem_get in Hmem. destruct Hmem as [tree' Hget'].
  now exists lib, root, tree'.
Qed.

Lemma covers_keeps (paths : list yaml) (roots roots' : roots_t) :
  keeps roots roots' -> covers paths roots -> covers paths roots'.
Proof.
  intros Hk Hc t Hin. destruct (Hc t Hin) as [tp [-> Hp]].
  exists tp. split; [reflexivity|]. now apply root_present_keeps with roots.
Qed.

Lemma build_root_ok (fuel : nat) (parts : list string) (r : string * node) :
  build_root env resolve fuel parts = Ok r ->
  (exists lib, unpack_root parts = Ok (lib, fst r)) /\
  guide_tree_of env resolve (fst r) (snd r).
Proof.
  unfold build_root. destruct (unpack_root parts) as [[lib root]|e]; simpl;
    [|discriminate].
  destruct (resolve lib root) as [cls|e] eqn:Hres; simpl; [|discriminate].
  destruct (build_guide_tree env fuel cls None) as [tree|e] eqn:Hb; simpl;
    [|discriminate].
  intros H. inversion H; subst. simpl. split; [now exists lib|].
  now exists lib, cls, fuel.
Qed.

Lemma all_built_set (root : string) (tree : node) (roots : roots_t) :
  guide_tree_of env resolve root tree -> all_built roots ->
  all_built (dict_set String.eqb root tree roots).
Proof.
  intros Hb Hall r t Hin.
  destruct (@dict_set_in _ _ String.eqb str_eqb_spec _ _ _ _ _ Hin) as [Heq|Hold].
  - now inversion Heq; subst.
  - now apply Hall.
Qed.

Lemma target_roots_loop_ok (fuel : nat) (targets : list yaml) :
  forall acc out,
    target_roots_loop env resolve fuel targets acc = Ok out ->
    all_built acc ->
    all_built out /\ keeps acc out /\ covers targets out.
Proof.
  induction targets as [|t targets IH]; intros acc out Hrun Hall; simpl in Hrun.
  - inversion Hrun; subst. repeat split; [exact Hall|now intros k|now intros t []].
  - destruct t as [tp|kvs|items]; simpl in Hrun; try discriminate.
    destruct (build_root env resolve fuel (PyStr.split tp)) as [r|e] eqn:Hr;
      simpl in Hrun; [|discriminate].
    destruct (@build_root_ok _ _ _ Hr) as [[lib Hun] Hbuilt].
    destruct (IH _ _ Hrun (@all_built_set _ _ _ Hbuilt Hall)) as [Hout [Hkeep Hcov]].
    assert (Hset : keeps acc (dict_set String.eqb (fst r) (snd r) acc))
      by (intros k; apply dict_mem_set, str_eqb_spec).
    repeat split; [exact Hout|intros k Hk; now apply Hkeep, Hset|].
    intros t [<-|Hin]; [|now apply Hcov].
    exists tp. split; [reflexivity|].
    assert (Hmem : dict_mem String.eqb (fst r) out = true).
    { apply Hkeep. unfold dict_mem.
      now rewrite (@dict_get_set_same _ _ String.eqb str_eqb_spec). }
    apply dict_mem_get in Hmem. destruct Hmem as [tree Hget].
    now exists lib, (fst r), tree.
Qed.

Lemma add_targets_ok (fuel : nat) (o : yaml) (roots roots' : roots_t) :
  add_targets env resolve fuel o roots = Ok roots' ->
  all_built roots ->
  all_built roots' /\ keeps roots roots' /\ covers (holder_paths o) roots'.
Proof.
  unfold add_targets, holder_paths. intros Hrun Hall.
  destruct (Yaml.contains "targets" o); simpl in Hrun.
  2:{ inversion Hrun; subst. repeat split; [exact Hall|now intros k|now intros t []]. }
  destruct (Yaml.getitem o "targets") as [targets|e]; simpl in Hrun; [|discriminate].
  destruct (_get_target_roots env resolve fuel targets) as [found|e] eqn:Hfound;
    simpl in Hrun; [|discriminate].
  inversion Hrun; subst roots'. clear Hrun.
  assert (Hf : all_built found /\
               covers (match targets with YMap kvs => dict_values kvs | _ => [] end)
                 found).
  { unfold _get_target_roots in Hfound. destruct fuel as [|fuel']; [discriminate|].
    destruct targets as [s|kvs|items]; simpl in Hfound; try discriminate.
    destruct (@target_roots_loop_ok _ _ _ _ Hfound) as [Hb [_ Hc]];
      [now intros r t []|]. now split. }
  destruct Hf as [Hfb Hfc]. repeat split.
  - intros r t Hin. destruct (@dict_update_in _ _ String.eqb str_eqb_spec _ _ _ Hin);
      [now apply Hall|now apply Hfb].
  - intros k. apply dict_update_mem_left, str_eqb_spec.
  - assert (Hk : keeps found (dict_update String.eqb roots found))
      by (intros k; apply dict_update_mem, str_eqb_spec).
    destruct targets as [s|kvs|items]; try (now intros t []).
    now apply covers_keeps with found.
Qed.

Lemma covers_app (p q : list yaml) (roots : roots_t) :
  covers p roots -> covers q roots -> covers (p ++ q) roots.
Proof. intros Hp Hq t Hin. apply in_app_or in Hin. destruct Hin; auto. Qed.

Lemma sub_options_loop_ok (fuel : nat) (subs : list yaml) :
  forall roots roots',
    sub_options_loop env resolve fuel subs roots = Ok roots' ->
    all_built roots ->
    all_built roots' /\ keeps roots roots' /\
    covers (flat_map holder_paths subs) roots'.
Proof.
  induction subs as [|s subs IH]; intros roots roots' Hrun Hall; simpl in Hrun.
  - inversion Hrun; subst. repeat split; [exact Hall|now intros k|now intros t []].
  - destruct (add_targets env resolve fuel s roots) as [mid|e] eqn:Hadd;
      simpl in Hrun; [|discriminate].
    destruct (@add_targets_ok _ _ _ _ Hadd Hall) as [Hb1 [Hk1 Hc1]].
    destruct (IH _ _ Hrun Hb1) as [Hb2 [Hk2 Hc2]].
    repeat split; [exact Hb2|intros k Hk; now apply Hk2, Hk1|].
    simpl. apply covers_app; [now apply covers_keeps with mid|exact Hc2].
Qed.

Lemma options_loop_ok (fuel : nat) (options : list yaml) :
  forall roots roots',
    options_loop env resolve fuel options roots = Ok roots' ->
    all_built roots ->
    all_built roots' /\ keeps roots roots' /\
    covers (flat_map entry_paths options) roots'.
Proof.
  induction options as [|o options IH]; intros roots roots' Hrun Hall.
  - simpl in Hrun. inversion Hrun; subst.
    repeat split; [exact Hall|now intros k|now intros t []].
  - assert (Hstep : exists mid,
               all_built mid /\ keeps roots mid /\ covers (entry_paths o) mid /\
               options_loop env resolve fuel options mid = Ok roots').
    { destruct o as [s|kvs|subs]; simpl in Hrun.
      - destruct (add_targets env resolve fuel (YStr s) roots) as [mid|e] eqn:Hadd;
          simpl in Hrun; [|discriminate].
        destruct (@add_targets_ok _ _ _ _ Hadd Hall) as [Hb [Hk Hc]]. now exists mid.
      - destruct (add_targets env resolve fuel (YMap kvs) roots) as [mid|e] eqn:Hadd;
          simpl in Hrun; [|discriminate].
        destruct (@add_targets_ok _ _ _ _ Hadd Hall) as [Hb [Hk Hc]]. now exists mid.
      - destruct (sub_options_loop env resolve fuel subs roots) as [mid|e] eqn:Hsub;
          simpl in Hrun; [|discriminate].
        destruct (@sub_options_loop_ok _ _ _ _ Hsub Hall) as [Hb [Hk Hc]].
        now exists mid. }
    destruct Hstep as [mid [Hb1 [Hk1 [Hc1 Hrest]]]].
    destruct (IH _ _ Hrest Hb1) as [Hb2 [Hk2 Hc2]].
    repeat split; [exact Hb2|intros k Hk; now apply Hk2, Hk1|].
    simpl. apply covers_app; [now apply covers_keeps with mid|exact Hc2].
Qed.

(** a plain attribute-to-target-path map is passed over, wherever it stands
    among the entries *)
Lemma options_loop_skips_flat (fuel : nat) (entry : yaml) (post : list yaml) :
  is_flat_map entry = true ->
  forall pre roots,
    options_loop env resolve fuel (pre ++ entry :: post) roots
    = options_loop env resolve fuel (pre ++ post) roots.
Proof.
  intros Hflat. destruct entry as [s|kvs|items]; try discriminate.
  simpl in Hflat.
  induction pre as [|o pre IH]; intros roots.
  - simpl. unfold add_targets. simpl Yaml.contains. now rewrite Hflat.
  - destruct o as [s|kvs'|subs]; simpl.
    + destruct (add_targets env resolve fuel (YStr s) roots) as [mid|e]; simpl;
        [apply IH|reflexivity].
    + destruct (add_targets env resolve fuel (YMap kvs') roots) as [mid|e]; simpl;
        [apply IH|reflexivity].
    + destruct (sub_options_loop env resolve fuel subs roots) as [mid|e]; simpl;
        [apply IH|reflexivity].
Qed.

Lemma options_loop_flat_only (fuel : nat) (options : list yaml) (roots : roots_t) :
  Forall (fun o => is_flat_map o = true) options ->
  options_loop env resolve fuel options roots = Ok roots.
Proof.
  induction 1 as [|o options Ho _ IH]; [reflexivity|].
  change (o :: options) with ([] ++ o :: options).
  rewrite (@options_loop_skips_flat fuel o options Ho [] roots). exact IH.
Qed.

(** C4: root discovery from the template builds a guide tree for the root of
    every target-path string held under the key [targets], by a non-list
    entry or by a rule of a rule list, and every tree it returns is the guide
    tree of a class resolved under its root name.  For the target paths of a
    plain attribute-to-target-path map it builds nothing: such an entry is
    passed over wherever it stands in the template, a template made of such
    maps yields no root at all, and a write through one of their paths then
    finds no tree and raises KeyError. *)
Theorem C4_flat_map_paths_get_no_root (fuel : nat) :
  (forall template roots,
      _extract_roots_from_template env resolve fuel template = Ok roots ->
      (forall tp, In (YStr tp) (template_paths template) -> root_present tp roots) /\
      (forall root tree,
          dict_get String.eqb root roots = Some tree ->
          guide_tree_of env resolve root tree)) /\
  (forall pre key entry post,
      is_flat_map entry = true ->
      _extract_roots_from_template env resolve fuel
        (YMap (pre ++ (key, entry) :: post))
      = _extract_roots_from_template env resolve fuel (YMap (pre ++ post))) /\
  (forall entries,
      Forall (fun kv => is_flat_map (snd kv) = true) entries ->
      _extract_roots_from_template env resolve (S fuel) (YMap entries) = Ok [] /\
      forall key kvs attribute tp root path v index,
        In (key, YMap kvs) entries ->
        dict_get String.eqb attribute kvs = Some (YStr tp) ->
        unpack_target (PyStr.split tp) = Ok (root, path) ->
        write_value (PyStr.split tp) v index [] = ([], Raise (KeyError root))).
Proof.
  split; [|split].
  - intros template roots Hrun. unfold _extract_roots_from_template in Hrun.
    destruct fuel as [|fuel']; [discriminate|].
    destruct template as [s|entries|items]; simpl in Hrun; try discriminate.
    destruct (@options_loop_ok _ _ _ _ Hrun) as [Hb [_ Hc]]; [now intros r t []|].
    split.
    + intros tp Hin. destruct (Hc _ Hin) as [tp' [Heq Hp]]. now inversion Heq; subst.
    + intros root tree Hget. apply Hb.
      now apply (@dict_get_in _ _ String.eqb str_eqb_spec).
  - intros pre key entry post Hflat. unfold _extract_roots_from_template.
    destruct fuel as [|fuel']; [reflexivity|].
    simpl Yaml.values. unfold dict_values. rewrite !map_app. simpl map. simpl rbind.
    now apply options_loop_skips_flat.
  - intros entries Hflat. split.
    + simpl. apply options_loop_flat_only. unfold dict_values.
      now apply Forall_map.
    + intros key kvs attribute tp root path v index _ _ Hun.
      unfold write_value. now rewrite Hun.
Qed.
End TemplateRoots.

Lemma C4_witness :
  (_extract_roots_from_template Demo.env Demo.resolve 5 Demo.flat_template = Ok [] /\
   write_value (PyStr.split "libA.Sample.temp") (Demo.int 20) (IInt 0) []
   = ([], Raise (KeyError "Sample"))) /\
  _extract_roots_from_template Demo.env Demo.resolve 5
    (YMap [("sample", YList [Demo.glass_rule]);
           ("holder", YMap [("x", YStr "libA.Holder.x")])])
  = _extract_roots_from_template Demo.env Demo.resolve 5
      (YMap [("sample", YList [Demo.glass_rule])]) /\
  root_present "libA.Sample.temp"
    [("Sample",
      ClassNode "Sample" "libA" None
        [AttributeNode "temp" None [] []; AttributeNode "kind" None [] []])].
Proof.
  split; [|split].
  - destruct (proj2 (proj2 (@C4_flat_map_paths_get_no_root Demo.env Demo.resolve 4))
                [("sample", YMap [("temp", YStr "libA.Sample.temp")])])
      as [Hnone Hwrite].
    + repeat constructor.
    + split; [exact Hnone|].
      refine (Hwrite "sample" [("temp", YStr "libA.Sample.temp")] "temp"
                "libA.Sample.temp" "Sample" ["temp"] (Demo.int 20) (IInt 0)
                _ eq_refl eq_refl).
      now left.
  - exact (proj1 (proj2 (@C4_flat_map_paths_get_no_root Demo.env Demo.resolve 5))
             [("sample", YList [Demo.glass_rule])] "holder"
             (YMap [("x", YStr "libA.Holder.x")]) [] eq_refl).
  - refine (proj1 (proj1 (@C4_flat_map_paths_get_no_root Demo.env Demo.resolve 5)
                     Demo.kind_template _ eq_refl) "libA.Sample.temp" _).
    simpl. now left.
Defined.

(** ** Sequences of nested instances (claim C8) *)

Lemma dict_set_same_value {K V} (keqb : K -> K -> bool) (k : K) (v : V) (d : dict K V) :
  dict_get keqb k d = Some v -> dict_set keqb k v d = d.
Proof.
  induction d as [|[k' v'] d IH]; simpl; [discriminate|].
  destruct (keqb k k').
  - intros H. now inversion H.
  - intros H. now rewrite IH.
Qed.

(** fresh integer keys are appended in the order of the writes *)
Lemma store_all_fresh (xs : list value) :
  forall base vals,
    (forall k, base <= k -> dict_get idx_eqb (IInt k) vals = None) ->
    store_all base xs vals = vals ++ combine (map IInt (seq base (length xs))) xs.
Proof.
  induction xs as [|x xs IH]; intros base vals Hfresh; simpl.
  - now rewrite app_nil_r.
  - rewrite (@dict_set_absent _ _ idx_eqb (IInt base) x vals (Hfresh base (le_n _))).
    rewrite IH.
    + now rewrite <- app_assoc.
    + intros k Hk. rewrite dict_get_app_absent by (apply Hfresh; lia).
      simpl. replace (k =? base)%nat with false; [reflexivity|].
      symmetry. apply Nat.eqb_neq. lia.
Qed.

(** the keys below the first index are left as they are *)
Lemma store_all_below (xs : list value) :
  forall base vals k,
    k < base ->
    dict_get idx_eqb (IInt k) (store_all base xs vals) = dict_get idx_eqb (IInt k) vals.
Proof.
  induction xs as [|x xs IH]; intros base vals k Hk; simpl; [reflexivity|].
  rewrite IH by lia.
  apply (@dict_get_set_other _ _ idx_eqb idx_eqb_spec).
  intros H. inversion H. lia.
Qed.

Lemma store_rows_below (rows : list (list value)) :
  forall base vals k,
    k < base ->
    dict_get idx_eqb (IInt k) (store_rows base rows vals) = dict_get idx_eqb (IInt k) vals.
Proof.
  induction rows as [|xs rows IH]; intros base vals k Hk; simpl; [reflexivity|].
  rewrite IH by lia. now apply store_all_below.
Qed.

Lemma store_all_head (base : nat) (y : value) (ys : list value)
  (vals : list (idx * value)) :
  dict_get idx_eqb (IInt base) (store_all base (y :: ys) vals) = Some y.
Proof.
  simpl. rewrite store_all_below by lia.
  apply (@dict_get_set_same _ _ idx_eqb idx_eqb_spec).
Qed.

(** elements that store one value each fill consecutive indices *)
Lemma store_rows_singletons (xs : list value) :
  forall base vals,
    store_rows base (map (fun x => [x]) xs) vals = store_all base xs vals.
Proof.
  induction xs as [|x xs IH]; intros base vals; simpl; [reflexivity|apply IH].
Qed.

(** the second value of an element is replaced by the first value of the
    element after it *)
Lemma store_rows_overwrites (rows : list (list value)) :
  forall i base vals x0 x1 xs y ys,
    nth_error rows i = Some (x0 :: x1 :: xs) ->
    nth_error rows (S i) = Some (y :: ys) ->
    dict_get idx_eqb (IInt (base + i + 1)) (store_rows base rows vals) = Some y.
Proof.
  induction rows as [|r rows IH]; intros i base vals x0 x1 xs y ys Hi Hnext;
    [destruct i; discriminate|].
  destruct i as [|i].
  - destruct rows as [|r' rows]; [discriminate|].
    simpl in Hi, Hnext. inversion Hi; subst r. inversion Hnext; subst r'.
    cbn [store_rows]. rewrite store_rows_below by lia.
    replace (base + 0 + 1) with (S base) by lia.
    apply store_all_head.
  - change (nth_error (r :: rows) (S i)) with (nth_error rows i) in Hi.
    change (nth_error (r :: rows) (S (S i))) with (nth_error rows (S i)) in Hnext.
    cbn [store_rows].
    replace (base + S i + 1) with (S base + i + 1) by lia.
    now apply IH with x0 x1 xs ys.
Qed.

Section Sequences.
Variable env : cid -> class_decl.
Variable re_match : string -> string -> result bool.
Variable py_str : value -> string.
Variables (option : string) (template : yaml).
(** the leaf that the elements are sent to *)
Variables (root : string) (npath : list string).

Section Loop.
Variable rec : value -> nat -> string -> yaml -> st unit.

Let fields_loop := convert_fields env re_match py_str option template rec.
Let items_loop := convert_items env re_match py_str template rec.

Lemma convert_items_stores (path : string) (items : list value) :
  forall rows i obj_index target roots vals,
    Forall2 (stores env re_match py_str template rec root npath path) items rows ->
    leaf_holds root npath roots vals ->
    exists tree' target',
      items_loop path obj_index i items target roots
      = (dict_set String.eqb root tree' roots, Ok target') /\
      leaf_holds root npath (dict_set String.eqb root tree' roots)
        (store_rows (obj_index + i) rows vals).
Proof.
  induction items as [|item items IH];
    intros rows i obj_index target roots vals Hall Hleaf;
    inversion Hall as [|? xs ? rows' Hitem Hrest]; subst.
  - destruct Hleaf as [tree [pos [more [name [o [cs [Hroot [Hfind Hat]]]]]]]].
    exists tree, target. simpl. rewrite (dict_set_same_value _ _ _ Hroot).
    split; [reflexivity|]. now exists tree, pos, more, name, o, cs.
  - destruct Hitem as [_ [t [Hcheck Hwalk]]].
    destruct (Hwalk (obj_index + i) roots vals Hleaf) as [tree1 [Hw Hleaf1]].
    destruct (IH rows' (S i) obj_index t _ _ Hrest Hleaf1)
      as [tree' [target' [Hrun Hleaf']]].
    rewrite (@dict_set_set _ _ String.eqb str_eqb_spec) in Hrun, Hleaf'.
    exists tree', target'. split.
    + unfold items_loop. simpl convert_items. unfold sbind at 1, lift at 1.
      rewrite Hcheck. unfold sbind at 1. rewrite Hw. exact Hrun.
    + cbn [store_rows]. now rewrite Nat.add_succ_r in Hleaf'.
Qed.

Lemma sequence_field_stores
  (obj : value) (obj_index : nat) (attr_path : string) (fld : field)
  (rest : list field) (target : yaml) (items : list value)
  (rows : list (list value)) (roots : roots_t) (vals : list (idx * value)) :
  getattr obj (f_name fld) = Ok (VList items) ->
  _get_wrapping_type fld = Some "list"%string ->
  Forall2 (stores env re_match py_str template rec root npath
             (child_path attr_path (f_name fld))) items rows ->
  leaf_holds root npath roots vals ->
  exists tree' target',
    fields_loop obj obj_index attr_path (fld :: rest) target roots
    = fields_loop obj obj_index attr_path rest target'
        (dict_set String.eqb root tree' roots) /\
    leaf_holds root npath (dict_set String.eqb root tree' roots)
      (store_rows obj_index rows vals).
Proof.
  intros Hget Hwrap Hall Hleaf.
  destruct (@convert_items_stores (child_path attr_path (f_name fld)) items rows
              0 obj_index target roots vals Hall Hleaf)
    as [tree' [target' [Hrun Hleaf']]].
  exists tree', target'. split.
  - unfold fields_loop. simpl convert_fields. unfold sbind at 1, lift at 1.
    rewrite Hget.
    assert (Hcls : _only_classes items = true).
    { unfold _only_classes. apply forallb_forall. intros item Hin.
      clear - Hall Hin. induction Hall as [|a xs items rows [Ha _] _ IH];
        [contradiction|].
      destruct Hin as [<-|Hin]; [exact Ha|now apply IH]. }
    cbn [is_list items_of negb andb]. rewrite Hcls, Hwrap.
    change (name_is "list" (Some "list"%string)) with true. cbv iota.
    unfold sbind at 1. fold items_loop. now rewrite Hrun.
  - now rewrite Nat.add_0_r in Hleaf'.
Qed.

(** C8: for a sequence-wrapped field whose elements are all schema
    instances, the converter resolves the targets of the shared childPath for
    each element and recurses into the element at position i with the write
    index objIndex + i.  An element is walked with that one index whatever it
    holds, so an element that sends several values to a leaf (the elements of
    a sequence nested in it) writes them at objIndex + i, objIndex + i + 1,
    ...; the leaf ends with the entries of the elements laid over each other
    in element order.  With one value per element these are the n values at
    objIndex .. objIndex + n - 1 in source order; with two values or more in
    an element, its second value is replaced by the first value of the
    element after it and is lost. *)
Theorem C8_nested_sequences_overwrite
  (obj : value) (obj_index : nat) (attr_path : string) (fld : field)
  (rest : list field) (target : yaml) (items : list value)
  (rows : list (list value)) (roots : roots_t) (vals : list (idx * value)) :
  getattr obj (f_name fld) = Ok (VList items) ->
  _get_wrapping_type fld = Some "list"%string ->
  Forall2 (stores env re_match py_str template rec root npath
             (child_path attr_path (f_name fld))) items rows ->
  leaf_holds root npath roots vals ->
  (exists tree' target',
      fields_loop obj obj_index attr_path (fld :: rest) target roots
      = fields_loop obj obj_index attr_path rest target'
          (dict_set String.eqb root tree' roots) /\
      leaf_holds root npath (dict_set String.eqb root tree' roots)
        (store_rows obj_index rows vals)) /\
  (forall xs,
      rows = map (fun x => [x]) xs ->
      store_rows obj_index rows []
      = combine (map IInt (seq obj_index (length xs))) xs) /\
  (forall i x0 x1 xs y ys,
      nth_error rows i = Some (x0 :: x1 :: xs) ->
      nth_error rows (S i) = Some (y :: ys) ->
      dict_get idx_eqb (IInt (obj_index + i + 1)) (store_rows obj_index rows vals)
      = Some y).
Proof.
  intros Hget Hwrap Hall Hleaf. split; [|split].
  - exact (@sequence_field_stores obj obj_index attr_path fld rest target items rows
             roots vals Hget Hwrap Hall Hleaf).
  - intros xs ->. rewrite store_rows_singletons. now apply store_all_fresh.
  - intros i x0 x1 xs y ys. apply store_rows_overwrites.
Qed.
End Loop.

(** an instance whose only field holds a leaf value that the targets
    resolved for the instance send to the leaf stores that value *)
Lemma leaf_element_stores (fuel : nat) (c : cid) (fa : field) (path tp : string)
  (attrs : list (string * value)) (x : value) (t : yaml) :
  c_fields (env c) = [fa] ->
  type_has_fields (f_type fa) = false ->
  unpack_target (PyStr.split tp) = Ok (root, npath) ->
  getattr (VObj c attrs) (f_name fa) = Ok x -> is_leaf_value x = true ->
  _check_matching_target env re_match py_str (VObj c attrs) path template = Ok t ->
  Yaml.contains (f_name fa) t = true ->
  Yaml.getitem t (f_name fa) = Ok (YStr tp) ->
  stores env re_match py_str template
    (_convert_tree env re_match py_str (S fuel) option template)
    root npath path (VObj c attrs) [x].
Proof.
  intros Hfields Hnot Hpath Hget Hleafv Hcheck Hc Hitem.
  split; [reflexivity|]. exists t. split; [exact Hcheck|].
  intros k roots vals [tree [pos [more [name [o [cs [Hroot [Hfind Hat]]]]]]]].
  destruct (@assign_first_match npath tree x (IInt k) _ _ _ _ _ _ Hfind Hat)
    as [tree' [Hassign [Hat' Hfind']]].
  exists tree'. split.
  - simpl _convert_tree. rewrite Hfields.
    rewrite (@convert_fields_leaf env re_match py_str option template
               (_convert_tree env re_match py_str fuel option template)
               (VObj c attrs) k path fa [] t x roots Hget).
    + unfold assign_leaf. rewrite Hc. unfold sbind, lift, sret. rewrite Hitem.
      simpl Yaml.split. cbv iota beta. unfold write_value.
      rewrite Hpath, Hroot, Hassign. reflexivity.
    + rewrite Hnot. apply andb_false_r.
    + exact Hleafv.
  - exists tree', pos, more, name, o, cs. repeat split.
    + apply dict_get_set_same, str_eqb_spec.
    + now rewrite Hfind'.
    + exact Hat'.
Qed.

(** an instance whose only field is a sequence of elements that store one
    value each stores the values of its elements *)
Lemma sequence_element_stores (fuel : nat) (r : cid) (fr : field) (path : string)
  (attrs : list (string * value)) (cells : list value) (xs : list value) (t : yaml) :
  c_fields (env r) = [fr] ->
  getattr (VObj r attrs) (f_name fr) = Ok (VList cells) ->
  _get_wrapping_type fr = Some "list"%string ->
  Forall2 (stores env re_match py_str template
             (_convert_tree env re_match py_str fuel option template)
             root npath (child_path path (f_name fr)))
    cells (map (fun x => [x]) xs) ->
  _check_matching_target env re_match py_str (VObj r attrs) path template = Ok t ->
  stores env re_match py_str template
    (_convert_tree env re_match py_str (S fuel) option template)
    root npath path (VObj r attrs) xs.
Proof.
  intros Hfields Hget Hwrap Hall Hcheck.
  split; [reflexivity|]. exists t. split; [exact Hcheck|].
  intros k roots vals Hleaf.
  destruct (@sequence_field_stores
              (_convert_tree env re_match py_str fuel option template)
              (VObj r attrs) k path fr [] t cells (map (fun x => [x]) xs)
              roots vals Hget Hwrap Hall Hleaf)
    as [tree' [target' [Hrun Hleaf']]].
  exists tree'. split.
  - simpl _convert_tree. rewrite Hfields. exact Hrun.
  - now rewrite store_rows_singletons in Hleaf'.
Qed.
End Sequences.

(** a point sent to [Sample.temp] by the rule at the path [rows.cells] *)
Lemma point_stores (n : nat) :
  stores Demo.env Demo.re_match Demo.py_str Demo.grid_template
    (_convert_tree Demo.env Demo.re_match Demo.py_str 1 "A" Demo.grid_template)
    "Sample" ["temp"] "rows.cells" (Demo.point n) [Demo.int n].
Proof.
  refine (@leaf_element_stores Demo.env Demo.re_match Demo.py_str "A"
            Demo.grid_template "Sample" ["temp"] 0 Demo.Point (Demo.plain "a")
            "rows.cells" "libA.Sample.temp" [("a", Demo.int n)] (Demo.int n)
            (YMap [("a", YStr "libA.Sample.temp")])
            eq_refl eq_refl eq_refl eq_refl eq_refl _ eq_refl eq_refl).
  unfold _check_matching_target. simpl.
  replace (prefix "" (PyStr.of_nat n)) with true; [reflexivity|].
  now destruct (PyStr.of_nat n).
Defined.

(** a row of two points, for which the template holds no entry *)
Lemma row_stores (m n : nat) :
  stores Demo.env Demo.re_match Demo.py_str Demo.grid_template
    (_convert_tree Demo.env Demo.re_match Demo.py_str 2 "A" Demo.grid_template)
    "Sample" ["temp"] "rows"
    (VObj Demo.Row [("cells", VList [Demo.point m; Demo.point n])])
    [Demo.int m; Demo.int n].
Proof.
  refine (@sequence_element_stores Demo.env Demo.re_match Demo.py_str "A"
            Demo.grid_template "Sample" ["temp"] 1 Demo.Row
            (Field "cells" (TSingle (AModel Demo.Point)) Demo.list_type [])
            "rows" [("cells", VList [Demo.point m; Demo.point n])]
            [Demo.point m; Demo.point n] [Demo.int m; Demo.int n] Yaml.empty
            eq_refl eq_refl eq_refl _ eq_refl).
  repeat constructor; apply point_stores.
Defined.

(** the grid: each [cells] field has two elements, all sent to
    [Sample.temp]; the second row is walked with the write index 1, so that
    its elements are written at 1 and 2.  The leaf ends with three entries,
    at 0, 1 and 2, and the value 1 of the first row is lost. *)
Lemma C8_witness :
  (exists tree',
      convert_fields Demo.env Demo.re_match Demo.py_str "A" Demo.grid_template
        (_convert_tree Demo.env Demo.re_match Demo.py_str 2 "A" Demo.grid_template)
        Demo.grid 0 "" (c_fields (Demo.env Demo.Grid)) Yaml.empty
        [("Sample", Demo.sample_tree)]
      = (dict_set String.eqb "Sample" tree' [("Sample", Demo.sample_tree)], Ok tt) /\
      leaf_holds "Sample" ["temp"]
        (dict_set String.eqb "Sample" tree' [("Sample", Demo.sample_tree)])
        [(IInt 0, Demo.int 0); (IInt 1, Demo.int 10); (IInt 2, Demo.int 11)]) /\
  _convert_tree Demo.env Demo.re_match Demo.py_str 5 "A" Demo.grid_template
    Demo.grid 0 "" Yaml.empty [("Sample", Demo.sample_tree)]
  = ([("Sample",
       ClassNode "Sample" "libA" None
         [AttributeNode "temp" None
            [(IInt 0, Demo.int 0); (IInt 1, Demo.int 10); (IInt 2, Demo.int 11)] [];
          AttributeNode "kind" None [] []])],
     Ok tt).
Proof.
  split; [|reflexivity].
  destruct (@C8_nested_sequences_overwrite Demo.env Demo.re_match Demo.py_str
              "A" Demo.grid_template "Sample" ["temp"]
              (_convert_tree Demo.env Demo.re_match Demo.py_str 2 "A"
                 Demo.grid_template)
              Demo.grid 0 ""
              (Field "rows" (TSingle (AModel Demo.Row)) Demo.list_type [])
              [] Yaml.empty
              [VObj Demo.Row [("cells", VList [Demo.point 0; Demo.point 1])];
               VObj Demo.Row [("cells", VList [Demo.point 10; Demo.point 11])]]
              [[Demo.int 0; Demo.int 1]; [Demo.int 10; Demo.int 11]]
              [("Sample", Demo.sample_tree)] [] eq_refl eq_refl)
    as [[tree' [target' [Hrun Hleaf]]] _].
  - repeat constructor; apply row_stores.
  - exists Demo.sample_tree, [0], [], "temp"%string, None, []. repeat split.
  - exists tree'. split; [exact Hrun|exact Hleaf].
Defined.

(** ** The shared default dictionary of [_extract_roots] (claim C10) *)

Section DictDistinct.
Variables (K V : Type) (keqb : K -> K -> bool).
Hypothesis keqb_spec : forall a b, keqb a b = true <-> a = b.

Lemma dict_get_not_key (k : K) (d : dict K V) :
  ~ In k (dict_keys d) -> dict_get keqb k d = None.
Proof.
  induction d as [|[k' v'] d IH]; simpl; [reflexivity|].
  intros Hnot. rewrite (keqb_neq keqb keqb_spec).
  - apply IH. intros Hin. apply Hnot. now right.
  - intros ->. apply Hnot. now left.
Qed.

Lemma dict_keys_set (k : K) (v : V) (d : dict K V) :
  dict_keys (dict_set keqb k v d) =
  if dict_mem keqb k d then dict_keys d else dict_keys d ++ [k].
Proof.
  unfold dict_mem. induction d as [|[k' v'] d IH]; simpl; [reflexivity|].
  destruct (keqb k k') eqn:E; simpl; [reflexivity|].
  rewrite IH. now destruct (dict_get keqb k d).
Qed.

(** [d[k] = v] keeps the keys distinct *)
Lemma dict_set_distinct (k : K) (v : V) (d : dict K V) :
  NoDup (dict_keys d) -> NoDup (dict_keys (dict_set keqb k v d)).
Proof.
  intros Hd. rewrite dict_keys_set. unfold dict_mem.
  destruct (dict_get keqb k d) eqn:E; [exact Hd|].
  apply NoDup_app; [exact Hd|constructor; [now intros []|constructor]|].
  intros a Ha [<-|[]].
  apply in_map_iff in Ha. destruct Ha as [[k' v'] [Hk Hin]]. simpl in Hk. subst k'.
  assert (Hsome : exists w, dict_get keqb k d = Some w).
  { clear - Hin keqb_spec. induction d as [|[k0 v0] d IH]; [contradiction|].
    simpl. destruct (keqb k k0) eqn:E0; [now eexists|].
    destruct Hin as [Heq|Hin]; [|now apply IH].
    inversion Heq; subst. now rewrite (keqb_refl keqb keqb_spec) in E0. }
  destruct Hsome as [w Hw]. congruence.
Qed.

Lemma dict_update_get_absent (k : K) (d e : dict K V) :
  dict_get keqb k e = None ->
  dict_get keqb k (dict_update keqb d e) = dict_get keqb k d.
Proof.
  intros He. rewrite (dict_update_get keqb keqb_spec).
  apply (dict_get_rev_none keqb keqb_spec) in He. now rewrite He.
Qed.

(** [{**d, **e}]: every entry of [e] is found unchanged in the result *)
Lemma dict_update_get_right (k : K) (v : V) (e : dict K V) :
  NoDup (dict_keys e) ->
  forall d, dict_get keqb k e = Some v ->
            dict_get keqb k (dict_update keqb d e) = Some v.
Proof.
  induction e as [|[k' v'] e IH]; intros Hnd d Hget; simpl in *; [discriminate|].
  inversion Hnd as [|? ? Hnotin Hnd']; subst.
  destruct (keqb k k') eqn:E.
  - apply keqb_spec in E. subst k'. inversion Hget; subst v'.
    change (dict_get keqb k (dict_update keqb (dict_set keqb k v d) e) = Some v).
    rewrite dict_update_get_absent by (now apply dict_get_not_key).
    apply (dict_get_set_same keqb keqb_spec).
  - now apply IH.
Qed.

Lemma dict_update_disjoint (e : dict K V) :
  NoDup (dict_keys e) ->
  forall d, (forall k, In k (dict_keys e) -> dict_get keqb k d = None) ->
            dict_update keqb d e = d ++ e.
Proof.
  unfold dict_update.
  induction e as [|[k v] e IH]; intros Hnd d Hdis; simpl; [now rewrite app_nil_r|].
  inversion Hnd as [|? ? Hnotin Hnd']; subst.
  rewrite (dict_set_absent keqb) by (apply Hdis; now left).
  rewrite IH; [now rewrite <- app_assoc|exact Hnd'|].
  intros k' Hk'. rewrite dict_get_app_absent by (apply Hdis; now right).
  simpl. rewrite (keqb_neq keqb keqb_spec); [reflexivity|].
  intros ->. contradiction.
Qed.

Lemma dict_get_distinct_in (k : K) (v : V) (d : dict K V) :
  NoDup (dict_keys d) -> In (k, v) d -> dict_get keqb k d = Some v.
Proof.
  induction d as [|[k' v'] d IH]; simpl; [contradiction|].
  intros Hnd [Heq|Hin]; inversion Hnd as [|? ? Hnotin Hnd']; subst.
  - inversion Heq; subst. now rewrite (keqb_refl keqb keqb_spec).
  - rewrite (keqb_neq keqb keqb_spec); [now apply IH|].
    intros ->. apply Hnotin. apply in_map_iff. now exists (k', v).
Qed.
End DictDistinct.

Section SharedRoots.
Variable env : cid -> class_decl.
Variable re_match : string -> string -> result bool.
Variable py_str : value -> string.
Variable resolve : string -> string -> result cid.
Variable fs : string -> Datatypes.option yaml.
Variable built : Type.
Variable build : node -> built.

(** what a run of the annotation scan keeps of the dictionary it is given *)
Let kept (roots roots' : roots_t) : Prop :=
  (NoDup (dict_keys roots) -> NoDup (dict_keys roots')) /\
  (forall k, dict_mem String.eqb k roots = true -> dict_mem String.eqb k roots' = true).

Lemma kept_refl (roots : roots_t) : kept roots roots.
Proof. split; auto. Qed.

Lemma kept_trans (a b c : roots_t) : kept a b -> kept b c -> kept a c.
Proof. intros [H1 H2] [H3 H4]. split; auto. Qed.

Lemma kept_set (k : string) (tree : node) (roots : roots_t) :
  kept roots (dict_set String.eqb k tree roots).
Proof.
  split.
  - apply dict_set_distinct, str_eqb_spec.
  - intros k'. apply dict_mem_set, str_eqb_spec.
Qed.

Lemma kept_bind {A B} (m : st A) (k : A -> st B) (roots : roots_t) :
  kept roots (fst (m roots)) ->
  (forall a roots1, kept roots1 (fst (k a roots1))) ->
  kept roots (fst (sbind m k roots)).
Proof.
  intros Hm Hk. unfold sbind. destruct (m roots) as [roots1 [a|e]]; simpl in *.
  - apply kept_trans with roots1; [exact Hm|apply Hk].
  - exact Hm.
Qed.

Lemma extract_fields_kept (fuel : nat) (option : string) (rec : cid -> st unit) :
  (forall d roots, kept roots (fst (rec d roots))) ->
  forall fields roots,
    kept roots (fst (extract_fields env resolve fuel option rec fields roots)).
Proof.
  intros Hrec. induction fields as [|fld fields IH]; intros roots; simpl.
  - apply kept_refl.
  - apply kept_bind.
    + destruct (dict_get String.eqb option (f_extra fld)) as [tp|];
        [|apply kept_refl].
      unfold sbind, lift.
      destruct (build_root env resolve fuel (PyStr.split tp)) as [r|e]; simpl;
        [apply kept_set|apply kept_refl].
    + intros _ roots1. apply kept_bind.
      * destruct (f_type fld) as [[|d]|alts]; try apply kept_refl. apply Hrec.
      * intros _ roots2. apply IH.
Qed.

(** nothing that the dictionary holds is ever dropped by [_extract_roots] *)
Lemma extract_roots_kept (option : string) (fuel : nat) :
  forall c roots, kept roots (fst (_extract_roots env resolve fuel option c roots)).
Proof.
  induction fuel as [|fuel IH]; intros c roots; simpl.
  - apply kept_refl.
  - apply extract_fields_kept. exact IH.
Qed.

(** a class without annotations and without nested schema types leaves the
    dictionary as it finds it *)
Lemma extract_fields_plain (fuel : nat) (option : string) (rec : cid -> st unit)
  (fields : list field) (roots : roots_t) :
  (forall fld, In fld fields ->
               dict_get String.eqb option (f_extra fld) = None /\
               type_has_fields (f_type fld) = false) ->
  extract_fields env resolve fuel option rec fields roots = (roots, Ok tt).
Proof.
  induction fields as [|fld fields IH]; intros Hplain; simpl; [reflexivity|].
  destruct (Hplain fld (or_introl eq_refl)) as [Hann Hty].
  unfold sbind at 1. rewrite Hann. unfold sret at 1.
  unfold sbind at 1.
  assert (Hnest : (match f_type fld with
                   | TSingle (AModel d) => rec d
                   | _ => sret tt
                   end) roots = (roots, Ok tt)).
  { destruct (f_type fld) as [[|d]|alts]; try reflexivity. discriminate. }
  rewrite Hnest. apply IH. intros f Hin. apply Hplain. now right.
Qed.

Lemma write_back_same (shared : roots_t) :
  NoDup (dict_keys shared) -> write_back shared shared = shared.
Proof.
  intros Hnd. unfold write_back.
  transitivity (map (fun kv : string * node => kv) shared); [|apply map_id].
  apply map_ext_in. intros [k v] Hin. simpl.
  now rewrite (@dict_get_distinct_in _ _ String.eqb str_eqb_spec _ _ _ Hnd Hin).
Qed.

(** C10: the dictionary that is the default of [roots] in [_extract_roots]
    is state shared by all runs of [convert_data_model].  Every root it holds
    when a run starts is in the root map of that run, and the entries of the
    shared dictionary take the place of the template-derived trees of the
    same name; a source without annotations leaves the stale entries as they
    are, so that for a source without fields the run returns exactly the
    stale roots: the result depends on earlier runs, not on the arguments
    alone. *)
Theorem C10_default_roots_shared_across_runs
  (fuel : nat) (option : string) (shared : roots_t) :
  NoDup (dict_keys shared) ->
  (forall template obj shared' roots,
      discover_roots env resolve fuel template obj option shared = (shared', Ok roots) ->
      (forall k, dict_mem String.eqb k shared = true ->
                 dict_mem String.eqb k roots = true) /\
      (forall k tree, dict_get String.eqb k shared' = Some tree ->
                      dict_get String.eqb k roots = Some tree)) /\
  (forall template c attrs shared' roots,
      (forall fld, In fld (c_fields (env c)) ->
                   dict_get String.eqb option (f_extra fld) = None /\
                   type_has_fields (f_type fld) = false) ->
      discover_roots env resolve (S fuel) template (VObj c attrs) option shared
      = (shared', Ok roots) ->
      shared' = shared /\
      (forall k tree, dict_get String.eqb k shared = Some tree ->
                      dict_get String.eqb k roots = Some tree)) /\
  (forall c attrs,
      c_fields (env c) = [] ->
      convert_data_model env re_match py_str resolve fs build (S fuel)
        (VObj c attrs) option None shared
      = (shared, Ok (map build (dict_values shared)))).
Proof.
  intros Hnd.
  assert (Hdiscover : forall fuel' template obj shared' roots,
             discover_roots env resolve fuel' template obj option shared
             = (shared', Ok roots) ->
             exists from_template,
               roots = merge_roots from_template shared' /\ kept shared shared' /\
               shared' = fst (match obj with
                              | VObj c _ => _extract_roots env resolve fuel' option c
                              | _ => lift (Raise AttributeError)
                              end shared)).
  { intros fuel' template obj shared' roots Hrun. unfold discover_roots in Hrun.
    destruct (_extract_roots_from_template env resolve fuel' template)
      as [from_template|e]; [|discriminate].
    cbv zeta in Hrun.
    set (extract := match obj with
                    | VObj c _ => _extract_roots env resolve fuel' option c
                    | _ => lift (Raise AttributeError)
                    end) in *.
    assert (Hk : kept shared (fst (extract shared))).
    { subst extract. destruct obj; try apply kept_refl. apply extract_roots_kept. }
    destruct (extract shared) as [s [[]|e]] eqn:Hext; inversion Hrun; subst.
    simpl in Hk. now exists from_template. }
  assert (Hmerge : forall from_template shared' k tree,
             kept shared shared' ->
             dict_get String.eqb k shared' = Some tree ->
             dict_get String.eqb k (merge_roots from_template shared') = Some tree).
  { intros from_template shared' k tree [Hnd' _] Hget. unfold merge_roots.
    apply (@dict_update_get_right _ _ String.eqb str_eqb_spec); [now apply Hnd'|exact Hget]. }
  repeat split.
  - intros k Hk. destruct (Hdiscover _ _ _ _ _ H) as [ft [-> [[_ Hkeep] _]]].
    unfold merge_roots. apply (dict_update_mem String.eqb str_eqb_spec). now apply Hkeep.
  - intros k tree Hget. destruct (Hdiscover _ _ _ _ _ H) as [ft [-> [Hk _]]].
    now apply Hmerge.
  - destruct (Hdiscover _ _ _ _ _ H0) as [ft [_ [_ Hs]]]. rewrite Hs.
    simpl. now rewrite extract_fields_plain.
  - intros k tree Hget. destruct (Hdiscover _ _ _ _ _ H0) as [ft [-> [Hk Hs]]].
    apply Hmerge; [exact Hk|]. rewrite Hs. simpl.
    now rewrite extract_fields_plain.
  - intros c attrs Hfields.
    unfold convert_data_model, load_template, convert_loaded, discover_roots.
    simpl. rewrite Hfields. simpl. unfold merge_roots.
    rewrite (@dict_update_disjoint _ _ String.eqb str_eqb_spec _ Hnd) by reflexivity.
    simpl. unfold sret. now rewrite write_back_same.
Qed.
End SharedRoots.

(** a first run fills the shared dictionary; a later run on a source without
    fields returns the tree of the first run, and nothing on a fresh
    dictionary *)
Lemma C10_witness :
  let stale :=
    [("Sample",
      ClassNode "Sample" "libA" None
        [AttributeNode "temp" None [(IStr ".0", Demo.int 25)] [];
         AttributeNode "kind" None [] []])] in
  convert_data_model Demo.env Demo.re_match Demo.py_str Demo.resolve Demo.no_files
    (fun tree : node => tree) 5 Demo.measurement_swapped "A" None []
  = (stale, Ok (dict_values stale)) /\
  convert_data_model Demo.env Demo.re_match Demo.py_str Demo.resolve Demo.no_files
    (fun tree : node => tree) 5 Demo.empty_obj "A" None stale
  = (stale, Ok (dict_values stale)) /\
  convert_data_model Demo.env Demo.re_match Demo.py_str Demo.resolve Demo.no_files
    (fun tree : node => tree) 5 Demo.empty_obj "A" None []
  = ([], Ok []).
Proof.
  intros stale. split; [reflexivity|]. split; [|reflexivity].
  assert (Hnd : NoDup (dict_keys stale))
    by (constructor; [now intros []|constructor]).
  exact (proj2 (proj2 (@C10_default_roots_shared_across_runs Demo.env Demo.re_match
                         Demo.py_str Demo.resolve Demo.no_files node
                         (fun tree => tree) 4 "A" stale Hnd))
           Demo.Empty [] eq_refl).
Defined.

(** * Further properties of the code *)

(** ** Writes into a node: what stays as it was *)

Lemma nth_error_list_set_other {A} (l : list A) :
  forall i j x, i <> j -> nth_error (list_set i x l) j = nth_error l j.
Proof.
  induction l as [|a l IH]; intros [|i] [|j] x Hne; simpl; try reflexivity.
  - contradiction.
  - apply IH. intros Heq. apply Hne. now f_equal.
Qed.

Lemma update_at_frame (index : idx) (v : value) (pos : position) :
  forall n n',
    update_at (set_value index v) n pos = Ok n' ->
    forall q, ~ is_prefix q pos -> node_at n' q = node_at n q.
Proof.
  induction pos as [|i pos IH]; intros n n' Hup q Hq; simpl in Hup.
  - destruct q as [|j q]; [exfalso; apply Hq; now exists []|].
    destruct (set_value_shape _ _ _ Hup) as [_ Hcs]. simpl. now rewrite Hcs.
  - destruct (nth_error (node_children n) i) as [c|] eqn:Hnth; [|discriminate].
    destruct (update_at (set_value index v) c pos) as [c'|e] eqn:Hc;
      simpl in Hup; [|discriminate].
    inversion Hup; subst n'. clear Hup.
    destruct q as [|j q]; [exfalso; apply Hq; now exists (i :: pos)|].
    simpl. rewrite node_children_with_children.
    destruct (Nat.eq_dec i j) as [<-|Hne].
    + rewrite (nth_error_list_set_same _ _ _ Hnth), Hnth.
      apply (IH _ _ Hc). intros [r Hr]. apply Hq. exists r. simpl. now rewrite Hr.
    + now rewrite nth_error_list_set_other.
Qed.

(** X7: a write changes nothing outside the way from the root to the node it
    reaches: every node that is not the written node or one of its ancestors
    is found unchanged at its position. *)
Theorem assign_leaves_other_nodes
  (path : list string) (root : node) (v : value) (index : idx) (root' : node) :
  _assign_primitive_data_to_node path root v index = Ok root' ->
  exists pos rest,
    findall root path = pos :: rest /\
    forall q, ~ is_prefix q pos -> node_at root' q = node_at root q.
Proof.
  unfold _assign_primitive_data_to_node. intros Hrun.
  destruct (findall root path) as [|pos rest]; [discriminate|].
  exists pos, rest. split; [reflexivity|].
  intros q Hq. now apply (update_at_frame _ _ _ Hrun).
Qed.

Lemma assign_leaves_other_nodes_witness :
  exists root',
    _assign_primitive_data_to_node ["x"; "name"] Demo.holder_tree (Demo.int 1) (IInt 0)
    = Ok root' /\
    node_at root' [0; 1; 0] = node_at Demo.holder_tree [0; 1; 0].
Proof.
  eexists. split; [reflexivity|].
  destruct (@assign_leaves_other_nodes ["x"; "name"] Demo.holder_tree (Demo.int 1)
              (IInt 0) _ eq_refl) as [pos [rest [Hfind Hframe]]].
  inversion Hfind; subst. apply Hframe.
  intros [r Hr]. discriminate.
Defined.

(** X8: two writes through the same path reach the same node; the second one
    replaces the value of the first under the same key and is kept beside it
    under another key. *)
Theorem assign_twice
  (path : list string) (root : node) (v1 v2 : value) (i1 i2 : idx)
  (pos : position) (rest : list position)
  (name : string) (o : Datatypes.option pytype) (vals : list (idx * value))
  (cs : list node) :
  findall root path = pos :: rest ->
  node_at root pos = Some (AttributeNode name o vals cs) ->
  exists root1 root2 vals2,
    _assign_primitive_data_to_node path root v1 i1 = Ok root1 /\
    _assign_primitive_data_to_node path root1 v2 i2 = Ok root2 /\
    node_at root2 pos = Some (AttributeNode name o vals2 cs) /\
    dict_get idx_eqb i2 vals2 = Some v2 /\
    dict_get idx_eqb i1 vals2 = Some (if idx_eqb i1 i2 then v2 else v1) /\
    (forall k, k <> i1 -> k <> i2 -> dict_get idx_eqb k vals2 = dict_get idx_eqb k vals).
Proof.
  intros Hfind Hat.
  destruct (@assign_first_match path root v1 i1 _ _ _ _ _ _ Hfind Hat)
    as [root1 [H1 [Hat1 Hfind1]]].
  rewrite Hfind in Hfind1.
  destruct (@assign_first_match path root1 v2 i2 _ _ _ _ _ _ Hfind1 Hat1)
    as [root2 [H2 [Hat2 _]]].
  exists root1, root2, (dict_set idx_eqb i2 v2 (dict_set idx_eqb i1 v1 vals)).
  repeat split; try assumption.
  - apply dict_get_set_same, idx_eqb_spec.
  - destruct (idx_eqb i1 i2) eqn:E.
    + apply idx_eqb_spec in E. subst i2. apply dict_get_set_same, idx_eqb_spec.
    + rewrite (@dict_get_set_other _ _ idx_eqb idx_eqb_spec).
      * apply dict_get_set_same, idx_eqb_spec.
      * intros ->. now rewrite (keqb_refl idx_eqb idx_eqb_spec) in E.
  - intros k Hk1 Hk2.
    rewrite (@dict_get_set_other _ _ idx_eqb idx_eqb_spec) by exact Hk2.
    now rewrite (@dict_get_set_other _ _ idx_eqb idx_eqb_spec) by exact Hk1.
Qed.

Lemma assign_twice_witness :
  exists root1 root2 vals2,
    _assign_primitive_data_to_node ["temp"] Demo.sample_tree (Demo.int 1) (IInt 0)
    = Ok root1 /\
    _assign_primitive_data_to_node ["temp"] root1 (Demo.int 2) (IInt 0) = Ok root2 /\
    node_at root2 [0] = Some (AttributeNode "temp" None vals2 []) /\
    dict_get idx_eqb (IInt 0) vals2 = Some (Demo.int 2) /\
    dict_get idx_eqb (IInt 0) vals2 = Some (Demo.int 2) /\
    (forall k, k <> IInt 0 -> k <> IInt 0 ->
               dict_get idx_eqb k vals2 = dict_get idx_eqb k []).
Proof.
  exact (@assign_twice ["temp"] Demo.sample_tree (Demo.int 1) (Demo.int 2)
           (IInt 0) (IInt 0) [0] [] "temp" None [] [] eq_refl eq_refl).
Defined.

(** ** The walk writes values and nothing else *)

Lemma map_skeleton_list_set (c c' : node) (cs : list node) :
  forall i, nth_error cs i = Some c -> skeleton c' = skeleton c ->
            map skeleton (list_set i c' cs) = map skeleton cs.
Proof.
  induction cs as [|a cs IH]; intros [|i] Hnth Hsk; simpl in *; try discriminate.
  - inversion Hnth; subst. now rewrite Hsk.
  - now rewrite (IH i Hnth Hsk).
Qed.

Lemma skeleton_with_children (n : node) (cs cs' : list node) :
  node_children n = cs -> map skeleton cs' = map skeleton cs ->
  skeleton (with_children n cs') = skeleton n.
Proof. intros <- Hmap. destruct n; simpl in *; now rewrite Hmap. Qed.

Lemma update_at_skeleton (index : idx) (v : value) (pos : position) :
  forall n n', update_at (set_value index v) n pos = Ok n' -> skeleton n' = skeleton n.
Proof.
  induction pos as [|i pos IH]; intros n n' Hup; simpl in Hup.
  - destruct n; simpl in Hup; inversion Hup. reflexivity.
  - destruct (nth_error (node_children n) i) as [c|] eqn:Hnth; [|discriminate].
    destruct (update_at (set_value index v) c pos) as [c'|e] eqn:Hc;
      simpl in Hup; [|discriminate].
    inversion Hup; subst n'.
    apply skeleton_with_children with (node_children n); [reflexivity|].
    apply map_skeleton_list_set with c; [exact Hnth|]. now apply IH.
Qed.

Lemma frame_of_set (k : string) (tree tree' : node) (roots : roots_t) :
  dict_get String.eqb k roots = Some tree -> skeleton tree' = skeleton tree ->
  frame_of (dict_set String.eqb k tree' roots) = frame_of roots.
Proof.
  induction roots as [|[k0 t0] roots IH]; simpl; [discriminate|].
  destruct (k =? k0)%string; simpl.
  - intros H Hsk. inversion H; subst. now rewrite Hsk.
  - intros H Hsk. now rewrite IH.
Qed.

Section Quiet.
Variable env : cid -> class_decl.
Variable re_match : string -> string -> result bool.
Variable py_str : value -> string.
Variables (option : string) (template : yaml).

(** a computation that leaves the root names and the skeletons alone,
    whether it returns or raises *)
Let quiet {A} (m : st A) : Prop :=
  forall roots, frame_of (fst (m roots)) = frame_of roots.

Lemma quiet_bind {A B} (m : st A) (k : A -> st B) :
  quiet m -> (forall a, quiet (k a)) -> quiet (sbind m k).
Proof.
  intros Hm Hk roots. unfold sbind. specialize (Hm roots).
  destruct (m roots) as [roots1 [a|e]]; simpl in *; [|exact Hm].
  now rewrite Hk.
Qed.

Lemma quiet_lift {A} (r : result A) : quiet (lift r).
Proof. now intros roots. Qed.

Lemma quiet_sret {A} (a : A) : quiet (sret a).
Proof. now intros roots. Qed.

Lemma quiet_write_value (parts : list string) (v : value) (index : idx) :
  quiet (write_value parts v index).
Proof.
  intros roots. unfold write_value.
  destruct (unpack_target parts) as [[root path]|e]; [|reflexivity].
  destruct (dict_get String.eqb root roots) as [tree|] eqn:Hroot; [|reflexivity].
  destruct (_assign_primitive_data_to_node path tree v index) as [tree'|e] eqn:Hw;
    [|reflexivity].
  simpl. apply frame_of_set with tree; [exact Hroot|].
  unfold _assign_primitive_data_to_node in Hw.
  destruct (findall tree path) as [|pos rest]; [discriminate|].
  now apply (@update_at_skeleton _ _ _ _ _ Hw).
Qed.

Lemma quiet_assign_leaf (fld : field) (v : value) (obj_index : nat)
  (attr_path : string) (target : yaml) :
  quiet (assign_leaf option fld v obj_index attr_path target).
Proof.
  unfold assign_leaf. destruct (Yaml.contains (f_name fld) target).
  - apply quiet_bind; [apply quiet_lift|]. intros tp.
    apply quiet_bind; [apply quiet_lift|]. intros parts.
    apply quiet_bind; [apply quiet_write_value|]. intros _. apply quiet_sret.
  - destruct (dict_get String.eqb option (f_extra fld)) as [tp|];
      [|apply quiet_sret].
    apply quiet_bind; [apply quiet_write_value|]. intros _. apply quiet_sret.
Qed.

Lemma quiet_convert_items (rec : value -> nat -> string -> yaml -> st unit) :
  (forall v i p t, quiet (rec v i p t)) ->
  forall items path obj_index i target,
    quiet (convert_items env re_match py_str template rec path obj_index i items target).
Proof.
  intros Hrec. induction items as [|item items IH]; intros path obj_index i target;
    simpl.
  - apply quiet_sret.
  - apply quiet_bind; [apply quiet_lift|]. intros t.
    apply quiet_bind; [apply Hrec|]. intros _. apply IH.
Qed.

Lemma quiet_convert_fields (rec : value -> nat -> string -> yaml -> st unit) :
  (forall v i p t, quiet (rec v i p t)) ->
  forall fields obj obj_index attr_path target,
    quiet (convert_fields env re_match py_str option template rec
             obj obj_index attr_path fields target).
Proof.
  intros Hrec. induction fields as [|fld fields IH];
    intros obj obj_index attr_path target; simpl.
  - apply quiet_sret.
  - apply quiet_bind; [apply quiet_lift|]. intros v.
    destruct (negb (is_list v) && type_has_fields (f_type fld)).
    + apply quiet_bind; [apply quiet_lift|]. intros t.
      apply quiet_bind; [apply Hrec|]. intros _. apply IH.
    + destruct (is_list v && _only_classes (items_of v)).
      * destruct (name_is "list" (_get_wrapping_type fld)); [|apply IH].
        apply quiet_bind; [now apply quiet_convert_items|]. intros t. apply IH.
      * apply quiet_bind; [apply quiet_assign_leaf|]. intros [|];
          [apply IH|apply quiet_sret].
Qed.

(** X2: whatever the source, the template and the outcome, the walk leaves
    the root map with the same root names in the same order, and every tree
    with the same nodes, names, containers and children: only value mappings
    of AttributeNodes differ afterwards. *)
Theorem convert_tree_keeps_frame (fuel : nat) :
  forall (obj : value) (obj_index : nat) (attr_path : string) (target : yaml)
         (roots : roots_t),
    frame_of (fst (_convert_tree env re_match py_str fuel option template
                     obj obj_index attr_path target roots))
    = frame_of roots.
Proof.
  induction fuel as [|fuel IH]; intros obj obj_index attr_path target roots; simpl.
  - reflexivity.
  - destruct obj as [p|c attrs|items]; try reflexivity.
    apply quiet_convert_fields. intros v i p t roots'. apply IH.
Qed.
End Quiet.

(** ** More on the walk: skipped sequences, rebound targets, failed writes *)

Section WalkMore.
Variable env : cid -> class_decl.
Variable re_match : string -> string -> result bool.
Variable py_str : value -> string.
Variables (option : string) (template : yaml).
Variable rec : value -> nat -> string -> yaml -> st unit.

Let fields_loop := convert_fields env re_match py_str option template rec.

(** X5: an attribute whose value is an empty list, or a list of instances
    under a field that is not declared as a list, is passed over: nothing is
    written and nothing is raised, whatever the active targets and the
    annotations say, and the walk goes on with the next attribute. *)
Theorem unwritten_sequences
  (obj : value) (obj_index : nat) (attr_path : string) (fld : field)
  (rest : list field) (target : yaml) (items : list value) (roots : roots_t) :
  getattr obj (f_name fld) = Ok (VList items) ->
  _only_classes items = true ->
  items = [] \/ name_is "list" (_get_wrapping_type fld) = false ->
  fields_loop obj obj_index attr_path (fld :: rest) target roots
  = fields_loop obj obj_index attr_path rest target roots.
Proof.
  intros Hget Hcls Hcase. unfold fields_loop. simpl convert_fields.
  unfold sbind at 1, lift at 1. rewrite Hget.
  cbn [is_list items_of negb andb]. rewrite Hcls.
  destruct (name_is "list" (_get_wrapping_type fld)) eqn:Hwrap; [|reflexivity].
  destruct Hcase as [->|Hno]; [reflexivity|discriminate].
Qed.

(** X4: the targets resolved for a nested attribute stay bound for the rest of
    the loop: a later leaf attribute of the same instance that those targets
    name is written through them, under the integer index, whatever the
    targets handed to this instance were. *)
Theorem nested_targets_reach_later_attributes
  (obj : value) (obj_index : nat) (attr_path : string) (f1 f2 : field)
  (rest : list field) (target t' : yaml) (v1 v2 : value) (tp : string)
  (roots roots1 : roots_t) :
  getattr obj (f_name f1) = Ok v1 ->
  is_list v1 = false -> type_has_fields (f_type f1) = true ->
  _check_matching_target env re_match py_str v1
    (child_path attr_path (f_name f1)) template = Ok t' ->
  rec v1 obj_index (child_path attr_path (f_name f1)) t' roots = (roots1, Ok tt) ->
  getattr obj (f_name f2) = Ok v2 ->
  negb (is_list v2) && type_has_fields (f_type f2) = false ->
  is_leaf_value v2 = true ->
  Yaml.contains (f_name f2) t' = true ->
  Yaml.getitem t' (f_name f2) = Ok (YStr tp) ->
  fields_loop obj obj_index attr_path (f1 :: f2 :: rest) target roots
  = (_ <- write_value (PyStr.split tp) v2 (IInt obj_index) ;;
     fields_loop obj obj_index attr_path rest t') roots1.
Proof.
  intros Hget1 Hl1 Ht1 Hcheck Hrec Hget2 HA2 HB2 Hc Hitem.
  unfold fields_loop.
  assert (Hfirst :
            convert_fields env re_match py_str option template rec obj obj_index
              attr_path (f1 :: f2 :: rest) target roots
            = convert_fields env re_match py_str option template rec obj obj_index
                attr_path (f2 :: rest) t' roots1).
  { simpl convert_fields. unfold sbind at 1, lift at 1. rewrite Hget1, Hl1, Ht1.
    cbn [negb andb]. unfold sbind at 1, lift at 1. rewrite Hcheck.
    unfold sbind at 1. now rewrite Hrec. }
  rewrite Hfirst.
  rewrite (@convert_fields_leaf env re_match py_str option template rec
             obj obj_index attr_path f2 rest t' v2 roots1 Hget2 HA2 HB2).
  unfold assign_leaf. rewrite Hc. unfold sbind, lift, sret. rewrite Hitem. simpl.
  destruct (write_value (PyStr.split tp) v2 (IInt obj_index) roots1) as [r [[]|e]];
    reflexivity.
Qed.
End WalkMore.

Lemma unwritten_sequences_witness :
  convert_fields Demo.env Demo.re_match Demo.py_str "A" Demo.series_template
    (fun _ _ _ _ => sret tt) (VObj Demo.Series [("samples", VList [])]) 0 ""
    [Field "samples" (TSingle (AModel Demo.Point)) Demo.list_type
       [("A", "libA.Sample.temp")]]
    (YMap [("samples", YStr "libA.Sample.temp")]) [("Sample", Demo.sample_tree)]
  = ([("Sample", Demo.sample_tree)], Ok tt).
Proof.
  exact (@unwritten_sequences Demo.env Demo.re_match Demo.py_str "A"
           Demo.series_template (fun _ _ _ _ => sret tt)
           (VObj Demo.Series [("samples", VList [])]) 0 ""
           (Field "samples" (TSingle (AModel Demo.Point)) Demo.list_type
              [("A", "libA.Sample.temp")])
           [] (YMap [("samples", YStr "libA.Sample.temp")]) []
           [("Sample", Demo.sample_tree)] eq_refl eq_refl (or_introl eq_refl)).
Defined.

(** the sample is walked first and writes its 20 degrees at index 0; the
    attribute [temp] of the enclosing instance, named only by the targets of
    the sample, then puts its own 5 in the same place *)
Lemma nested_targets_reach_later_attributes_witness :
  convert_fields Demo.env Demo.re_match Demo.py_str "A" Demo.kind_template
    (_convert_tree Demo.env Demo.re_match Demo.py_str 3 "A" Demo.kind_template)
    (VObj Demo.Wrapper [("sample", Demo.glass_sample); ("temp", Demo.int 5)]) 0 ""
    [Field "sample" (TSingle (AModel Demo.Sample)) None []; Demo.plain "temp"]
    Yaml.empty [("Sample", Demo.sample_tree)]
  = ([("Sample",
       ClassNode "Sample" "libA" None
         [AttributeNode "temp" None [(IInt 0, Demo.int 5)] [];
          AttributeNode "kind" None [] []])],
     Ok tt).
Proof.
  exact (@nested_targets_reach_later_attributes Demo.env Demo.re_match Demo.py_str
           "A" Demo.kind_template
           (_convert_tree Demo.env Demo.re_match Demo.py_str 3 "A" Demo.kind_template)
           (VObj Demo.Wrapper [("sample", Demo.glass_sample); ("temp", Demo.int 5)])
           0 "" (Field "sample" (TSingle (AModel Demo.Sample)) None [])
           (Demo.plain "temp") [] Yaml.empty
           (YMap [("temp", YStr "libA.Sample.temp")])
           Demo.glass_sample (Demo.int 5) "libA.Sample.temp"
           [("Sample", Demo.sample_tree)]
           [("Sample",
             ClassNode "Sample" "libA" None
               [AttributeNode "temp" None [(IInt 0, Demo.int 20)] [];
                AttributeNode "kind" None [] []])]
           eq_refl eq_refl eq_refl eq_refl eq_refl eq_refl eq_refl eq_refl
           eq_refl eq_refl).
Defined.

(** X6: a write that raises leaves the root map as it was, and it raises
    ValueError for a target path of fewer than two segments, KeyError for a
    root that the root map does not hold, and IndexError for a node path that
    no node of the root's tree carries. *)
Theorem failed_write_changes_nothing
  (parts : list string) (v : value) (index : idx) (roots : roots_t) :
  (forall e, snd (write_value parts v index roots) = Raise e ->
             fst (write_value parts v index roots) = roots) /\
  (length parts < 2 ->
   write_value parts v index roots = (roots, Raise ValueError_unpack)) /\
  (forall root path,
      unpack_target parts = Ok (root, path) ->
      dict_get String.eqb root roots = None ->
      write_value parts v index roots = (roots, Raise (KeyError root))) /\
  (forall root path tree,
      unpack_target parts = Ok (root, path) ->
      dict_get String.eqb root roots = Some tree ->
      findall tree path = [] ->
      write_value parts v index roots = (roots, Raise IndexError)).
Proof.
  repeat split.
  - intros e. unfold write_value.
    destruct (unpack_target parts) as [[root path]|e0]; [|reflexivity].
    destruct (dict_get String.eqb root roots) as [tree|]; [|reflexivity].
    destruct (_assign_primitive_data_to_node path tree v index); [|reflexivity].
    discriminate.
  - intros Hlen. unfold write_value.
    destruct parts as [|a [|b parts]]; simpl in *; try reflexivity. lia.
  - intros root path Hun Hroot. unfold write_value. now rewrite Hun, Hroot.
  - intros root path tree Hun Hroot Hfind. unfold write_value.
    rewrite Hun, Hroot. unfold _assign_primitive_data_to_node. now rewrite Hfind.
Qed.

Lemma failed_write_changes_nothing_witness :
  write_value ["libB"; "Other"; "temp"] (Demo.int 1) (IInt 0)
    [("Sample", Demo.sample_tree)]
  = ([("Sample", Demo.sample_tree)], Raise (KeyError "Other")).
Proof.
  exact (proj1 (proj2 (proj2 (@failed_write_changes_nothing
                                ["libB"; "Other"; "temp"] (Demo.int 1) (IInt 0)
                                [("Sample", Demo.sample_tree)])))
           "Other" ["temp"] eq_refl eq_refl).
Defined.

(** ** More on the guide tree builder *)

Section BuilderMore.
Variable env : cid -> class_decl.

Lemma build_alternatives_shape
  (rec : cid -> Datatypes.option pytype -> result node) (name : string)
  (o : Datatypes.option pytype) :
  (forall d t, rec d o = Ok t ->
               guide_shape t /\ is_attribute t = false /\ node_outer t = o) ->
  forall alts subs,
    build_alternatives env rec name o alts = Ok subs ->
    Forall (fun c => is_attribute c = false /\ node_outer c = o) subs /\
    Forall guide_shape subs.
Proof.
  intros Hrec. induction alts as [|[|d] alts IH]; intros subs Hrun; simpl in Hrun.
  - inversion Hrun. split; constructor.
  - now apply IH.
  - destruct (negb (c_name (env d) =? name)); [|now apply IH].
    destruct (rec d o) as [t|e] eqn:Ht; simpl in Hrun; [|discriminate].
    destruct (build_alternatives env rec name o alts) as [more|e]; simpl in Hrun;
      [|discriminate].
    inversion Hrun; subst. destruct (IH more eq_refl) as [H1 H2].
    destruct (Hrec d t Ht) as [Hs [Ha Ho]].
    split; constructor; auto.
Qed.

Lemma build_fields_shape
  (rec : cid -> Datatypes.option pytype -> result node) (name : string) :
  (forall d o t, rec d o = Ok t ->
                 guide_shape t /\ is_attribute t = false /\ node_outer t = o) ->
  forall fields nodes,
    build_fields env rec name fields = Ok nodes ->
    Forall (fun c => is_attribute c = true) nodes /\
    Forall guide_shape nodes /\
    map node_name nodes = map f_name fields /\
    map node_outer nodes = map f_origin fields.
Proof.
  intros Hrec. induction fields as [|fld fields IH]; intros nodes Hrun; simpl in Hrun.
  - inversion Hrun. repeat split; constructor.
  - destruct (seed_value (f_origin fld)); simpl in Hrun; [|discriminate].
    destruct (build_alternatives env rec name (f_origin fld)
                (alternatives (f_type fld))) as [subs|e] eqn:Hsubs;
      simpl in Hrun; [|discriminate].
    destruct (build_fields env rec name fields) as [more|e]; simpl in Hrun;
      [|discriminate].
    inversion Hrun; subst.
    destruct (IH more eq_refl) as [H1 [H2 [H3 H4]]].
    destruct (@build_alternatives_shape rec name (f_origin fld)
                (fun d t => Hrec d (f_origin fld) t) _ _ Hsubs) as [Hk Hs].
    repeat split.
    + now constructor.
    + constructor; [now constructor|exact H2].
    + simpl. now rewrite H3.
    + simpl. now rewrite H4.
Qed.

Lemma build_returns_class_node (fuel : nat) :
  forall (c : cid) (outer : Datatypes.option pytype) (tree : node),
    build_guide_tree env fuel c outer = Ok tree ->
    guide_shape tree /\
    exists attrs,
      tree = ClassNode (c_name (env c)) (c_module (env c)) outer attrs.
Proof.
  induction fuel as [|fuel IH]; intros c outer tree Hrun; simpl in Hrun;
    [discriminate|].
  destruct (build_fields env (build_guide_tree env fuel) (c_name (env c))
              (c_fields (env c))) as [attrs|e] eqn:Hattrs; simpl in Hrun;
    [|discriminate].
  inversion Hrun; subst.
  destruct (@build_fields_shape (build_guide_tree env fuel) (c_name (env c)))
    with (fields := c_fields (env c)) (nodes := attrs) as [H1 [H2 _]].
  - intros d o t Ht. destruct (IH d o t Ht) as [Hs [kids ->]]. now repeat split.
  - exact Hattrs.
  - split; [now constructor|now exists attrs].
Qed.

(** X11: a tree returned by [build_guide_tree] is a ClassNode carrying the
    name and module of the class and the container it was built under; below
    it ClassNodes and AttributeNodes alternate, every AttributeNode starts
    with an empty value mapping, and every ClassNode under an AttributeNode
    carries the container of that attribute. *)
Theorem build_guide_tree_shape
  (fuel : nat) (c : cid) (outer : Datatypes.option pytype) (tree : node) :
  build_guide_tree env fuel c outer = Ok tree ->
  guide_shape tree /\
  exists attrs,
    tree = ClassNode (c_name (env c)) (c_module (env c)) outer attrs.
Proof. apply build_returns_class_node. Qed.

Lemma build_returns_attributes (fuel : nat) (c : cid)
  (outer : Datatypes.option pytype) (tree : node) :
  build_guide_tree env fuel c outer = Ok tree ->
  map node_name (node_children tree) = map f_name (c_fields (env c)) /\
  map node_outer (node_children tree) = map f_origin (c_fields (env c)) /\
  Forall (fun n => is_attribute n = true /\ node_values n = []) (node_children tree).
Proof.
  intros Hrun. destruct fuel as [|fuel]; simpl in Hrun; [discriminate|].
  destruct (build_fields env (build_guide_tree env fuel) (c_name (env c))
              (c_fields (env c))) as [attrs|e] eqn:Hattrs; simpl in Hrun;
    [|discriminate].
  inversion Hrun; subst. simpl node_children.
  destruct (@build_fields_shape (build_guide_tree env fuel) (c_name (env c)))
    with (fields := c_fields (env c)) (nodes := attrs) as [H1 [H2 [H3 H4]]].
  - intros d o t Ht. destruct (build_returns_class_node _ _ _ Ht) as [Hs [kids ->]].
    now repeat split.
  - exact Hattrs.
  - repeat split; try assumption.
    rewrite Forall_forall in *. intros n Hn. split; [now apply H1|].
    specialize (H1 n Hn). specialize (H2 n Hn).
    inversion H2; subst; [discriminate|reflexivity].
Qed.

(** X12: the children of the root of a returned tree are one AttributeNode per
    declared field, in declaration order, each with the name of its field
    and the container of its field. *)
Theorem build_guide_tree_attributes (fuel : nat) (c : cid)
  (outer : Datatypes.option pytype) (tree : node) :
  build_guide_tree env fuel c outer = Ok tree ->
  map node_name (node_children tree) = map f_name (c_fields (env c)) /\
  map node_outer (node_children tree) = map f_origin (c_fields (env c)) /\
  Forall (fun n => is_attribute n = true /\ node_values n = []) (node_children tree).
Proof. apply build_returns_attributes. Qed.

Lemma build_fields_unknown_container
  (rec : cid -> Datatypes.option pytype -> result node) (name : string)
  (fld : field) (e : pyerr) :
  seed_value (f_origin fld) = Raise e ->
  forall fields, In fld fields ->
                 forall nodes, build_fields env rec name fields <> Ok nodes.
Proof.
  intros Hseed. induction fields as [|f fields IH]; intros Hin nodes; simpl;
    [contradiction|].
  destruct Hin as [->|Hin].
  - rewrite Hseed. discriminate.
  - destruct (seed_value (f_origin f)); simpl; [|discriminate].
    destruct (build_alternatives env rec name (f_origin f) (alternatives (f_type f)));
      simpl; [|discriminate].
    destruct (build_fields env rec name fields) as [more|e'] eqn:Hmore; simpl;
      [|discriminate].
    exfalso. now apply (IH Hin more).
Qed.

(** X13: a class with a field whose container is a builtin other than [list]
    and [dict] (a tuple, a set) has no guide tree: [build_guide_tree] raises
    for it under every recursion limit. *)
Theorem unknown_container_never_builds
  (c : cid) (fld : field) (container : string) :
  In fld (c_fields (env c)) ->
  f_origin fld = Some (PyType "builtins" container) ->
  container <> "list" -> container <> "dict" ->
  forall fuel outer tree, build_guide_tree env fuel c outer <> Ok tree.
Proof.
  intros Hin Horigin Hl Hd fuel outer tree.
  destruct fuel as [|fuel]; simpl; [discriminate|].
  assert (Hseed : seed_value (f_origin fld) = Raise (KeyError container)).
  { rewrite Horigin. unfold seed_value, DEFAULT_MAPPINGS. simpl.
    apply String.eqb_neq in Hl. apply String.eqb_neq in Hd. now rewrite Hl, Hd. }
  destruct (build_fields env (build_guide_tree env fuel) (c_name (env c))
              (c_fields (env c))) as [attrs|e] eqn:Hattrs; simpl; [|discriminate].
  exfalso.
  now apply (@build_fields_unknown_container (build_guide_tree env fuel)
               (c_name (env c)) fld _ Hseed (c_fields (env c)) Hin attrs).
Qed.
End BuilderMore.

Lemma build_guide_tree_shape_witness :
  guide_shape Demo.holder_tree /\
  exists attrs, Demo.holder_tree = ClassNode "Holder" "libA" None attrs.
Proof.
  exact (@build_guide_tree_shape Demo.env 3 Demo.Holder None Demo.holder_tree eq_refl).
Defined.

Lemma build_guide_tree_attributes_witness :
  map node_name (node_children Demo.sample_tree) = ["temp"; "kind"] /\
  map node_outer (node_children Demo.sample_tree) = [None; None] /\
  Forall (fun n => is_attribute n = true /\ node_values n = [])
    (node_children Demo.sample_tree).
Proof.
  exact (@build_guide_tree_attributes Demo.env 2 Demo.Sample None Demo.sample_tree
           eq_refl).
Defined.

Lemma unknown_container_never_builds_witness :
  build_guide_tree
    (fun _ => ClassDecl "Pair" "demo"
                [Field "both" (TSingle APrim) (Some (PyType "builtins" "tuple")) []])
    3 0 None
  = Raise (KeyError "tuple") /\
  build_guide_tree
    (fun _ => ClassDecl "Pair" "demo"
                [Field "both" (TSingle APrim) (Some (PyType "builtins" "tuple")) []])
    3 0 None
  <> Ok (ClassNode "Pair" "demo" None [AttributeNode "both" None [] []]).
Proof.
  split; [reflexivity|].
  refine (@unknown_container_never_builds
            (fun _ => ClassDecl "Pair" "demo"
                        [Field "both" (TSingle APrim)
                           (Some (PyType "builtins" "tuple")) []])
            0 (Field "both" (TSingle APrim) (Some (PyType "builtins" "tuple")) [])
            "tuple" (or_introl eq_refl) eq_refl _ _ 3 None _); discriminate.
Defined.

(** ** More on the discovery of roots from annotations *)

Lemma sbind_ok_inv {A B} (m : st A) (k : A -> st B) (roots roots' : roots_t) (b : B) :
  sbind m k roots = (roots', Ok b) ->
  exists a roots1, m roots = (roots1, Ok a) /\ k a roots1 = (roots', Ok b).
Proof.
  unfold sbind. destruct (m roots) as [roots1 [a|e]]; [|discriminate].
  intros H. now exists a, roots1.
Qed.

Section ExtractMore.
Variable env : cid -> class_decl.
Variable re_match : string -> string -> result bool.
Variable py_str : value -> string.
Variable resolve : string -> string -> result cid.
Variable fs : string -> Datatypes.option yaml.
Variable built : Type.
Variable build : node -> built.

Lemma extract_fields_never_returns (fuel : nat) (option : string)
  (rec : cid -> st unit) (fld : field) (d : cid) :
  f_type fld = TSingle (AModel d) ->
  (forall roots roots', rec d roots <> (roots', Ok tt)) ->
  forall fields, In fld fields ->
    forall roots roots',
      extract_fields env resolve fuel option rec fields roots <> (roots', Ok tt).
Proof.
  intros Hty Hrec. induction fields as [|f fields IH]; intros Hin roots roots' Hrun;
    [contradiction|].
  simpl in Hrun.
  apply sbind_ok_inv in Hrun. destruct Hrun as [a [r1 [_ Hrun]]].
  apply sbind_ok_inv in Hrun. destruct Hrun as [[] [r2 [Hnest Hrun]]].
  destruct Hin as [->|Hin].
  - rewrite Hty in Hnest. now apply (Hrec r1 r2).
  - now apply (IH Hin r2 roots').
Qed.

Section Cyclic.
(** a set of schema types each of which has a field of a single model type
    from the set again: the types from which nesting never ends *)
Variable endless : cid -> Prop.
Hypothesis endless_nests :
  forall x, endless x ->
            exists fld y, In fld (c_fields (env x)) /\
                          f_type fld = TSingle (AModel y) /\ endless y.

Lemma extract_roots_never_returns (option : string) (fuel : nat) :
  forall c roots roots',
    endless c -> _extract_roots env resolve fuel option c roots <> (roots', Ok tt).
Proof.
  induction fuel as [|fuel IH]; intros c roots roots' Hc; simpl; [discriminate|].
  destruct (endless_nests Hc) as [fld [y [Hin [Hty Hy]]]].
  apply (@extract_fields_never_returns fuel option (_extract_roots env resolve fuel option)
           fld y Hty); [|exact Hin].
  intros r r'. now apply IH.
Qed.

(** X14: the scan of the annotations has no guard against a schema type that
    nests itself, directly or through other types: for an instance of such a
    type [convert_data_model] never returns a result, under any recursion
    limit, with or without a template. *)
Theorem self_nesting_source_never_converts
  (c : cid) (attrs : list (string * value)) :
  endless c ->
  forall fuel option path shared shared' out,
    convert_data_model env re_match py_str resolve fs build fuel
      (VObj c attrs) option path shared
    <> (shared', Ok out).
Proof.
  intros Hc fuel option path shared shared' out.
  unfold convert_data_model. destruct (load_template fs path); [|discriminate].
  unfold convert_loaded, discover_roots.
  destruct (_extract_roots_from_template env resolve fuel a); [|discriminate].
  destruct (_extract_roots env resolve fuel option c shared) as [s [[]|e]] eqn:Hx;
    [|discriminate].
  exfalso. now apply (@extract_roots_never_returns option fuel c shared s Hc).
Qed.
End Cyclic.

(** the root of every annotation of the class [c] and of the classes nested
    in it has an entry *)
Let covered (option : string) (c : cid) (roots : roots_t) : Prop :=
  forall d fld tp,
    nests env c d -> In fld (c_fields (env d)) ->
    dict_get String.eqb option (f_extra fld) = Some tp ->
    root_present tp roots.

Let grows (roots roots' : roots_t) : Prop :=
  forall k, dict_mem String.eqb k roots = true -> dict_mem String.eqb k roots' = true.

Lemma extract_fields_covers (fuel : nat) (option : string) (rec : cid -> st unit) :
  (forall d roots, grows roots (fst (rec d roots))) ->
  (forall d roots roots', rec d roots = (roots', Ok tt) -> covered option d roots') ->
  forall fields roots roots',
    extract_fields env resolve fuel option rec fields roots = (roots', Ok tt) ->
    grows roots roots' /\
    forall fld, In fld fields ->
      (forall tp, dict_get String.eqb option (f_extra fld) = Some tp ->
                  root_present tp roots') /\
      (forall d, f_type fld = TSingle (AModel d) -> covered option d roots').
Proof.
  intros Hgrow Hrec. induction fields as [|f fields IH]; intros roots roots' Hrun.
  - simpl in Hrun. inversion Hrun; subst. split; [now intros k|now intros fld []].
  - simpl in Hrun.
    apply sbind_ok_inv in Hrun. destruct Hrun as [[] [r1 [Hann Hrun]]].
    apply sbind_ok_inv in Hrun. destruct Hrun as [[] [r2 [Hnest Hrun]]].
    destruct (IH _ _ Hrun) as [Hg2 Hcov].
    assert (Hg1 : grows r1 r2).
    { destruct (f_type f) as [[|d]|alts];
        try (inversion Hnest; subst; now intros k).
      pose proof (Hgrow d r1) as Hd. now rewrite Hnest in Hd. }
    assert (Hg0 : grows roots r1 /\
                  forall tp, dict_get String.eqb option (f_extra f) = Some tp ->
                             root_present tp r1).
    { destruct (dict_get String.eqb option (f_extra f)) as [tp|].
      - apply sbind_ok_inv in Hann. destruct Hann as [r [r0 [Hb Hset]]].
        unfold lift in Hb. injection Hb as Hr0 Hbuild. subst r0.
        cbv beta in Hset. injection Hset as Hr1. subst r1.
        split; [intros k; apply dict_mem_set, str_eqb_spec|].
        intros tp' Heq. inversion Heq; subst tp'.
        destruct (@build_root_ok env resolve fuel (PyStr.split tp) r Hbuild)
          as [[lib Hun] _].
        exists lib, (fst r), (snd r). split; [exact Hun|].
        apply dict_get_set_same, str_eqb_spec.
      - inversion Hann; subst. split; [now intros k|discriminate]. }
    destruct Hg0 as [Hg0 Hhere].
    split; [intros k Hk; now apply Hg2, Hg1, Hg0|].
    intros fld [<-|Hin]; [|now apply Hcov].
    split.
    + intros tp Htp. apply root_present_keeps with r1;
        [intros k Hk; now apply Hg2, Hg1|now apply Hhere].
    + intros d Hty. rewrite Hty in Hnest.
      intros e fld' tp He Hin' Htp.
      apply root_present_keeps with r2; [exact Hg2|].
      now apply (Hrec d r1 r2 Hnest e fld' tp).
Qed.

(** X15: when the scan of the annotations returns, the root named by every
    annotation for the option, on a field of the source class or of a class
    nested in it through fields of a single model type, has an entry in the
    dictionary, and no entry that was there before has gone. *)
Theorem annotated_roots_are_discovered (option : string) (fuel : nat) :
  forall c roots roots',
    _extract_roots env resolve fuel option c roots = (roots', Ok tt) ->
    (forall k, dict_mem String.eqb k roots = true ->
               dict_mem String.eqb k roots' = true) /\
    (forall d fld tp,
        nests env c d -> In fld (c_fields (env d)) ->
        dict_get String.eqb option (f_extra fld) = Some tp ->
        root_present tp roots').
Proof.
  induction fuel as [|fuel IH]; intros c roots roots' Hrun; simpl in Hrun;
    [discriminate|].
  destruct (@extract_fields_covers fuel option (_extract_roots env resolve fuel option))
    with (fields := c_fields (env c)) (roots := roots) (roots' := roots')
    as [Hg Hcov].
  - intros d r. exact (proj2 (extract_roots_kept env resolve option fuel d r)).
  - intros d r r' Hd. exact (proj2 (IH d r r' Hd)).
  - exact Hrun.
  - split; [exact Hg|].
    intros d fld tp Hnest Hin Htp. inversion Hnest; subst.
    + now apply (Hcov fld Hin).
    + destruct (Hcov fld0 H) as [_ Hdeep]. now apply (Hdeep d0 H0 d fld tp).
Qed.
End ExtractMore.

(** a list element pointing to the next one: its guide tree is built, the
    scan of its annotations never ends *)
Lemma self_nesting_source_never_converts_witness :
  build_guide_tree
    (fun _ : cid => ClassDecl "Link" "demo" [Field "next" (TSingle (AModel 0)) None []])
    1 0 None
  = Ok (ClassNode "Link" "demo" None [AttributeNode "next" None [] []]) /\
  convert_data_model
    (fun _ : cid => ClassDecl "Link" "demo" [Field "next" (TSingle (AModel 0)) None []])
    Demo.re_match Demo.py_str Demo.resolve Demo.no_files
    (fun tree : node => tree) 40 (VObj 0 [("next", VPrim PNone)]) "A" None []
  <> ([], Ok []).
Proof.
  split; [reflexivity|].
  refine (@self_nesting_source_never_converts
            (fun _ : cid =>
               ClassDecl "Link" "demo" [Field "next" (TSingle (AModel 0)) None []])
            Demo.re_match Demo.py_str
            Demo.resolve Demo.no_files node (fun tree => tree) (fun _ => True) _
            0 [("next", VPrim PNone)] I 40 "A" None [] [] []).
  intros x _. exists (Field "next" (TSingle (AModel 0)) None []), 0.
  repeat split. now left.
Defined.

Lemma annotated_roots_are_discovered_witness :
  root_present "libA.Sample.temp"
    [("Sample",
      ClassNode "Sample" "libA" None
        [AttributeNode "temp" None [] []; AttributeNode "kind" None [] []])].
Proof.
  refine (proj2 (@annotated_roots_are_discovered Demo.env Demo.resolve "A" 4
                   Demo.Measurement [] _ eq_refl)
            Demo.Measurement Demo.temperature "libA.Sample.temp" _ _ eq_refl).
  - constructor.
  - simpl. right. now left.
Defined.

(** ** Dotted paths: splitting, joining and descending *)

Lemma str_app_assoc (a b c : string) : ((a ++ b) ++ c)%string = (a ++ (b ++ c))%string.
Proof. induction a as [|x a IH]; simpl; [reflexivity|now rewrite IH]. Qed.

Lemma str_app_nil_r (a : string) : (a ++ "")%string = a.
Proof. induction a as [|x a IH]; simpl; [reflexivity|now rewrite IH]. Qed.

Lemma str_app_nil_inv (a b : string) : (a ++ b)%string = "" -> b = "".
Proof. destruct a; simpl; [auto|discriminate]. Qed.

Lemma split_acc_no_dot (s : string) :
  forall acc, has_dot s = false -> PyStr.split_acc acc s = [(acc ++ s)%string].
Proof.
  induction s as [|c s IH]; intros acc Hs; simpl.
  - now rewrite str_app_nil_r.
  - simpl in Hs. apply orb_false_elim in Hs. destruct Hs as [Hc Hs].
    rewrite Hc, (IH _ Hs), str_app_assoc. reflexivity.
Qed.

Lemma split_acc_segment (s rest : string) :
  forall acc, has_dot s = false ->
              PyStr.split_acc acc (s ++ "." ++ rest)
              = (acc ++ s)%string :: PyStr.split_acc "" rest.
Proof.
  induction s as [|c s IH]; intros acc Hs; simpl.
  - now rewrite str_app_nil_r.
  - simpl in Hs. apply orb_false_elim in Hs. destruct Hs as [Hc Hs].
    rewrite Hc. simpl in IH. rewrite (IH _ Hs), str_app_assoc. reflexivity.
Qed.

Lemma split_acc_not_nil (s acc : string) : PyStr.split_acc acc s <> [].
Proof.
  revert acc. induction s as [|c s IH]; intros acc; simpl; [discriminate|].
  destruct (Ascii.eqb c PyStr.dot); [discriminate|apply IH].
Qed.

Lemma join_split_acc (s : string) :
  forall acc, join_dots (PyStr.split_acc acc s) = (acc ++ s)%string.
Proof.
  induction s as [|c s IH]; intros acc; simpl.
  - now rewrite str_app_nil_r.
  - destruct (Ascii.eqb c PyStr.dot) eqn:Hc.
    + apply Ascii.eqb_eq in Hc. subst c.
      specialize (IH ""%string).
      destruct (PyStr.split_acc "" s) as [|p ps] eqn:Hsplit;
        [now apply split_acc_not_nil in Hsplit|].
      change (join_dots (acc :: p :: ps))
        with (acc ++ "." ++ join_dots (p :: ps))%string.
      rewrite IH. reflexivity.
    + rewrite IH, str_app_assoc. reflexivity.
Qed.

(** X16: splitting at the dots and joining with dots are inverse to each other:
    every string is the join of its segments, and a target path put together
    from a module tag, a root name and attribute names without dots is taken
    apart into exactly that root name and those attribute names. *)
Theorem dotted_path_round_trip :
  (forall s, join_dots (PyStr.split s) = s) /\
  (forall names,
      Forall (fun n => has_dot n = false) names -> names <> [] ->
      PyStr.split (join_dots names) = names) /\
  (forall lib root path,
      Forall (fun n => has_dot n = false) (lib :: root :: path) ->
      unpack_target (PyStr.split (join_dots (lib :: root :: path))) = Ok (root, path)).
Proof.
  assert (Hsplit : forall names,
             Forall (fun n => has_dot n = false) names -> names <> [] ->
             PyStr.split (join_dots names) = names).
  { induction names as [|a names IH]; intros Hall Hne; [contradiction|].
    inversion Hall as [|? ? Ha Hrest]; subst.
    destruct names as [|b names].
    - simpl. unfold PyStr.split. now rewrite split_acc_no_dot.
    - change (join_dots (a :: b :: names))
        with (a ++ "." ++ join_dots (b :: names))%string.
      unfold PyStr.split. rewrite split_acc_segment by exact Ha.
      simpl append. f_equal. apply IH; [exact Hrest|discriminate]. }
  repeat split.
  - intros s. unfold PyStr.split. now rewrite join_split_acc.
  - exact Hsplit.
  - intros lib root path Hall. rewrite Hsplit; [reflexivity|exact Hall|discriminate].
Qed.

Lemma dotted_path_round_trip_witness :
  unpack_target (PyStr.split (join_dots ["libA"; "Sample"; "sub"; "bar"]))
  = Ok ("Sample", ["sub"; "bar"]).
Proof.
  refine (proj2 (proj2 dotted_path_round_trip) "libA" "Sample" ["sub"; "bar"] _).
  repeat constructor.
Defined.

Lemma rstrip_no_dot (s : string) : has_dot s = false -> PyStr.rstrip s = s.
Proof.
  induction s as [|c s IH]; intros Hs; simpl; [reflexivity|].
  simpl in Hs. apply orb_false_elim in Hs. destruct Hs as [Hc Hs].
  rewrite (IH Hs). destruct s; [now rewrite Hc|reflexivity].
Qed.

Lemma rstrip_app_plain (p a : string) :
  plain_name a = true -> PyStr.rstrip (p ++ a) = (p ++ a)%string.
Proof.
  intros Ha. unfold plain_name in Ha. apply andb_true_iff in Ha.
  destruct Ha as [Hdot Hne]. apply negb_true_iff in Hdot. apply negb_true_iff in Hne.
  apply String.eqb_neq in Hne.
  induction p as [|c p IH]; simpl; [now apply rstrip_no_dot|].
  rewrite IH. destruct (p ++ a)%string eqn:E; [|reflexivity].
  apply str_app_nil_inv in E. contradiction.
Qed.

Lemma plain_name_head (a : string) :
  plain_name a = true ->
  exists c r, a = String c r /\ Ascii.eqb c PyStr.dot = false.
Proof.
  unfold plain_name. destruct a as [|c r]; simpl; [discriminate|].
  intros H. apply andb_true_iff in H. destruct H as [H _].
  apply negb_true_iff, orb_false_elim in H. destruct H as [Hc _].
  now exists c, r.
Qed.

Lemma child_path_root (a : string) : plain_name a = true -> child_path "" a = a.
Proof.
  intros Ha. unfold child_path, PyStr.strip. simpl.
  destruct (plain_name_head _ Ha) as [c [r [-> Hc]]]. simpl. rewrite Hc.
  now apply (rstrip_app_plain "" (String c r)).
Qed.

Lemma child_path_below (c : ascii) (r a : string) :
  Ascii.eqb c PyStr.dot = false -> plain_name a = true ->
  child_path (String c r) a = (String c r ++ "." ++ a)%string.
Proof.
  intros Hc Ha. unfold child_path, PyStr.strip. simpl. rewrite Hc.
  change (String c (r ++ String "." a))%string
    with (String c r ++ (String "." EmptyString ++ a))%string.
  rewrite <- str_app_assoc. now apply rstrip_app_plain.
Qed.

Lemma join_dots_snoc (pre : list string) (a : string) :
  pre <> [] -> join_dots (pre ++ [a]) = (join_dots pre ++ "." ++ a)%string.
Proof.
  induction pre as [|x pre IH]; intros Hne; [contradiction|].
  destruct pre as [|y pre]; [reflexivity|].
  change (join_dots ((x :: y :: pre) ++ [a]))
    with (x ++ "." ++ join_dots ((y :: pre) ++ [a]))%string.
  rewrite IH by discriminate.
  change (join_dots (x :: y :: pre)) with (x ++ "." ++ join_dots (y :: pre))%string.
  rewrite !str_app_assoc. reflexivity.
Qed.

Lemma join_dots_head (x : string) (names : list string) :
  plain_name x = true ->
  exists c r, join_dots (x :: names) = String c r /\ Ascii.eqb c PyStr.dot = false.
Proof.
  intros Hx. destruct (plain_name_head _ Hx) as [c [r [-> Hc]]].
  destruct names as [|y names]; [now exists c, r|].
  now exists c, (r ++ "." ++ join_dots (y :: names))%string.
Qed.

Lemma descend_join (names : list string) :
  forall pre,
    Forall (fun n => plain_name n = true) pre ->
    Forall (fun n => plain_name n = true) names ->
    descend (join_dots pre) names = join_dots (pre ++ names).
Proof.
  unfold descend.
  induction names as [|a names IH]; intros pre Hpre Hnames; simpl.
  - now rewrite app_nil_r.
  - inversion Hnames as [|? ? Ha Hrest]; subst.
    assert (Hstep : child_path (join_dots pre) a = join_dots (pre ++ [a])).
    { destruct pre as [|x pre].
      - simpl. now apply child_path_root.
      - inversion Hpre as [|? ? Hx _]; subst.
        destruct (@join_dots_head x pre Hx) as [c [r [Hj Hc]]].
        rewrite join_dots_snoc by discriminate. rewrite Hj.
        now apply child_path_below. }
    rewrite Hstep. rewrite IH; [now rewrite <- app_assoc| |exact Hrest].
    apply Forall_app. split; [exact Hpre|now constructor].
Qed.

Lemma split_join_plain (names : list string) :
  Forall (fun n => has_dot n = false) names -> names <> [] ->
  PyStr.split (join_dots names) = names.
Proof.
  induction names as [|a names IH]; intros Hall Hne; [contradiction|].
  inversion Hall as [|? ? Ha Hrest]; subst.
  destruct names as [|b names].
  - simpl. unfold PyStr.split. now rewrite split_acc_no_dot.
  - change (join_dots (a :: b :: names))
      with (a ++ "." ++ join_dots (b :: names))%string.
    unfold PyStr.split. rewrite split_acc_segment by exact Ha.
    simpl append. f_equal. apply IH; [exact Hrest|discriminate].
Qed.

Lemma plain_names_no_dot (names : list string) :
  Forall (fun n => plain_name n = true) names ->
  Forall (fun n => has_dot n = false) names.
Proof.
  apply Forall_impl. intros n Hn. unfold plain_name in Hn.
  apply andb_true_iff in Hn. destruct Hn as [Hn _]. now apply negb_true_iff in Hn.
Qed.

(** lists of plain names with the same join are the same list *)
Lemma join_dots_plain_inj (l1 l2 : list string) :
  Forall (fun n => plain_name n = true) l1 ->
  Forall (fun n => plain_name n = true) l2 ->
  join_dots l1 = join_dots l2 -> l1 = l2.
Proof.
  intros H1 H2 Heq.
  destruct l1 as [|x l1], l2 as [|y l2]; [reflexivity| | |].
  - inversion H2 as [|? ? Hy _]; subst.
    destruct (@join_dots_head y l2 Hy) as [c [r [Hj _]]].
    rewrite Hj in Heq. discriminate.
  - inversion H1 as [|? ? Hx _]; subst.
    destruct (@join_dots_head x l1 Hx) as [c [r [Hj _]]].
    rewrite Hj in Heq. discriminate.
  - rewrite <- (@split_join_plain (x :: l1) (plain_names_no_dot H1))
      by discriminate.
    rewrite <- (@split_join_plain (y :: l2) (plain_names_no_dot H2))
      by discriminate.
    now rewrite Heq.
Qed.

Lemma filter_all {A} (p : A -> bool) (l : list A) :
  filter p l = l <-> Forall (fun a => p a = true) l.
Proof.
  induction l as [|a l IH]; simpl; [split; [constructor|reflexivity]|].
  destruct (p a) eqn:E.
  - split.
    + intros H. inversion H as [Hl]. rewrite Hl. constructor; [exact E|].
      now apply IH.
    + intros H. inversion H; subst. f_equal. now apply IH.
  - split.
    + intros H. pose proof (filter_length_le p l) as Hle.
      rewrite H in Hle. simpl in Hle. lia.
    + intros H. inversion H; subst. congruence.
Qed.

(** the class names on a tree path are dropped from the symbolic path when
    they do not start with a lowercase letter *)
Lemma class_path_filter (root : string) (steps : list (string * string)) :
  PyStr.initial_islower root = false ->
  Forall (fun s => PyStr.initial_islower (snd s) = false) steps ->
  filter PyStr.initial_islower (class_path root steps)
  = filter PyStr.initial_islower (map fst steps).
Proof.
  intros Hroot Hsteps. unfold class_path. simpl. rewrite Hroot.
  induction Hsteps as [|[a c] steps Hc _ IH]; simpl; [reflexivity|].
  simpl in Hc. rewrite Hc.
  destruct (PyStr.initial_islower a); [now rewrite IH|exact IH].
Qed.

(** X17: the walk extends its attribute path by every attribute it descends
    through, while [_get_path] keeps of a tree path the names that start
    with a lowercase letter.  For a ClassNode reached through attributes
    with plain names and classes whose names do not start with a lowercase
    letter, the key under which [generate_template] files the node is the
    path that the walk looks up exactly when every attribute on the way
    starts with a lowercase letter. *)
Theorem symbolic_path_matches_walk_path
  (root : string) (steps : list (string * string)) :
  PyStr.initial_islower root = false ->
  Forall (fun s => plain_name (fst s) = true /\
                   PyStr.initial_islower (snd s) = false) steps ->
  (descend "" (map fst steps) = _get_path (class_path root steps)
   <-> Forall (fun s => PyStr.initial_islower (fst s) = true) steps).
Proof.
  intros Hroot Hsteps.
  assert (Hplain : Forall (fun n => plain_name n = true) (map fst steps)).
  { apply Forall_map. revert Hsteps. apply Forall_impl. now intros s [Hs _]. }
  assert (Hcls : Forall (fun s => PyStr.initial_islower (snd s) = false) steps).
  { revert Hsteps. apply Forall_impl. now intros s [_ Hs]. }
  assert (Hwalk : descend "" (map fst steps) = join_dots (map fst steps)).
  { exact (@descend_join (map fst steps) [] (Forall_nil _) Hplain). }
  unfold _get_path. rewrite Hwalk, (@class_path_filter root steps Hroot Hcls).
  rewrite <- Forall_map with (f := fst) (P := fun a => PyStr.initial_islower a = true).
  rewrite <- filter_all. split.
  - intros Heq. symmetry. apply join_dots_plain_inj; [exact Hplain| |exact Heq].
    clear - Hplain. induction Hplain as [|a l Ha _ IH]; simpl; [constructor|].
    destruct (PyStr.initial_islower a); [now constructor|exact IH].
  - intros Hall. now rewrite Hall.
Qed.

Lemma symbolic_path_matches_walk_path_witness :
  descend "" ["sub"; "bar"] = _get_path ["Sample"; "sub"; "Sub"; "bar"; "Bar"] /\
  (descend "" ["Meta"; "x"] = _get_path ["Holder"; "Meta"; "Info"; "x"; "Alpha"] ->
   False) /\
  descend "" ["Meta"; "x"] = "Meta.x"%string /\
  _get_path ["Holder"; "Meta"; "Info"; "x"; "Alpha"] = "x"%string.
Proof.
  split; [|split; [|split; reflexivity]].
  - refine (proj2 (@symbolic_path_matches_walk_path "Sample"
                     [("sub", "Sub"); ("bar", "Bar")] eq_refl _) _);
      repeat constructor.
  - intros Heq.
    assert (Hall : Forall (fun s : string * string =>
                             PyStr.initial_islower (fst s) = true)
                     [("Meta", "Info"); ("x", "Alpha")]).
    { refine (proj1 (@symbolic_path_matches_walk_path "Holder"
                       [("Meta", "Info"); ("x", "Alpha")] eq_refl _) Heq).
      repeat constructor. }
    inversion Hall as [|? ? Hhead _]. discriminate Hhead.
Defined.

(** ** [generate_template] *)

Lemma height_child (n c : node) (i : nat) :
  nth_error (node_children n) i = Some c -> height c < height n.
Proof.
  assert (H : forall cs j,
             nth_error cs j = Some c ->
             height c <=
             (fix tallest (cs : list node) : nat :=
                match cs with
                | [] => 0
                | c :: cs' => Nat.max (height c) (tallest cs')
                end) cs).
  { induction cs as [|a cs IH]; intros [|j] Hj; simpl in Hj; try discriminate.
    - inversion Hj; subst. apply Nat.le_max_l.
    - etransitivity; [apply (IH j Hj)|apply Nat.le_max_r]. }
  intros Hnth. destruct n; simpl in *; specialize (H _ _ Hnth); lia.
Qed.

Lemma node_at_height (pos : position) :
  forall n m, node_at n pos = Some m -> length pos < height n.
Proof.
  induction pos as [|i pos IH]; intros n m Hat; simpl in *.
  - destruct n; simpl; lia.
  - destruct (nth_error (node_children n) i) as [c|] eqn:Hnth; [|discriminate].
    pose proof (height_child _ _ Hnth). pose proof (IH _ _ Hat). lia.
Qed.

Lemma level_reaches (pos : position) :
  forall n pre m,
    node_at n pos = Some m ->
    In (pre ++ path_names n pos, m) (level (length pos) pre n).
Proof.
  induction pos as [|i pos IH]; intros n pre m Hat; simpl in Hat.
  - inversion Hat; subst. simpl. now left.
  - destruct (nth_error (node_children n) i) as [c|] eqn:Hnth; [|discriminate].
    simpl length. simpl level. apply in_flat_map. exists c.
    split; [now apply nth_error_In with i|].
    simpl path_names. rewrite Hnth.
    replace (pre ++ node_name n :: path_names c pos)
      with ((pre ++ [node_name n]) ++ path_names c pos)
      by (now rewrite <- app_assoc).
    now apply IH.
Qed.

(** the level-order iteration meets every node of the tree, with the names
    on its path *)
Lemma level_order_reaches (tree : node) (pos : position) (m : node) :
  node_at tree pos = Some m -> In (path_names tree pos, m) (LevelOrderIter tree).
Proof.
  intros Hat. unfold LevelOrderIter. apply in_flat_map. exists (length pos).
  split.
  - apply in_seq. pose proof (node_at_height _ _ Hat). lia.
  - exact (level_reaches pos tree [] Hat).
Qed.

Lemma template_step_keeps (simple : bool) (p : string)
  (t : list (string * yaml)) (item : list string * node) :
  (exists cs, dict_get String.eqb p t = Some (template_entry simple cs)) ->
  exists cs, dict_get String.eqb p (template_step simple t item)
             = Some (template_entry simple cs).
Proof.
  intros [cs Hget]. unfold template_step.
  destruct (negb (is_attribute (snd item)) && negb (_get_path (fst item) =? ""));
    [|now exists cs].
  destruct (String.eqb p (_get_path (fst item))) eqn:E.
  - apply String.eqb_eq in E. subst p. eexists.
    apply dict_get_set_same, str_eqb_spec.
  - exists cs. rewrite (@dict_get_set_other _ _ String.eqb str_eqb_spec);
      [exact Hget|]. now apply String.eqb_neq.
Qed.

Lemma template_fold_keeps (simple : bool) (p : string)
  (items : list (list string * node)) :
  forall t,
    (exists cs, dict_get String.eqb p t = Some (template_entry simple cs)) ->
    exists cs, dict_get String.eqb p (fold_left (template_step simple) items t)
               = Some (template_entry simple cs).
Proof.
  induction items as [|x items IH]; intros t Ht; simpl; [exact Ht|].
  apply IH. now apply template_step_keeps.
Qed.

Lemma template_fold_sets (simple : bool) (item : list string * node)
  (items : list (list string * node)) :
  In item items ->
  is_attribute (snd item) = false -> _get_path (fst item) <> "" ->
  forall t,
    exists cs, dict_get String.eqb (_get_path (fst item))
                 (fold_left (template_step simple) items t)
               = Some (template_entry simple cs).
Proof.
  intros Hin Hcls Hpath.
  induction items as [|x items IH]; intros t; [contradiction|]. simpl.
  destruct Hin as [->|Hin]; [|now apply IH].
  apply template_fold_keeps. unfold template_step. rewrite Hcls.
  apply String.eqb_neq in Hpath. rewrite Hpath. simpl.
  eexists. apply dict_get_set_same, str_eqb_spec.
Qed.

(** X18: the template skeleton has an entry for every ClassNode of the tree
    whose symbolic path is not empty, under that path: a flat map of
    placeholders in the simple form, a list of one rule otherwise (written
    for the last ClassNode met with that path). *)
Theorem class_paths_get_entries
  (tree : node) (obj_name : string) (simple : bool) (pos : position) (n : node) :
  node_at tree pos = Some n ->
  is_attribute n = false ->
  _get_path (path_names tree pos) <> "" ->
  exists cs,
    dict_get String.eqb (_get_path (path_names tree pos))
      (generate_template tree obj_name simple)
    = Some (template_entry simple cs).
Proof.
  intros Hat Hcls Hpath. unfold generate_template.
  exact (@template_fold_sets simple (path_names tree pos, n) (LevelOrderIter tree)
           (level_order_reaches tree pos Hat) Hcls Hpath _).
Qed.

Lemma class_paths_get_entries_witness :
  dict_get String.eqb "x" (generate_template Demo.holder_tree "Holder" true)
  = Some (YMap [("name", placeholder)]).
Proof.
  destruct (@class_paths_get_entries Demo.holder_tree "Holder" true [0; 0]
              (ClassNode "Alpha" "libA" None [AttributeNode "name" None [] []])
              eq_refl eq_refl) as [cs Hget].
  - discriminate.
  - reflexivity.
Defined.

Lemma template_step_simple (t : list (string * yaml)) (item : list string * node) :
  Forall (fun kv => is_rule_list (snd kv) = false) t ->
  Forall (fun kv => is_rule_list (snd kv) = false) (template_step true t item).
Proof.
  intros Ht. unfold template_step.
  destruct (negb (is_attribute (snd item)) && negb (_get_path (fst item) =? ""));
    [|exact Ht].
  rewrite Forall_forall in *. intros [k v] Hin.
  destruct (@dict_set_in _ _ String.eqb str_eqb_spec _ _ _ _ _ Hin) as [Heq|Hold].
  - inversion Heq; subst. reflexivity.
  - now apply Ht.
Qed.

Lemma generate_template_simple (tree : node) (obj_name : string) :
  Forall (fun kv => is_rule_list (snd kv) = false)
    (generate_template tree obj_name true).
Proof.
  unfold generate_template.
  assert (Hfold : forall items t,
             Forall (fun kv => is_rule_list (snd kv) = false) t ->
             Forall (fun kv => is_rule_list (snd kv) = false)
               (fold_left (template_step true) items t)).
  { induction items as [|x items IH]; intros t Ht; simpl; [exact Ht|].
    apply IH. now apply template_step_simple. }
  apply Hfold. rewrite Forall_forall. intros [k v] Hin.
  destruct (@dict_set_in _ _ String.eqb str_eqb_spec _ _ _ _ _ Hin) as [Heq|Hold].
  - inversion Heq; subst. reflexivity.
  - destruct Hold as [Heq|[Heq|[]]]; inversion Heq; subst; reflexivity.
Qed.

Section TemplateUse.
Variable env : cid -> class_decl.
Variable re_match : string -> string -> result bool.
Variable py_str : value -> string.

Lemma check_rejects_non_list (obj : value) (path : string) (template entry : yaml) :
  Yaml.get template path = Ok (Some entry) ->
  is_rule_list entry = false -> Yaml.falsy entry = false ->
  _check_matching_target env re_match py_str obj path template = Raise TypeError.
Proof.
  intros Hget Hlist Hfalsy. unfold _check_matching_target. rewrite Hget. simpl.
  rewrite Hfalsy. destruct entry as [s|kvs|items]; [| |discriminate].
  - destruct s as [|c s]; [discriminate|reflexivity].
  - destruct kvs as [|[k v] kvs]; [discriminate|reflexivity].
Qed.

(** X19: no entry of a template skeleton written in the simple form can be
    used as it is laid out: for every path under which the skeleton holds a
    non-empty entry, the resolution of the active targets raises TypeError,
    for every candidate object. *)
Theorem simple_template_is_rejected
  (tree : node) (obj_name : string) (obj : value) (path : string) (entry : yaml) :
  dict_get String.eqb path (generate_template tree obj_name true) = Some entry ->
  Yaml.falsy entry = false ->
  _check_matching_target env re_match py_str obj path
    (YMap (generate_template tree obj_name true))
  = Raise TypeError.
Proof.
  intros Hget Hfalsy. apply check_rejects_non_list with entry.
  - simpl. now rewrite Hget.
  - pose proof (generate_template_simple tree obj_name) as Hall.
    rewrite Forall_forall in Hall.
    apply (Hall (path, entry)).
    now apply (@dict_get_in _ _ String.eqb str_eqb_spec).
  - exact Hfalsy.
Qed.
End TemplateUse.

Lemma simple_template_is_rejected_witness :
  _check_matching_target Demo.env Demo.re_match Demo.py_str Demo.glass_sample "x"
    (YMap (generate_template Demo.holder_tree "Holder" true))
  = Raise TypeError.
Proof.
  exact (@simple_template_is_rejected Demo.env Demo.re_match Demo.py_str
           Demo.holder_tree "Holder" Demo.glass_sample "x"
           (YMap [("name", placeholder)]) eq_refl eq_refl).
Defined.

(** ** Resolution of a one-segment node path, and a whole conversion *)

Lemma names_eqb_eq (a : list string) : forall b, names_eqb a b = true <-> a = b.
Proof.
  induction a as [|x a IH]; intros [|y b]; simpl; split; try discriminate;
    try reflexivity.
  - intros H. apply andb_true_iff in H. destruct H as [Hx Hab].
    apply String.eqb_eq in Hx. apply IH in Hab. now subst.
  - intros H. inversion H; subst. rewrite String.eqb_refl. now apply IH.
Qed.

Lemma findall_children_nil (chain path : list string) (cs : list node) :
  (forall c, In c cs -> findall_from chain path c = []) ->
  forall i, findall_children chain path i cs = [].
Proof.
  induction cs as [|c cs IH]; intros Hall i; simpl; [reflexivity|].
  rewrite (Hall c (or_introl eq_refl)). simpl. apply IH.
  intros c' Hin. apply Hall. now right.
Qed.

Lemma findall_children_app (chain path : list string) (l1 l2 : list node) :
  forall i,
    findall_children chain path i (l1 ++ l2) =
    findall_children chain path i l1 ++
    findall_children chain path (i + length l1) l2.
Proof.
  induction l1 as [|c l1 IH]; intros i; simpl.
  - now rewrite Nat.add_0_r.
  - rewrite IH, <- app_assoc. now rewrite Nat.add_succ_r.
Qed.

(** below a node whose names are no initial segment of the path, nothing is
    found *)
Lemma findall_from_off_path (path : list string) (n : node) :
  forall chain, (forall r, path <> chain ++ r) -> findall_from chain path n = [].
Proof.
  induction n as [n IH] using node_children_ind. intros chain Hoff.
  rewrite findall_from_unfold.
  assert (Hoff' : forall r, path <> extend_chain chain n ++ r).
  { unfold extend_chain. destruct (PyStr.initial_islower (node_name n));
      [|exact Hoff].
    intros r Heq. apply (Hoff (node_name n :: r)).
    now rewrite Heq, <- app_assoc. }
  unfold _search_by_path.
  destruct (names_eqb (extend_chain chain n) path) eqn:E.
  - apply names_eqb_eq in E. exfalso. apply (Hoff' []). now rewrite app_nil_r.
  - simpl. apply findall_children_nil. intros c Hin.
    rewrite Forall_forall in IH. now apply IH.
Qed.

Lemma findall_first_level (tree k : node) (before after : list node) (a : string) :
  PyStr.initial_islower (node_name tree) = false ->
  node_children tree = before ++ k :: after ->
  node_name k = a -> PyStr.initial_islower a = true ->
  Forall (fun b => PyStr.initial_islower (node_name b) = true /\ node_name b <> a)
    before ->
  exists rest, findall tree [a] = [length before] :: rest.
Proof.
  intros Hroot Hkids Hk Ha Hbefore. unfold findall.
  rewrite findall_from_unfold.
  assert (Hc0 : extend_chain [] tree = [])
    by (unfold extend_chain; now rewrite Hroot).
  rewrite Hc0. change (_search_by_path [a] []) with false. cbv iota. simpl app.
  rewrite Hkids, findall_children_app, findall_children_nil.
  - simpl. rewrite findall_from_unfold.
    assert (Hck : extend_chain [] k = [a])
      by (unfold extend_chain; rewrite Hk, Ha; reflexivity).
    rewrite Hck. unfold _search_by_path.
    rewrite (proj2 (names_eqb_eq [a] [a]) eq_refl). simpl. eexists. reflexivity.
  - intros b Hin. rewrite Forall_forall in Hbefore.
    destruct (Hbefore b Hin) as [Hlow Hne].
    assert (Hcb : extend_chain [] b = [node_name b])
      by (unfold extend_chain; now rewrite Hlow).
    rewrite findall_from_unfold, Hcb. unfold _search_by_path.
    destruct (names_eqb [node_name b] [a]) eqn:E.
    + apply names_eqb_eq in E. inversion E. contradiction.
    + simpl. apply findall_children_nil. intros c _.
      apply findall_from_off_path. intros r Heq. simpl in Heq. congruence.
Qed.

(** X9: in a tree whose root does not start with a lowercase letter, a node
    path of one segment goes to the first child of the root with that name,
    provided the children before it have lowercase-initial names. *)
Theorem one_segment_path_is_first_level
  (tree k : node) (before after : list node) (a : string) :
  PyStr.initial_islower (node_name tree) = false ->
  node_children tree = before ++ k :: after ->
  node_name k = a -> PyStr.initial_islower a = true ->
  Forall (fun b => PyStr.initial_islower (node_name b) = true /\ node_name b <> a)
    before ->
  exists rest, findall tree [a] = [length before] :: rest.
Proof. apply findall_first_level. Qed.

Lemma one_segment_path_is_first_level_witness :
  exists rest, findall Demo.sample_tree ["kind"] = [1] :: rest.
Proof.
  refine (@one_segment_path_is_first_level Demo.sample_tree
            (AttributeNode "kind" None [] []) [AttributeNode "temp" None [] []] []
            "kind" eq_refl eq_refl eq_refl eq_refl _).
  repeat constructor. discriminate.
Defined.

Lemma map_names_split {A} (f : A -> string) (g : node -> string)
  (kids : list node) (before : list A) (x : A) (after : list A) :
  map g kids = map f (before ++ x :: after) ->
  exists kb k ka,
    kids = kb ++ k :: ka /\ map g kb = map f before /\ g k = f x /\
    length kb = length before.
Proof.
  rewrite map_app. simpl. intros H.
  apply map_eq_app in H. destruct H as [kb [rest [-> [Hb Hrest]]]].
  apply map_eq_cons in Hrest. destruct Hrest as [k [ka [-> [Hk _]]]].
  exists kb, k, ka. repeat split; try assumption.
  rewrite <- (length_map g kb), Hb. apply length_map.
Qed.

Section WholeConversion.
Variable env : cid -> class_decl.
Variable re_match : string -> string -> result bool.
Variable py_str : value -> string.
Variable resolve : string -> string -> result cid.
Variable fs : string -> Datatypes.option yaml.
Variable built : Type.
Variable build : node -> built.

(** X1: a source class with one leaf field, annotated for the option with the
    path of a first-level attribute of a target class, is converted without a
    template into one instance of the target class: the value is found in
    the AttributeNode of that attribute under the key [".0"], as its only
    entry, and the tree has kept the nodes, names and containers of the
    fresh guide tree. *)
Theorem flat_annotation_is_converted
  (c r : cid) (fa fg : field) (before after : list field)
  (option tp lib root : string) (attrs : list (string * value)) (v : value)
  (fuel : nat) (tree : node) :
  c_fields (env c) = [fa] ->
  type_has_fields (f_type fa) = false ->
  dict_get String.eqb option (f_extra fa) = Some tp ->
  PyStr.split tp = [lib; root; f_name fg] ->
  resolve lib root = Ok r ->
  build_guide_tree env fuel r None = Ok tree ->
  PyStr.initial_islower (c_name (env r)) = false ->
  c_fields (env r) = before ++ fg :: after ->
  PyStr.initial_islower (f_name fg) = true ->
  Forall (fun b => PyStr.initial_islower (f_name b) = true /\ f_name b <> f_name fg)
    before ->
  getattr (VObj c attrs) (f_name fa) = Ok v -> is_leaf_value v = true ->
  exists tree' o kids,
    convert_data_model env re_match py_str resolve fs build (S fuel)
      (VObj c attrs) option None []
    = ([(root, tree')], Ok [build tree']) /\
    node_at tree' [length before]
    = Some (AttributeNode (f_name fg) o [(IStr ".0", v)] kids) /\
    skeleton tree' = skeleton tree.
Proof.
  intros Hfields Hty Hann Hsplit Hres Hbuild Hcap Hrfields Hlow Hbefore Hget Hleaf.
  (* the guide tree of the target class *)
  destruct (build_returns_class_node _ _ _ _ Hbuild) as [_ [kids0 Htree]].
  destruct (build_returns_attributes _ _ _ _ Hbuild) as [Hnames [_ Hattrs]].
  rewrite Hrfields in Hnames.
  destruct (map_names_split _ _ _ _ _ _ Hnames) as [kb [k [ka [Hkids [Hkb [Hk Hlen]]]]]].
  assert (Hkb' : Forall (fun b => PyStr.initial_islower (node_name b) = true /\
                                  node_name b <> f_name fg) kb).
  { apply (Forall_map node_name
             (fun s => PyStr.initial_islower s = true /\ s <> f_name fg)).
    rewrite Hkb. now apply Forall_map. }
  assert (Hroot : PyStr.initial_islower (node_name tree) = false)
    by (rewrite Htree; exact Hcap).
  destruct (@findall_first_level tree k kb ka (f_name fg) Hroot Hkids Hk Hlow Hkb')
    as [rest Hfind].
  assert (Hkattr : exists o kids, k = AttributeNode (f_name fg) o [] kids).
  { rewrite Forall_forall in Hattrs.
    destruct (Hattrs k) as [Ha Hv]; [rewrite Hkids; apply in_elt|].
    destruct k; simpl in *; [discriminate|]. subst. now eexists _, _. }
  destruct Hkattr as [o [kids ->]].
  assert (Hat : node_at tree [length kb] = Some (AttributeNode (f_name fg) o [] kids)).
  { simpl. rewrite Hkids. rewrite nth_error_app2 by lia.
    now rewrite Nat.sub_diag. }
  destruct (@assign_first_match [f_name fg] tree v (IStr ".0") _ _ _ _ _ _ Hfind Hat)
    as [tree' [Hassign [Hat' _]]].
  exists tree', o, kids.
  (* the scan of the annotations *)
  assert (Hextract : _extract_roots env resolve (S fuel) option c []
                     = ([(root, tree)], Ok tt)).
  { simpl. rewrite Hfields. simpl. unfold sbind at 1. rewrite Hann.
    unfold sbind at 1, lift at 1. unfold build_root. rewrite Hsplit. simpl.
    rewrite Hres. simpl. rewrite Hbuild. simpl.
    destruct (f_type fa) as [[|d]|alts]; try reflexivity. discriminate. }
  (* the walk *)
  assert (Hwalk : _convert_tree env re_match py_str (S fuel) option Yaml.empty
                    (VObj c attrs) 0 "" Yaml.empty [(root, tree)]
                  = ([(root, tree')], Ok tt)).
  { simpl _convert_tree. rewrite Hfields.
    rewrite (@convert_fields_leaf env re_match py_str option Yaml.empty
               (_convert_tree env re_match py_str fuel option Yaml.empty)
               (VObj c attrs) 0 "" fa [] Yaml.empty v [(root, tree)] Hget).
    - unfold assign_leaf.
      change (Yaml.contains (f_name fa) Yaml.empty) with false. cbv iota.
      rewrite Hann. unfold sbind, sret, write_value. rewrite Hsplit.
      change (unpack_target [lib; root; f_name fg]) with (Ok (root, [f_name fg])).
      cbv iota beta. simpl dict_get. rewrite String.eqb_refl.
      change ("" ++ "." ++ PyStr.of_nat 0)%string with ".0".
      rewrite Hassign. simpl. now rewrite String.eqb_refl.
    - rewrite Hty. apply andb_false_r.
    - exact Hleaf. }
  repeat split.
  - unfold convert_data_model, load_template, convert_loaded, discover_roots.
    change (_extract_roots_from_template env resolve (S fuel) Yaml.empty)
      with (@Ok roots_t []).
    rewrite Hextract. unfold merge_roots. simpl dict_update.
    rewrite Hwalk. unfold write_back. simpl. now rewrite String.eqb_refl.
  - rewrite <- Hlen. exact Hat'.
  - unfold _assign_primitive_data_to_node in Hassign. rewrite Hfind in Hassign.
    now apply (@update_at_skeleton _ _ _ _ _ Hassign).
Qed.
End WholeConversion.

Lemma flat_annotation_is_converted_witness :
  let world := fun n : cid =>
    match n with
    | 0 => ClassDecl "Reading" "demo"
             [Field "temperature" (TSingle APrim) None [("A", "libA.Sample.kind")]]
    | _ => Demo.env Demo.Sample
    end in
  exists tree' o kids,
    convert_data_model world Demo.re_match Demo.py_str Demo.resolve Demo.no_files
      (fun tree : node => tree) 3 (VObj 0 [("temperature", Demo.int 25)]) "A" None []
    = ([("Sample", tree')], Ok [tree']) /\
    node_at tree' [1] = Some (AttributeNode "kind" o [(IStr ".0", Demo.int 25)] kids) /\
    skeleton tree' = skeleton Demo.sample_tree.
Proof.
  intros world.
  refine (@flat_annotation_is_converted world Demo.re_match Demo.py_str
            Demo.resolve Demo.no_files node (fun tree => tree)
            0 Demo.Sample
            (Field "temperature" (TSingle APrim) None [("A", "libA.Sample.kind")])
            (Demo.plain "kind") [Demo.plain "temp"] []
            "A" "libA.Sample.kind" "libA" "Sample"
            [("temperature", Demo.int 25)] (Demo.int 25) 2 Demo.sample_tree
            eq_refl eq_refl eq_refl eq_refl eq_refl eq_refl eq_refl eq_refl eq_refl
            _ eq_refl eq_refl).
  repeat constructor. discriminate.
Defined.

(** ** Rule lists are evaluated to the end; the walk ends at an unmapped leaf *)

Section RulesMore.
Variable env : cid -> class_decl.
Variable re_match : string -> string -> result bool.
Variable py_str : value -> string.

Lemma collect_matches_raises (obj : value) (bad : yaml) (e : pyerr)
  (post : list yaml) :
  rule_matches re_match py_str obj bad = Raise e ->
  forall pre,
    Forall (fun r => exists b, rule_matches re_match py_str obj r = Ok b) pre ->
    collect_matches re_match py_str obj (pre ++ bad :: post) = Raise e.
Proof.
  intros Hbad. induction pre as [|r pre IH]; intros Hpre; simpl.
  - now rewrite Hbad.
  - inversion Hpre as [|? ? [b Hr] Hrest]; subst.
    rewrite Hr. simpl. now rewrite (IH Hrest).
Qed.

(** X10: the rules of a list are all evaluated before the matches are counted:
    a rule that cannot be evaluated (its attribute is not on the candidate,
    a key is missing, its pattern is malformed) makes the resolution raise
    that error, even when a rule before it applies. *)
Theorem every_rule_is_evaluated
  (obj : value) (path : string) (template : yaml)
  (pre post : list yaml) (bad : yaml) (e : pyerr) :
  Yaml.get template path = Ok (Some (YList (pre ++ bad :: post))) ->
  Forall (fun r => exists b, rule_matches re_match py_str obj r = Ok b) pre ->
  rule_matches re_match py_str obj bad = Raise e ->
  _check_matching_target env re_match py_str obj path template = Raise e.
Proof.
  intros Hget Hpre Hbad. unfold _check_matching_target. rewrite Hget.
  cbn [rbind].
  assert (Hfalsy : Yaml.falsy (YList (pre ++ bad :: post)) = false)
    by (now destruct pre).
  rewrite Hfalsy. cbn [Yaml.iter].
  now rewrite (@collect_matches_raises obj bad e post Hbad pre Hpre).
Qed.

Variables (option : string) (template : yaml).
Variable rec : value -> nat -> string -> yaml -> st unit.

(** X3: the walk of an instance ends at its first leaf attribute that has
    neither an active target nor an annotation for the option: the root map
    is returned as it is, without error, and no attribute declared after it
    is visited. *)
Theorem walk_ends_at_unmapped_leaf
  (obj : value) (obj_index : nat) (attr_path : string)
  (fld : field) (rest : list field) (target : yaml) (v : value) (roots : roots_t) :
  getattr obj (f_name fld) = Ok v ->
  negb (is_list v) && type_has_fields (f_type fld) = false ->
  is_leaf_value v = true ->
  Yaml.contains (f_name fld) target = false ->
  dict_get String.eqb option (f_extra fld) = None ->
  convert_fields env re_match py_str option template rec
    obj obj_index attr_path (fld :: rest) target roots
  = (roots, Ok tt).
Proof. apply unmapped_leaf_returns. Qed.
End RulesMore.

Lemma every_rule_is_evaluated_witness :
  _check_matching_target Demo.env Demo.re_match Demo.py_str Demo.glass_sample "sample"
    (YMap [("sample",
            YList [Demo.glass_rule;
                   Demo.rule "colour" "red" [("temp", YStr "libA.Sample.kind")]])])
  = Raise AttributeError.
Proof.
  refine (@every_rule_is_evaluated Demo.env Demo.re_match Demo.py_str
            Demo.glass_sample "sample"
            (YMap [("sample",
                    YList [Demo.glass_rule;
                           Demo.rule "colour" "red"
                             [("temp", YStr "libA.Sample.kind")]])])
            [Demo.glass_rule] []
            (Demo.rule "colour" "red" [("temp", YStr "libA.Sample.kind")])
            AttributeError eq_refl _ eq_refl).
  constructor; [now exists true|constructor].
Defined.

Lemma walk_ends_at_unmapped_leaf_witness :
  convert_fields Demo.env Demo.re_match Demo.py_str "A" Yaml.empty
    (fun _ _ _ _ => sret tt) Demo.measurement 0 ""
    [Demo.plain "note"; Demo.temperature] Yaml.empty [("Sample", Demo.sample_tree)]
  = ([("Sample", Demo.sample_tree)], Ok tt).
Proof.
  exact (@walk_ends_at_unmapped_leaf Demo.env Demo.re_match Demo.py_str "A"
           Yaml.empty (fun _ _ _ _ => sret tt) Demo.measurement 0 ""
           (Demo.plain "note") [Demo.temperature] Yaml.empty (Demo.str "calibrated")
           [("Sample", Demo.sample_tree)] eq_refl eq_refl eq_refl eq_refl eq_refl).
Defined.
